(** * react-plaid-link, web3 part: script loader and wallet-onboarding connector

    A shallow embedding of [src/web3/loadScript.ts] and
    [src/web3/web3-react.ts].

    - [JS]        : [Number.parseInt] and [String.prototype.startsWith].
    - [Loader]    : [loadScript.ts]: the module-level registry [scripts],
                    the document, [checkExisting], [loadScript] and its
                    [loader] closure.
    - [Connector] : [web3-react.ts]: the class [PlaidWalletOnboard], with
                    the promises and the exceptions its methods are made of.
    - [Scenario]  : concrete wallets, SDKs and browsers.
    - [Hook]      : the [useScript] hook, the loader's React caller.

    External collaborators (the provider, the SDK namespace, the action
    reporting interface, the script element's network fate) are records of
    behaviours supplied by the environment; every theorem quantifies over
    them. *)

From Stdlib Require Import ZArith Ascii String.
From stdpp Require Import gmap strings list.

(* ===================================================================== *)
(** ** JavaScript run-time pieces                                          *)
(* ===================================================================== *)

Module JS.

Local Open Scope Z_scope.

(** A JavaScript number as the connector meets it: [NaN], an infinity, or
    an integer-valued double, kept as the integer it is.  [parseInt]
    yields nothing else; [of_integer] below is the rounding to a double.
    The sign of zero is not tracked, and a double that is not an integer is
    not represented (the connector computes none: [parseChainId] hands a
    number through without looking at it). *)
Inductive number :=
| NaN
| Num (z : Z)
| Infinity (negative : bool).

(** The nearest integer with at most 53 significant bits to [z >= 0], ties
    going to the even significand: IEEE 754 round-to-nearest-even on
    integers. *)
Definition round_to_53_bits (z : Z) : Z :=
  let e := Z.log2 z - 52 in
  if e <=? 0 then z
  else
    let q := Z.shiftr z e in
    let r := z - Z.shiftl q e in
    let half := Z.shiftl 1 (e - 1) in
    let q' := if r <? half then q
              else if half <? r then q + 1
              else if Z.even q then q else q + 1 in
    Z.shiftl q' e.

(** The Number value of a mathematical integer (ECMA-262's conversion of
    a mathematical value to a Number): the nearest double; what rounds to
    2^1024 or beyond is an infinity. *)
Definition of_integer (z : Z) : number :=
  let m := round_to_53_bits (Z.abs z) in
  if 2 ^ 1024 <=? m then Infinity (z <? 0) else Num (Z.sgn z * m).

(** Strings are sequences of code units below 256. *)

(** [String.prototype.startsWith]. *)
Definition startsWith (s p : string) : bool := String.prefix p s.

(** WhiteSpace and LineTerminator code units below 256:
    TAB, LF, VT, FF, CR, SP and NBSP. *)
Definition is_white_space (c : ascii) : bool :=
  let n := Z.of_nat (nat_of_ascii c) in
  ((9 <=? n) && (n <=? 13)) || (n =? 32) || (n =? 160).

Fixpoint trim_start (s : string) : string :=
  match s with
  | String c s' => if is_white_space c then trim_start s' else s
  | EmptyString => EmptyString
  end.

(** Value of a code unit as a digit: 0-9, a-z and A-Z stand for 0..35. *)
Definition digit_value (c : ascii) : option Z :=
  let n := Z.of_nat (nat_of_ascii c) in
  if (48 <=? n) && (n <=? 57) then Some (n - 48)
  else if (97 <=? n) && (n <=? 122) then Some (n - 87)
  else if (65 <=? n) && (n <=? 90) then Some (n - 55)
  else None.

(** The digits of the longest prefix of [s] made of radix-[R] digits. *)
Fixpoint digits_prefix (R : Z) (s : string) : list Z :=
  match s with
  | String c s' =>
      match digit_value c with
      | Some d => if d <? R then d :: digits_prefix R s' else []
      | None => []
      end
  | EmptyString => []
  end.

(** The integer a digit list denotes in radix [R], most significant first. *)
Definition math_int (R : Z) (ds : list Z) : Z :=
  fold_left (fun acc d => acc * R + d) ds 0.

(** ToInt32 on an integer: wrap into [-2^31, 2^31). *)
Definition to_int32 (z : Z) : Z :=
  let m := z mod 2 ^ 32 in
  if m <? 2 ^ 31 then m else m - 2 ^ 32.

(** The sign a string starts with, and the string without it. *)
Definition sign_of (s : string) : Z :=
  match s with String "-" _ => -1 | _ => 1 end.

Definition drop_sign (s : string) : string :=
  match s with
  | String "+" r => r
  | String "-" r => r
  | _ => s
  end.

(** The string after a leading "0x" or "0X", if it has one. *)
Definition drop_0x (s : string) : option string :=
  match s with
  | String "0" (String "x" r) => Some r
  | String "0" (String "X" r) => Some r
  | _ => None
  end.

(** [Number.parseInt(string, radix)], following the steps of ECMA-262:
    trim leading white space, read a sign, normalise the radix, strip a
    "0x"/"0X" prefix when the radix is 16 (or 0), take the longest prefix
    of digits, [NaN] when it is empty, and else the Number value of the
    signed integer the digits denote (exact in the radices 10 and 16 that
    [parseChainId] uses). *)
Definition parseInt (input : string) (radix : Z) : number :=
  let s := trim_start input in
  let sign := sign_of s in
  let s := drop_sign s in
  let R0 := to_int32 radix in
  if negb (R0 =? 0) && ((R0 <? 2) || (36 <? R0)) then NaN
  else
    let stripPrefix := (R0 =? 0) || (R0 =? 16) in
    let R := if R0 =? 0 then 10 else R0 in
    let '(s, R) :=
      if stripPrefix then
        match drop_0x s with
        | Some r => (r, 16)
        | None => (s, R)
        end
      else (s, R) in
    match digits_prefix R s with
    | [] => NaN
    | ds => of_integer (sign * math_int R ds)
    end.

(** Numerals, to state what [parseInt] reads: the character of a digit
    below 16 (lower case) and the string of a digit list. *)
Definition digit_char (d : Z) : ascii :=
  ascii_of_nat (Z.to_nat (if d <? 10 then 48 + d else 87 + d)).

Fixpoint numeral (ds : list Z) : string :=
  match ds with
  | [] => EmptyString
  | d :: ds' => String (digit_char d) (numeral ds')
  end.

End JS.

(* ===================================================================== *)
(** ** web3-react.ts: chain identifiers                                    *)
(* ===================================================================== *)

(** The argument of [parseChainId]: [string | number]. *)
Inductive ChainIdArg :=
| CNumber (n : JS.number)
| CString (s : string).

(** [typeof chainId === 'number' ? chainId
      : Number.parseInt(chainId, chainId.startsWith('0x') ? 16 : 10)] *)
Definition parseChainId (chainId : ChainIdArg) : JS.number :=
  match chainId with
  | CNumber n => n
  | CString s => JS.parseInt s (if JS.startsWith s "0x" then 16%Z else 10%Z)
  end.


(* ===================================================================== *)
(** ** loadScript.ts                                                       *)
(* ===================================================================== *)

Module Loader.

(** An [ErrorEvent] object, opaque to the loader. *)
Definition ErrorEvent := nat.

(** A script element: the identity of the DOM node and its [src]
    attribute.  The loader never changes the [src] of a node after it has
    set it. *)
Record Element := { el_id : nat; el_src : string }.

(** [type ScriptStatus = { loading; error; scriptEl }] *)
Record ScriptStatus := {
  loading : bool;
  error : option ErrorEvent;
  scriptEl : Element;
}.

(** [Omit<ScriptStatus, 'scriptEl'>]: what [loadScript] returns and what it
    hands to the callback. *)
Record Snapshot := { snap_loading : bool; snap_error : option ErrorEvent }.

(** The caller's callback is a closure of the caller; the loader only stores
    and calls it, so it is represented by a token. *)
Definition CallbackId := nat.

Inductive EventType := load | error_event.

(** An [addEventListener] registration made by [loader]: [handleLoad] or
    [handleError] on [l_target].  Both close over the variable [status] of
    the enclosing [loadScript] call, which at that point holds the registry
    entry of [l_src] (the very object stored in [scripts], entries are never
    replaced), and over [callback]. *)
Record Listener := {
  l_target : nat;
  l_type : EventType;
  l_src : string;
  l_callback : option CallbackId;
}.

(** The state the module lives in: the module constants [isBrowser] and
    [scripts], and the part of the DOM it touches.  [scripts] is an object
    used as a map from URL to status; its keys are the URLs the module has
    stored (a URL is not the name of a member of [Object.prototype]). *)
Record Page := {
  isBrowser : bool;
  scripts : gmap string ScriptStatus;
  document : list Element;   (* script elements in the document, tree order *)
  created : list Element;    (* every [document.createElement('script')] of
                                this module, oldest first *)
  listeners : list Listener; (* registrations, oldest first *)
  next_elem : nat;           (* identity of the next node to be created *)
}.

Definition set_scripts (m : gmap string ScriptStatus) (p : Page) : Page :=
  {| isBrowser := isBrowser p; scripts := m; document := document p;
     created := created p; listeners := listeners p;
     next_elem := next_elem p |}.

(** [document.querySelector(`script[src="${src}"]`)]: the first script
    element of the document whose [src] attribute is [src].  This is what
    the selector denotes when [src] stands for itself between the double
    quotes ([selector_safe] below); for a [src] with a double quote or a
    line break the real call throws a [SyntaxError], and a backslash
    changes what is matched. *)
Definition querySelector (src : string) (p : Page) : option Element :=
  List.find (fun e => String.eqb (el_src e) src) (document p).

(** [document.createElement('script')] followed by [scriptEl.src = src]. *)
Definition createElement (src : string) (p : Page) : Element * Page :=
  let el := {| el_id := next_elem p; el_src := src |} in
  (el,
   {| isBrowser := isBrowser p; scripts := scripts p; document := document p;
      created := created p ++ [el]; listeners := listeners p;
      next_elem := S (next_elem p) |}).

Definition addEventListener (l : Listener) (p : Page) : Page :=
  {| isBrowser := isBrowser p; scripts := scripts p; document := document p;
     created := created p; listeners := listeners p ++ [l];
     next_elem := next_elem p |}.

(** [document.body.appendChild(el)]: a node that is already in the document
    is moved, not copied. *)
Definition appendChild (el : Element) (p : Page) : Page :=
  {| isBrowser := isBrowser p; scripts := scripts p;
     document :=
       List.filter (fun e => negb (Nat.eqb (el_id e) (el_id el))) (document p)
       ++ [el];
     created := created p; listeners := listeners p;
     next_elem := next_elem p |}.

(** [checkExisting]: adopt an element that is already in the document. *)
Definition checkExisting (src : string) (p : Page)
  : option ScriptStatus * Page :=
  match querySelector src p with
  | Some existing =>
      let st := {| loading := false; error := None; scriptEl := existing |} in
      (Some st, set_scripts (<[src := st]> (scripts p)) p)
  | None => (None, p)
  end.

(** [interface Params]; an absent optional flag is [false]. *)
Record Params := {
  src : option string;
  checkForExisting : bool;
  loadImmediate : bool;
}.

(** Truthiness of [src : string | null]: [null] and the empty string are
    falsy. *)
Definition truthy_src (s : option string) : option string :=
  match s with
  | Some EmptyString => None
  | Some u => Some u
  | None => None
  end.

(** The closure [loader] of one [loadScript] call: what it captured. *)
Record Closure := {
  c_src : option string;
  c_checkForExisting : bool;
  c_error : option ErrorEvent;   (* [const error] of the call *)
  c_callback : option CallbackId;
}.

(** The body of [loader].  The registry is read as a finite map, which
    has own entries only: this is the code's [scripts[src]] for every [src]
    that is not the name of a member of [Object.prototype] ([own_key]
    below); for those names the real [loader] takes the inherited member
    for a status and throws on its missing [scriptEl]. *)
Definition loader (c : Closure) (p : Page) : Page :=
  match truthy_src (c_src c), c_error c with
  | Some u, None =>
      (* [scriptLoaded] is the constant [false] *)
      if negb (isBrowser p) then p
      else
        let '(status, p) :=
          match scripts p !! u with
          | Some st => (Some st, p)
          | None => if c_checkForExisting c then checkExisting u p
                    else (None, p)
          end in
        let '(el, p) :=
          match status with
          | Some st => (scriptEl st, p)
          | None =>
              let '(el, p) := createElement u p in
              (el,
               set_scripts
                 (<[u := {| loading := true; error := None; scriptEl := el |}]>
                    (scripts p)) p)
          end in
        let p := addEventListener
                   {| l_target := el_id el; l_type := load; l_src := u;
                      l_callback := c_callback c |} p in
        let p := addEventListener
                   {| l_target := el_id el; l_type := error_event; l_src := u;
                      l_callback := c_callback c |} p in
        appendChild el p
  | _, _ => p
  end.

(** [loadScript(params, callback)]: the snapshot, the deferred trigger (absent
    with [loadImmediate]) and the page afterwards.  The function is total
    here; the real call throws where [loader] or [checkExisting] does (see
    [plain_params] below for the parameters on which it does not). *)
Definition loadScript (params : Params) (callback : option CallbackId)
    (p : Page) : (Snapshot * option Closure) * Page :=
  let status :=
    match truthy_src (src params) with
    | Some u => scripts p !! u
    | None => None
    end in
  let '(status, p) :=
    match status, truthy_src (src params) with
    | None, Some u =>
        if checkForExisting params && isBrowser p then checkExisting u p
        else (None, p)
    | _, _ => (status, p)
    end in
  (* [status?.loading || Boolean(src)] *)
  let loading_ :=
    match status with Some st => loading st | None => false end
    || bool_decide (is_Some (truthy_src (src params))) in
  (* [status?.error || null] *)
  let error_ := match status with Some st => error st | None => None end in
  let c := {| c_src := src params;
              c_checkForExisting := checkForExisting params;
              c_error := error_; c_callback := callback |} in
  let snapshot := {| snap_loading := loading_; snap_error := error_ |} in
  if loadImmediate params then ((snapshot, None), loader c p)
  else ((snapshot, Some c), p).

(** What the listener [l] does when its event fires: [handleLoad] clears
    [status.loading] on the shared registry entry and calls back with
    [{loading: false, error: null}]; [handleError] only calls back, with the
    event as [error].  The result lists the callback invocations. *)
Definition run_listener (l : Listener) (err : option ErrorEvent) (p : Page)
  : Page * list (CallbackId * Snapshot) :=
  let p :=
    match l_type l with
    | load =>
        set_scripts
          (alter (fun st => {| loading := false; error := error st;
                               scriptEl := scriptEl st |})
                 (l_src l) (scripts p)) p
    | error_event => p
    end in
  (p,
   match l_callback l with
   | Some cb => [(cb, {| snap_loading := false; snap_error := err |})]
   | None => []
   end).

(** A DOM event on a script element. *)
Inductive DomEvent :=
| Loaded
| Failed (ev : ErrorEvent).

Definition listens (target : nat) (d : DomEvent) (l : Listener) : bool :=
  Nat.eqb (l_target l) target &&
  match d, l_type l with
  | Loaded, load => true
  | Failed _, error_event => true
  | _, _ => false
  end.

(** One listener's turn when [target] fires [d]. *)
Definition dispatch_step (target : nat) (d : DomEvent)
    (acc : Page * list (CallbackId * Snapshot)) (l : Listener)
  : Page * list (CallbackId * Snapshot) :=
  if listens target d l then
    let '(p', calls) :=
      run_listener l (match d with Failed ev => Some ev | Loaded => None end)
                   (fst acc) in
    (p', snd acc ++ calls)
  else acc.

(** The element [target] fires [d]: its listeners for that event run in
    registration order. *)
Definition dispatchEvent (target : nat) (d : DomEvent) (p : Page)
  : Page * list (CallbackId * Snapshot) :=
  fold_left (dispatch_step target d) (listeners p) (p, []).

(** *** A page lifetime *)

(** The page as the module finds it when it is first evaluated: an empty
    registry and the script elements [existing] of the document. *)
Definition initial_page (browser : bool) (existing : list string) : Page :=
  {| isBrowser := browser;
     scripts := ∅;
     document := imap (fun i u => {| el_id := i; el_src := u |}) existing;
     created := [];
     listeners := [];
     next_elem := length existing |}.

(** What can happen during the life of a page. *)
Inductive Op :=
| CallLoadScript (params : Params) (callback : option CallbackId)
| InvokeTrigger (i : nat)      (* call the [i]-th trigger handed out so far *)
| Fire (target : nat) (d : DomEvent)
| ForeignScript (u : string).  (* other code inserts a script element *)

(** The page together with the deferred triggers its callers hold. *)
Record Session := { page : Page; triggers : list Closure }.

Definition step (s : Session) (o : Op) : Session :=
  match o with
  | CallLoadScript params callback =>
      let '((_, trigger), p) := loadScript params callback (page s) in
      {| page := p;
         triggers := triggers s ++ match trigger with
                                   | Some c => [c]
                                   | None => []
                                   end |}
  | InvokeTrigger i =>
      match triggers s !! i with
      | Some c => {| page := loader c (page s); triggers := triggers s |}
      | None => s
      end
  | Fire target d =>
      {| page := fst (dispatchEvent target d (page s)); triggers := triggers s |}
  | ForeignScript u =>
      let p := page s in
      {| page :=
           {| isBrowser := isBrowser p; scripts := scripts p;
              document := document p ++ [{| el_id := next_elem p; el_src := u |}];
              created := created p; listeners := listeners p;
              next_elem := S (next_elem p) |};
         triggers := triggers s |}
  end.

Definition run (ops : list Op) (s : Session) : Session := fold_left step ops s.

(** How many script elements the module has created for [u]. *)
Definition created_for (u : string) (p : Page) : nat :=
  length (List.filter (fun e => String.eqb (el_src e) u) (created p)).

(** The invariant behind the registry: the elements the module created
    have pairwise different URLs, and each of these URLs has its entry in
    [scripts]. *)
Definition created_registered (p : Page) : Prop :=
  NoDup (map el_src (created p)) /\
  forall e, In e (created p) -> is_Some (scripts p !! el_src e).

(** *** Where the embedding follows the code *)

(** The members every object inherits from [Object.prototype] (ECMA-262
    and its Annex B).  The registry is a plain object: for such a key
    [scripts[src]] is the inherited member, not [undefined], although the
    registry holds no entry. *)
Definition Object_prototype_members : list string :=
  ["constructor"; "hasOwnProperty"; "isPrototypeOf"; "propertyIsEnumerable";
   "toLocaleString"; "toString"; "valueOf"; "__defineGetter__";
   "__defineSetter__"; "__lookupGetter__"; "__lookupSetter__"; "__proto__"].

(** A key the registry has only if it was put there. *)
Definition own_key (u : string) : bool :=
  negb (existsb (String.eqb u) Object_prototype_members).

(** The code units that do not stand for themselves inside a CSS string in
    double quotes: the double quote, the backslash, the line breaks LF, FF
    and CR, and NUL. *)
Definition selector_special (c : ascii) : bool :=
  let n := nat_of_ascii c in
  Nat.eqb n 34 || Nat.eqb n 92 || Nat.eqb n 10 || Nat.eqb n 12 ||
  Nat.eqb n 13 || Nat.eqb n 0.

(** For such a [src] the selector [script[src="${src}"]] is well formed and
    selects the script elements whose [src] attribute is [src]. *)
Fixpoint selector_safe (u : string) : bool :=
  match u with
  | EmptyString => true
  | String c rest => negb (selector_special c) && selector_safe rest
  end.

(** A [src] on which [loadScript] and [loader], called with
    [checkForExisting = check], do what this embedding says; on the others
    the real code may throw. *)
Definition plain_src (check : bool) (u : string) : bool :=
  own_key u && (negb check || selector_safe u).

Definition plain_params (params : Params) : bool :=
  match truthy_src (src params) with
  | Some u => plain_src (checkForExisting params) u
  | None => true
  end.

(** *** Vocabulary for the facts about the loader *)

(** The status [handleLoad] leaves behind. *)
Definition mark_loaded (st : ScriptStatus) : ScriptStatus :=
  {| loading := false; error := error st; scriptEl := scriptEl st |}.

(** The callback invocation the listener [l] makes when [target] fires
    [d]. *)
Definition notified (target : nat) (d : DomEvent) (l : Listener)
  : list (CallbackId * Snapshot) :=
  if listens target d l then
    match l_callback l with
    | Some cb =>
        [(cb, {| snap_loading := false;
                 snap_error := match d with
                               | Failed ev => Some ev
                               | Loaded => None
                               end |})]
    | None => []
    end
  else [].

(** Is there a [load] listener on [target] whose [status] is the registry
    entry of [u]? *)
Definition load_listener_for (target : nat) (u : string) (p : Page) : bool :=
  existsb (fun l => listens target Loaded l && String.eqb (l_src l) u)
          (listeners p).


(** No registry entry records an error. *)
Definition registry_clean (p : Page) : Prop :=
  forall u st, scripts p !! u = Some st -> error st = None.

(** The three things [loader] does to the page. *)
Definition adopt (u : string) (existing : Element) (p : Page) : Page :=
  set_scripts
    (<[u := {| loading := false; error := None; scriptEl := existing |}]>
       (scripts p)) p.

Definition register_new (u : string) (p : Page) : Page :=
  set_scripts
    (<[u := {| loading := true; error := None;
               scriptEl := fst (createElement u p) |}]>
       (scripts (snd (createElement u p))))
    (snd (createElement u p)).

Definition attach (u : string) (el : Element) (cb : option CallbackId)
    (p : Page) : Page :=
  appendChild el
    (addEventListener
       {| l_target := el_id el; l_type := error_event; l_src := u;
          l_callback := cb |}
       (addEventListener
          {| l_target := el_id el; l_type := load; l_src := u;
             l_callback := cb |} p)).

(** What becomes of the registry entries between two pages: an entry
    stays, with its element and its error, and once loaded it stays
    loaded. *)
Definition entries_kept (p p' : Page) : Prop :=
  forall u st,
    scripts p !! u = Some st ->
    exists st',
      scripts p' !! u = Some st' /\
      scriptEl st' = scriptEl st /\
      error st' = error st /\
      (loading st = false -> loading st' = false).


End Loader.

(* ===================================================================== *)
(** ** web3-react.ts: the connector                                        *)
(* ===================================================================== *)

Module Connector.

Import Loader.

(** *** Values, exceptions, promises *)

(** What can be thrown or be the reason of a rejection. *)
Inductive Error :=
| ErrorMsg (message : string)      (* [new Error(message)] of the connector *)
| TypeError                        (* member access or call on [undefined] *)
| ScriptFailed (ev : ErrorEvent)   (* the [ErrorEvent] of the script element *)
| Foreign (tag : nat).             (* a value thrown or rejected by a collaborator *)

(** How a synchronous piece of code completes. *)
Inductive Completion (A : Type) :=
| Normal (a : A)
| Throw (e : Error).
Arguments Normal {A} a.
Arguments Throw {A} e.

(** A promise, identified with its fate once the event loop has delivered
    everything the environment will ever deliver: [Pending] is a promise
    that never settles. *)
Inductive Promise (A : Type) :=
| Fulfilled (a : A)
| Rejected (e : Error)
| Pending.
Arguments Fulfilled {A} a.
Arguments Rejected {A} e.
Arguments Pending {A}.

(** How a call into a collaborator that returns a promise behaves: it
    throws, or returns a promise with its fate; [tick] orders the moments at
    which the promises of one collaborator settle. *)
Inductive Returns (A : Type) :=
| Throws (e : Error)
| Promised (tick : nat) (fate : Promise A).
Arguments Throws {A} e.
Arguments Promised {A} tick fate.

(** A response value that the code only tests for truthiness. *)
Inductive Value :=
| VUndefined
| VNull
| VBool (b : bool)
| VNumber (n : JS.number)
| VString (s : string)
| VObject.

(** ToBoolean. *)
Definition truthy (v : Value) : bool :=
  match v with
  | VUndefined | VNull => false
  | VBool b => b
  | VNumber JS.NaN => false
  | VNumber (JS.Num z) => negb (z =? 0)%Z
  | VNumber (JS.Infinity _) => true
  | VString s => negb (String.eqb s "")
  | VObject => true
  end.

(** *** Collaborators *)

(** The [options] member of a [wallet_watchAsset] request, as [watchAsset]
    builds it. *)
Record WatchAssetOptions := {
  address : string;
  symbol : option string;
  decimals : option Z;
  image : option string;
}.

Record WatchAssetParams := { type : string; wa_options : WatchAssetOptions }.

(** The argument of [provider.request]: [{ method, params }]. *)
Inductive Request :=
| eth_accounts
| eth_chainId
| wallet_watchAsset (params : list WatchAssetParams).

(** What the promise of a request resolves to, as the code uses it:
    [accounts : string[]], [chainId : string | number], and a value tested
    for truthiness. *)
Definition Response (r : Request) : Type :=
  match r with
  | eth_accounts => list string
  | eth_chainId => ChainIdArg
  | wallet_watchAsset _ => Value
  end.

Inductive EventName := connect | disconnect | chainChanged | accountsChanged.

(** Modelled from the spec: the provider type ([Provider] of
    @web3-react/types, [EIP1193Provider] of ../types/web3) is not in the
    sources; it is "a provider object exposing request(method, params) ->
    promise and an event-subscription method on(eventName, handler) for the
    four named events".  [prov_on name = Some e] is a call to [on] that
    throws [e]. *)
Record Provider := {
  provider_id : nat;
  prov_on : EventName -> option Error;
  prov_request : forall r : Request, Returns (Response r);
}.

(** Modelled from the spec: [Web3OnboardingOptions] of ../types/web3 is not
    in the sources; the connector reads its [chain] and passes the rest on
    to the SDK. *)
Record Web3OnboardingOptions := { chain : string; opt_rest : nat }.

(** What [createEthereumOnboarding(config)] followed by [handler.open()]
    leads to: one of the two calls throws, or the SDK later calls
    [onSuccess(provider)], [onExit(error)], or neither. *)
Inductive Onboarding :=
| CreateThrows (e : Error)
| OpenThrows (e : Error)
| OnSuccess (provider : Provider)
| OnExit (error : Error)
| NoCallback.

(** Modelled from the spec: the SDK namespace type [PlaidWeb3] of
    ../types/web3 is not in the sources; it is "a namespace object exposing
    createEthereumOnboarding, getCurrentEthereumProvider, isProviderActive,
    disconnectEthereumProvider".  The two members the code reaches through a
    [Required<PlaidWeb3>] cast may be absent. *)
Record PlaidWeb3 := {
  createEthereumOnboarding : Web3OnboardingOptions -> Onboarding;
  getCurrentEthereumProvider : option (string -> Returns (option Provider));
  isProviderActive : option (Provider -> Returns bool);
  disconnectEthereumProvider : Provider -> Returns unit;
}.

(** Modelled from the spec: [PlaidGlobalWithWeb3], the type of
    [window.Plaid], is not in the sources; it exposes "a web3() factory". *)
Record PlaidGlobalWithWeb3 := { web3 : Returns PlaidWeb3 }.

(** The argument of [actions.update]: [{ chainId?, accounts? }]. *)
Record StateUpdate := {
  upd_chainId : option JS.number;
  upd_accounts : option (list string);
}.

(** The calls the connector makes to its collaborators, in the order it
    makes them. *)
Inductive Event :=
| StartActivation
| CancelActivation
| Update (u : StateUpdate)
| ResetState
| OnError (e : Error)
| Web3Factory
| CreateEthereumOnboarding (o : Web3OnboardingOptions)
| OpenOnboarding
| GetCurrentEthereumProvider (c : string)
| IsProviderActive (provider : nat)
| DisconnectEthereumProvider (provider : nat)
| On (provider : nat) (name : EventName)
| RequestSent (provider : nat) (r : Request).

(** The script element's network fate. *)
Inductive ScriptFate :=
| FiresLoad
| FiresError (ev : ErrorEvent)
| FiresNothing.

(** What the surroundings of the connector decide.
    Modelled from the spec: [Actions] of @web3-react/types is not in the
    sources; it is "an external action-reporting interface with operations
    startActivation() -> cancellation handle, update({chainId?, accounts?}),
    resetState()".  [update_throws u = Some e] is an [update] that throws. *)
Record Env := {
  window_Plaid : option PlaidGlobalWithWeb3;
  script_fate : nat -> ScriptFate;
  update_throws : StateUpdate -> option Error;
}.

(** *** The connector object and its world *)

(** The fields of a [PlaidWalletOnboard] ([provider] and [onError] are
    inherited from [Connector]). *)
Record PlaidWalletOnboard := {
  options : Web3OnboardingOptions;
  onError : bool;                          (* was the optional [onError] given *)
  plaidWeb3 : option PlaidWeb3;
  eagerConnection : option (Promise unit);
  provider : option Provider;
}.

Record World := {
  this : PlaidWalletOnboard;
  page : Page;                       (* the loader's module state and the DOM *)
  wired : list (nat * EventName);    (* handlers registered through [on] and
                                        kept by the providers, oldest first *)
  next_callback : CallbackId;
}.

Definition new_connector (o : Web3OnboardingOptions) (onError_given : bool)
  : PlaidWalletOnboard :=
  {| options := o; onError := onError_given; plaidWeb3 := None;
     eagerConnection := None; provider := None |}.

Definition set_this (a : PlaidWalletOnboard) (w : World) : World :=
  {| this := a; page := page w; wired := wired w;
     next_callback := next_callback w |}.

Definition set_page (p : Page) (w : World) : World :=
  {| this := this w; page := p; wired := wired w;
     next_callback := next_callback w |}.

(** *** Synchronous code: state, exceptions and the log of calls *)

Definition Sync (A : Type) : Type := World -> Completion A * World * list Event.

Definition ret {A} (a : A) : Sync A := fun w => (Normal a, w, []).

Definition throw {A} (e : Error) : Sync A := fun w => (Throw e, w, []).

Definition bind {A B} (m : Sync A) (k : A -> Sync B) : Sync B :=
  fun w =>
    match m w with
    | (Normal a, w1, t1) => let '(r, w2, t2) := k a w1 in (r, w2, t1 ++ t2)
    | (Throw e, w1, t1) => (Throw e, w1, t1)
    end.

Notation "x <- m ;; k" := (bind m (fun x => k))
  (at level 100, m at next level, right associativity).
Notation "m ;;; k" := (bind m (fun _ => k))
  (at level 100, right associativity).

Definition call (ev : Event) : Sync unit := fun w => (Normal tt, w, [ev]).

Definition get : Sync World := fun w => (Normal w, w, []).

Definition modify (f : World -> World) : Sync unit :=
  fun w => (Normal tt, f w, []).

(** *** Promises *)

(** [new Promise(executor)] for an executor whose synchronous part decides
    the fate (through what it makes the environment call back): an
    exception in the executor rejects the promise. *)
Definition new_Promise {A} (executor : Sync (Promise A)) : Sync (Promise A) :=
  fun w =>
    match executor w with
    | (Throw e, w1, t1) => (Normal (Rejected e), w1, t1)
    | r => r
    end.

(** [p.then(f)]: [f] runs only if [p] is fulfilled; the promise it returns
    is adopted, an exception in it rejects. *)
Definition then_ {A B} (p : Promise A) (f : A -> Sync (Promise B))
  : Sync (Promise B) :=
  match p with
  | Fulfilled a => new_Promise (f a)
  | Rejected e => ret (Rejected e)
  | Pending => ret Pending
  end.

(** [p.catch(h)]. *)
Definition catch_ {A} (p : Promise A) (h : Error -> Sync (Promise A))
  : Sync (Promise A) :=
  match p with
  | Rejected e => new_Promise (h e)
  | _ => ret p
  end.

(** [Promise.all([a, b])]: fulfilled with both values once both are
    fulfilled, rejected with the reason of the first promise to reject. *)
Definition Promise_all {A B} (a : nat * Promise A) (b : nat * Promise B)
  : Promise (A * B) :=
  match snd a, snd b with
  | Fulfilled x, Fulfilled y => Fulfilled (x, y)
  | Rejected e, Rejected e' =>
      if (fst a <=? fst b)%nat then Rejected e else Rejected e'
  | Rejected e, _ => Rejected e
  | _, Rejected e => Rejected e
  | _, _ => Pending
  end.

(** A call into a collaborator: logged, then it throws or hands back its
    promise. *)
Definition invoke {A} (ev : Event) (r : Returns A) : Sync (nat * Promise A) :=
  call ev ;;;
  match r with
  | Throws e => throw e
  | Promised tick fate => ret (tick, fate)
  end.

(** [provider.request(r)]. *)
Definition request (prov : Provider) (r : Request)
  : Sync (nat * Promise (Response r)) :=
  invoke (RequestSent (provider_id prov) r) (prov_request prov r).

Definition PLAID_LINK_STABLE_URL : string :=
  "https://cdn.plaid.com/link/v2/stable/link-initialize.js".

Section WithEnv.

Variable env : Env.

(** *** The action-reporting interface *)

(** [this.actions.startActivation()] returns the function that cancels.
    Of the interface's functions, [update] is the one that may throw (it is
    the one that takes data from the provider). *)
Definition startActivation : Sync (Sync unit) :=
  call StartActivation ;;; ret (call CancelActivation).

Definition update (u : StateUpdate) : Sync unit :=
  call (Update u) ;;;
  match update_throws env u with
  | Some e => throw e
  | None => ret tt
  end.

Definition resetState : Sync unit := call ResetState.

(** *** [isomorphicInitialize] *)

(** The callback given to [loadScript]:
    [if (loading) return; if (error) return reject(error); else resolve()].
    [None]: this invocation leaves the promise as it is. *)
Definition init_callback (s : Snapshot) : option (Promise unit) :=
  if snap_loading s then None
  else match snap_error s with
       | Some ev => Some (Rejected (ScriptFailed ev))
       | None => Some (Fulfilled tt)
       end.

(** The fate of the promise given the invocations of its callback [cb]:
    the first one that settles it counts. *)
Fixpoint settled_by (cb : CallbackId) (calls : list (CallbackId * Snapshot))
  : Promise unit :=
  match calls with
  | [] => Pending
  | (c, s) :: rest =>
      if Nat.eqb c cb then
        match init_callback s with
        | Some p => p
        | None => settled_by cb rest
        end
      else settled_by cb rest
  end.

(** The executor of the first promise: it calls [loadScript]; the element
    the listeners were put on then fires [load], [error] or nothing, as the
    environment decides. *)
Definition load_executor : Sync (Promise unit) :=
  fun w =>
    let cb := next_callback w in
    let '(_, page1) :=
      loadScript {| src := Some PLAID_LINK_STABLE_URL;
                    checkForExisting := true;
                    loadImmediate := true |} (Some cb) (page w) in
    let w1 := {| this := this w; page := page1; wired := wired w;
                 next_callback := S cb |} in
    match List.find (fun l => bool_decide (l_callback l = Some cb))
                    (listeners page1) with
    | None => (Normal Pending, w1, [])
    | Some l =>
        match script_fate env (l_target l) with
        | FiresNothing => (Normal Pending, w1, [])
        | FiresLoad =>
            let '(page2, calls) := dispatchEvent (l_target l) Loaded page1 in
            (Normal (settled_by cb calls), set_page page2 w1, [])
        | FiresError ev =>
            let '(page2, calls) :=
              dispatchEvent (l_target l) (Failed ev) page1 in
            (Normal (settled_by cb calls), set_page page2 w1, [])
        end
    end.

Definition isomorphicInitialize : Sync (Promise unit) :=
  w <- get ;;
  match eagerConnection (this w) with
  | Some _ => ret (Fulfilled tt)          (* [return Promise.resolve()] *)
  | None =>
      p <- new_Promise load_executor ;;
      p <- then_ p (fun _ =>
             match window_Plaid env with
             | None => throw TypeError
             | Some plaid =>
                 q <- invoke Web3Factory (web3 plaid) ;;
                 ret (snd q)
             end) ;;
      p <- then_ p (fun sdk =>
             modify (fun w =>
               set_this {| options := options (this w);
                           onError := onError (this w);
                           plaidWeb3 := Some sdk;
                           eagerConnection := eagerConnection (this w);
                           provider := provider (this w) |} w) ;;;
             ret (Fulfilled tt)) ;;
      modify (fun w =>
        set_this {| options := options (this w);
                    onError := onError (this w);
                    plaidWeb3 := plaidWeb3 (this w);
                    eagerConnection := Some p;
                    provider := provider (this w) |} w) ;;;
      ret p
  end.

(** *** [setProvider] and the handlers it registers *)

(** [provider.on(name, handler)]. *)
Definition on (prov : Provider) (name : EventName) : Sync unit :=
  call (On (provider_id prov) name) ;;;
  match prov_on prov name with
  | Some e => throw e
  | None =>
      modify (fun w =>
        {| this := this w; page := page w;
           wired := wired w ++ [(provider_id prov, name)];
           next_callback := next_callback w |})
  end.

Definition setProvider (prov : Provider) : Sync unit :=
  modify (fun w =>
    set_this {| options := options (this w);
                onError := onError (this w);
                plaidWeb3 := plaidWeb3 (this w);
                eagerConnection := eagerConnection (this w);
                provider := Some prov |} w) ;;;
  on prov connect ;;;
  on prov disconnect ;;;
  on prov chainChanged ;;;
  on prov accountsChanged.

(** An event a provider emits, with its argument. *)
Inductive ProviderEvent :=
| EmitConnect (chainId : string)          (* [ProviderConnectInfo] *)
| EmitDisconnect (error : Error)          (* [ProviderRpcError] *)
| EmitChainChanged (chainId : string)
| EmitAccountsChanged (accounts : list string).

Definition event_name (e : ProviderEvent) : EventName :=
  match e with
  | EmitConnect _ => connect
  | EmitDisconnect _ => disconnect
  | EmitChainChanged _ => chainChanged
  | EmitAccountsChanged _ => accountsChanged
  end.

(** The handler [setProvider] registers for [event_name e], run on [e]. *)
Definition handler (e : ProviderEvent) : Sync unit :=
  match e with
  | EmitConnect chainId =>
      update {| upd_chainId := Some (parseChainId (CString chainId));
                upd_accounts := None |}
  | EmitDisconnect error =>
      resetState ;;;
      w <- get ;;
      if onError (this w) then call (OnError error) else ret tt
  | EmitChainChanged chainId =>
      update {| upd_chainId := Some (parseChainId (CString chainId));
                upd_accounts := None |}
  | EmitAccountsChanged accounts =>
      if (length accounts =? 0)%nat then
        (* handle this edge case by disconnecting *)
        resetState
      else update {| upd_chainId := None; upd_accounts := Some accounts |}
  end.

Definition same_name (a b : EventName) : bool :=
  match a, b with
  | connect, connect | disconnect, disconnect
  | chainChanged, chainChanged | accountsChanged, accountsChanged => true
  | _, _ => false
  end.

(** The registrations [regs] that are for provider [pid] and event [e] run
    in order; an exception in one ends the emission. *)
Fixpoint run_handlers (regs : list (nat * EventName)) (pid : nat)
    (e : ProviderEvent) : Sync unit :=
  match regs with
  | [] => ret tt
  | (pid', name) :: rest =>
      (if Nat.eqb pid' pid && same_name name (event_name e)
       then handler e else ret tt) ;;;
      run_handlers rest pid e
  end.

(** The provider [pid] emits [e]. *)
Definition emit (pid : nat) (e : ProviderEvent) : Sync unit :=
  w <- get ;; run_handlers (wired w) pid e.

(** *** The public operations *)

(** The block shared, word for word, by [activate] and [connectEagerly]:
    [Promise.all([request(eth_accounts), request(eth_chainId)]).then(...)]. *)
Definition requestAccountsAndChainId (prov : Provider) : Sync (Promise unit) :=
  a <- request prov eth_accounts ;;
  c <- request prov eth_chainId ;;
  then_ (Promise_all a c) (fun '(accounts, chainId) =>
    if (length (accounts : list string) =? 0)%nat
    then throw (ErrorMsg "No accounts returned")
    else
      update {| upd_chainId := Some (parseChainId chainId);
                upd_accounts := Some accounts |} ;;;
      ret (Fulfilled tt)).

(** The executor of the onboarding promise of [activate]. *)
Definition onboarding_executor : Sync (Promise Provider) :=
  w <- get ;;
  match plaidWeb3 (this w) with
  | None => throw TypeError
  | Some sdk =>
      call (CreateEthereumOnboarding (options (this w))) ;;;
      match createEthereumOnboarding sdk (options (this w)) with
      | CreateThrows e => throw e
      | OpenThrows e => call OpenOnboarding ;;; throw e
      | OnSuccess prov => call OpenOnboarding ;;; ret (Fulfilled prov)
      | OnExit error => call OpenOnboarding ;;; ret (Rejected error)
      | NoCallback => call OpenOnboarding ;;; ret Pending
      end
  end.

Definition activate : Sync (Promise unit) :=
  cancelActivation <- startActivation ;;
  p <- isomorphicInitialize ;;
  p <- then_ p (fun _ => new_Promise onboarding_executor) ;;
  p <- then_ p (fun prov =>
         setProvider prov ;;;
         requestAccountsAndChainId prov) ;;
  catch_ p (fun error => cancelActivation ;;; throw error).

Definition connectEagerly : Sync (Promise unit) :=
  cancelActivation <- startActivation ;;
  p <- isomorphicInitialize ;;
  p <- then_ p (fun _ =>
         w <- get ;;
         match plaidWeb3 (this w) with
         | None => throw TypeError
         | Some sdk =>
             match getCurrentEthereumProvider sdk with
             | None => throw TypeError
             | Some f =>
                 q <- invoke (GetCurrentEthereumProvider (chain (options (this w))))
                             (f (chain (options (this w)))) ;;
                 ret (snd q)
             end
         end) ;;
  p <- then_ p (fun prov =>
         w <- get ;;
         match prov with
         | None => throw (ErrorMsg "No existing connection")
         | Some prov =>
             match plaidWeb3 (this w) with
             | None => throw TypeError
             | Some sdk =>
                 match isProviderActive sdk with
                 | None => throw TypeError
                 | Some f =>
                     q <- invoke (IsProviderActive (provider_id prov)) (f prov) ;;
                     q <- then_ (snd q) (fun connected : bool =>
                            if negb connected
                            then throw (ErrorMsg "No existing connection")
                            else ret (Fulfilled tt)) ;;
                     then_ q (fun _ => setProvider prov ;;; ret (Fulfilled tt))
                 end
             end
         end) ;;
  p <- then_ p (fun _ =>
         w <- get ;;
         match provider (this w) with
         | None => throw TypeError
         | Some prov => requestAccountsAndChainId prov
         end) ;;
  catch_ p (fun error => cancelActivation ;;; throw error).

Definition deactivate : Sync (Promise unit) :=
  w <- get ;;
  match provider (this w), plaidWeb3 (this w) with
  | Some prov, Some sdk =>
      q <- invoke (DisconnectEthereumProvider (provider_id prov))
                  (disconnectEthereumProvider sdk prov) ;;
      ret (snd q)
  | _, _ => ret (Fulfilled tt)
  end.

Definition watchAsset (o : WatchAssetOptions) : Sync (Promise bool) :=
  w <- get ;;
  match provider (this w) with
  | None => throw (ErrorMsg "No provider")
  | Some prov =>
      q <- request prov
             (wallet_watchAsset [{| type := "ERC20"; wa_options := o |}]) ;;
      then_ (snd q) (fun success : Value =>
        if negb (truthy success) then throw (ErrorMsg "Rejected")
        else ret (Fulfilled true))
  end.

End WithEnv.

(** The world after [setProvider prov] when the provider accepts the four
    subscriptions. *)
Definition wire (prov : Provider) (w : World) : World :=
  {| this := {| options := options (this w); onError := onError (this w);
                plaidWeb3 := plaidWeb3 (this w);
                eagerConnection := eagerConnection (this w);
                provider := Some prov |};
     page := page w;
     wired := (((wired w ++ [(provider_id prov, connect)])
                ++ [(provider_id prov, disconnect)])
               ++ [(provider_id prov, chainChanged)])
              ++ [(provider_id prov, accountsChanged)];
     next_callback := next_callback w |}.

(** What the [accountsChanged] handler tells the action-reporting
    interface. *)
Definition accounts_report (accounts : list string) : Event :=
  match accounts with
  | [] => ResetState
  | _ => Update {| upd_chainId := None; upd_accounts := Some accounts |}
  end.

(** A connector that has just been constructed, on a page that has just
    been loaded. *)
Definition fresh_world (browser : bool) (existing : list string)
    (o : Web3OnboardingOptions) (onError_given : bool) : World :=
  {| this := new_connector o onError_given;
     page := initial_page browser existing;
     wired := [];
     next_callback := 0 |}.

(** *** The stages of the two promise chains *)

(** A stage of a promise chain fails with [e]: its code throws [e], or the
    promise it hands to the chain is rejected with [e]. *)
Definition fails_with {A} (r : Completion (Promise A)) (e : Error) : Prop :=
  r = Throw e \/ r = Normal (Rejected e).

(** [connectEagerly], lines 77-79: the first [.then] callback, which asks
    the SDK for the current provider of the configured chain. *)
Definition lookup_provider : Sync (Promise (option Provider)) :=
  w <- get ;;
  match plaidWeb3 (this w) with
  | None => throw TypeError
  | Some sdk =>
      match getCurrentEthereumProvider sdk with
      | None => throw TypeError
      | Some f =>
          q <- invoke (GetCurrentEthereumProvider (chain (options (this w))))
                      (f (chain (options (this w)))) ;;
          ret (snd q)
      end
  end.

(** [connectEagerly], lines 80-87: the second [.then] callback, which
    wants a provider, asks the SDK whether it is active and then calls
    [setProvider]. *)
Definition adopt_if_active (found : option Provider) : Sync (Promise unit) :=
  w <- get ;;
  match found with
  | None => throw (ErrorMsg "No existing connection")
  | Some prov =>
      match plaidWeb3 (this w) with
      | None => throw TypeError
      | Some sdk =>
          match isProviderActive sdk with
          | None => throw TypeError
          | Some f =>
              q <- invoke (IsProviderActive (provider_id prov)) (f prov) ;;
              q <- then_ (snd q) (fun connected : bool =>
                     if negb connected
                     then throw (ErrorMsg "No existing connection")
                     else ret (Fulfilled tt)) ;;
              then_ q (fun _ => setProvider prov ;;; ret (Fulfilled tt))
          end
      end
  end.

(** *** Vocabulary for the facts about the connector *)

(** What one run of the handler registered for [event_name e] tells the
    action-reporting interface and the error callback, in order. *)
Definition report (onError_given : bool) (e : ProviderEvent) : list Event :=
  match e with
  | EmitConnect chainId | EmitChainChanged chainId =>
      [Update {| upd_chainId := Some (parseChainId (CString chainId));
                 upd_accounts := None |}]
  | EmitDisconnect error =>
      ResetState :: if onError_given then [OnError error] else []
  | EmitAccountsChanged accounts => [accounts_report accounts]
  end.

(** How many handlers for [name] the provider [pid] holds. *)
Definition count_handlers (pid : nat) (name : EventName)
    (regs : list (nat * EventName)) : nat :=
  length (List.filter (fun r => Nat.eqb (fst r) pid && same_name (snd r) name)
                      regs).

(** Every call a computation logs satisfies [P]. *)
Definition logs_only {A} (P : Event -> Prop) (m : Sync A) : Prop :=
  forall w, Forall P (snd (m w)).

(** A computation keeps an invariant of the world. *)
Definition preserves {A} (I : World -> Prop) (m : Sync A) : Prop :=
  forall w, I w -> I (snd (fst (m w))).

(** Calls that show the onboarding dialog. *)
Definition opens_onboarding (ev : Event) : Prop :=
  match ev with
  | CreateEthereumOnboarding _ | OpenOnboarding => True
  | _ => False
  end.

(** The page of [w] is in order and, compared with [w0], has no more
    created elements for any URL but the onboarding script's. *)
Definition only_plaid_script (w0 w : World) : Prop :=
  created_registered (page w) /\
  forall v, v <> PLAID_LINK_STABLE_URL ->
            created_for v (page w) = created_for v (page w0).



(** The public operations of a connector, and what a provider may do to
    it. *)
Inductive ConnectorCall :=
| CallActivate
| CallConnectEagerly
| CallDeactivate
| CallWatchAsset (asset : WatchAssetOptions)
| ProviderEmits (pid : nat) (e : ProviderEvent).

Definition run_call (env : Env) (w : World) (c : ConnectorCall) : World :=
  match c with
  | CallActivate => snd (fst (activate env w))
  | CallConnectEagerly => snd (fst (connectEagerly env w))
  | CallDeactivate => snd (fst (deactivate w))
  | CallWatchAsset asset => snd (fst (watchAsset asset w))
  | ProviderEmits pid e => snd (fst (emit env pid e w))
  end.

Definition run_calls (env : Env) (calls : list ConnectorCall) (w : World)
  : World :=
  fold_left (run_call env) calls w.


(** Nothing is ever taken back: compared with [w0], the world [w] has the
    same options and error callback, still holds every field that was set,
    and still has every handler registration, in the same order. *)
Definition only_grows (w0 w : World) : Prop :=
  options (this w) = options (this w0) /\
  onError (this w) = onError (this w0) /\
  (is_Some (plaidWeb3 (this w0)) -> is_Some (plaidWeb3 (this w))) /\
  (is_Some (eagerConnection (this w0)) -> is_Some (eagerConnection (this w))) /\
  (is_Some (provider (this w0)) -> is_Some (provider (this w))) /\
  exists more, wired w = wired w0 ++ more.

End Connector.

(* ===================================================================== *)
(** ** Concrete collaborators, for the scenarios below                     *)
(* ===================================================================== *)

Module Scenario.

Import Loader Connector.

(** A provider (identity 1) that accepts every subscription and answers the
    three requests as given. *)
Definition wallet (accounts : Returns (list string))
    (chainId : Returns ChainIdArg) (watch : Returns Value) : Provider :=
  {| provider_id := 1;
     prov_on := fun _ => None;
     prov_request := fun r =>
       match r as r0 return Returns (Response r0) with
       | eth_accounts => accounts
       | eth_chainId => chainId
       | wallet_watchAsset _ => watch
       end |}.

(** An SDK namespace whose onboarding ends as [ob] and which knows the
    current provider [current]. *)
Definition sdk (ob : Onboarding) (current : option Provider) : PlaidWeb3 :=
  {| createEthereumOnboarding := fun _ => ob;
     getCurrentEthereumProvider := Some (fun _ => Promised 0 (Fulfilled current));
     isProviderActive := Some (fun _ => Promised 0 (Fulfilled true));
     disconnectEthereumProvider := fun _ => Promised 0 (Fulfilled tt) |}.

(** A browser in which the script element ends as [fate] and the script
    defines [window.Plaid] with a factory that resolves to [s]. *)
Definition browser_env (fate : ScriptFate) (s : PlaidWeb3) : Env :=
  {| window_Plaid := Some {| web3 := Promised 0 (Fulfilled s) |};
     script_fate := fun _ => fate;
     update_throws := fun _ => None |}.

Definition mainnet : Web3OnboardingOptions := {| chain := "0x1"; opt_rest := 0 |}.

(** A new connector on a new page without script elements. *)
Definition world0 : World := fresh_world true [] mainnet false.

(** The wallet of the spec's scenario: one account, chain "0x1". *)
Definition good_wallet : Provider :=
  wallet (Promised 0 (Fulfilled ["0xabc"]))
         (Promised 1 (Fulfilled (CString "0x1")))
         (Promised 0 (Fulfilled (VBool true))).

(** A wallet that hangs on [eth_accounts] pending user interaction, and
    answers [eth_chainId] at once. *)
Definition hanging_wallet : Provider :=
  wallet (Promised 0 Pending)
         (Promised 0 (Fulfilled (CString "0x1")))
         (Promised 0 (Fulfilled (VBool true))).

(** A wallet without accounts whose [eth_chainId] request is rejected. *)
Definition failing_chain_wallet : Provider :=
  wallet (Promised 0 (Fulfilled []))
         (Promised 1 (Rejected (Foreign 4)))
         (Promised 0 (Fulfilled (VBool true))).

(** A wallet without accounts that answers [eth_chainId]. *)
Definition empty_wallet : Provider :=
  wallet (Promised 0 (Fulfilled []))
         (Promised 1 (Fulfilled (CString "0x1")))
         (Promised 0 (Fulfilled (VBool true))).

End Scenario.

(* ===================================================================== *)
(** ** useScript: the React hook on top of the loader                      *)
(* ===================================================================== *)

Module Hook.

Import Loader.

(** The props the hook reads: [{ src, checkForExisting = false }]. *)
Record ScriptProps := { p_src : option string; p_checkForExisting : bool }.

(** What React keeps for a mounted component between renders: the two
    state cells of [useState] and the dependency list [[src]] of the effect
    as of the last render. *)
Record Mounted := {
  h_loading : bool;
  h_error : option ErrorEvent;
  h_src : option string;
}.

(** [Object.is] on the one dependency. *)
Definition same_src (a b : option string) : bool :=
  match a, b with
  | Some x, Some y => String.eqb x y
  | None, None => true
  | _, _ => false
  end.

(** One render of [useScript] and the effect that follows it.  [cb] stands
    for the closure this render passes to [loadScript]; [m] is [None] on the
    first render.  [loadScript] is called on every render, deferred;
    [useState] takes its initial value (from the snapshot, which is an
    object and so truthy) on the first render only; the effect, [load &&
    load()], runs after the first render and after a render in which [src]
    differs from the previous one. *)
Definition useScript (props : ScriptProps) (cb : CallbackId)
    (m : option Mounted) (p : Page)
  : (bool * option ErrorEvent) * Mounted * Page :=
  let '((status, trigger), p1) :=
    loadScript {| src := p_src props;
                  checkForExisting := p_checkForExisting props;
                  loadImmediate := false |} (Some cb) p in
  let loading := match m with
                 | Some h => h_loading h
                 | None => snap_loading status
                 end in
  let error := match m with
               | Some h => h_error h
               | None => snap_error status
               end in
  let effect := match m with
                | Some h => negb (same_src (h_src h) (p_src props))
                | None => true
                end in
  let p2 := if effect then
              match trigger with
              | Some c => loader c p1
              | None => p1
              end
            else p1 in
  ((loading, error),
   {| h_loading := loading; h_error := error; h_src := p_src props |},
   p2).



End Hook.

(* ===================================================================== *)
(** ** Facts about the loader                                              *)
(* ===================================================================== *)

Section LoaderFacts.

Import Loader.

Lemma count_le_1_of_NoDup (u : string) (l : list Element) :
  NoDup (map el_src l) ->
  (length (List.filter (fun e => String.eqb (el_src e) u) l) <= 1)%nat.
Proof.
  induction l as [|e l IH]; simpl; intros Hnd; [lia|].
  apply NoDup_cons in Hnd as [Hnotin Hnd].
  destruct (String.eqb (el_src e) u) eqn:E; [|auto].
  apply String.eqb_eq in E. simpl.
  assert (List.filter (fun e0 => String.eqb (el_src e0) u) l = []) as ->; [|simpl; lia].
  clear IH Hnd. induction l as [|e' l IH]; simpl; [reflexivity|].
  destruct (String.eqb (el_src e') u) eqn:E'.
  - apply String.eqb_eq in E'. exfalso. apply Hnotin.
    simpl. rewrite E, E'. left.
  - apply IH. intros Hin. apply Hnotin. simpl. right. exact Hin.
Qed.

Lemma created_registered_le_1 (p : Page) (u : string) :
  created_registered p -> (created_for u p <= 1)%nat.
Proof. intros [Hnd _]. apply count_le_1_of_NoDup, Hnd. Qed.

(** A step that creates nothing and forgets no registry key keeps the
    invariant. *)
Lemma created_registered_mono (p p' : Page) :
  created p' = created p ->
  (forall u, is_Some (scripts p !! u) -> is_Some (scripts p' !! u)) ->
  created_registered p -> created_registered p'.
Proof.
  intros Hc Hs [Hnd Hreg]. split; rewrite Hc; [exact Hnd|].
  intros e He. apply Hs, Hreg, He.
Qed.

Lemma checkExisting_created (u : string) (p : Page) :
  created (snd (checkExisting u p)) = created p.
Proof. unfold checkExisting. destruct (querySelector u p); reflexivity. Qed.

Lemma checkExisting_scripts (u : string) (p : Page) (v : string) :
  is_Some (scripts p !! v) -> is_Some (scripts (snd (checkExisting u p)) !! v).
Proof.
  unfold checkExisting. destruct (querySelector u p); simpl; [|auto].
  intros H. rewrite lookup_insert. case_decide; [eauto|exact H].
Qed.

Lemma checkExisting_None (u : string) (p : Page) :
  fst (checkExisting u p) = None -> snd (checkExisting u p) = p.
Proof. unfold checkExisting. destruct (querySelector u p); [discriminate|reflexivity]. Qed.

Lemma checkExisting_registered (u : string) (p : Page) :
  created_registered p -> created_registered (snd (checkExisting u p)).
Proof.
  apply created_registered_mono;
    [apply checkExisting_created | apply checkExisting_scripts].
Qed.

(** Creating an element for a URL without a registry entry, and entering
    it in the registry, keeps the invariant. *)
Lemma create_registered (u : string) (p : Page) :
  scripts p !! u = None ->
  created_registered p ->
  created_registered
    (set_scripts
       (<[u := {| loading := true; error := None;
                  scriptEl := fst (createElement u p) |}]>
          (scripts (snd (createElement u p))))
       (snd (createElement u p))).
Proof.
  intros Hnone [Hnd Hreg]. split; simpl.
  - rewrite map_app. simpl. apply NoDup_app. repeat split.
    + exact Hnd.
    + intros v Hv Hv'. apply list_elem_of_In in Hv, Hv'.
      simpl in Hv'. destruct Hv' as [<-|[]].
      apply in_map_iff in Hv as [e [He Hin]].
      apply Hreg in Hin. rewrite He, Hnone in Hin. destruct Hin; discriminate.
    + apply NoDup_singleton.
  - intros e He. apply in_app_or in He as [He|[<-|[]]].
    + rewrite lookup_insert. case_decide; [eauto|apply Hreg, He].
    + simpl. rewrite lookup_insert_eq. eauto.
Qed.

Lemma loader_registered (c : Closure) (p : Page) :
  created_registered p -> created_registered (loader c p).
Proof.
  intros Hinv. unfold loader.
  destruct (truthy_src (c_src c)) as [u|]; [|exact Hinv].
  destruct (c_error c); [exact Hinv|].
  destruct (isBrowser p); simpl; [|exact Hinv].
  destruct (scripts p !! u) as [st|] eqn:Hst.
  - revert Hinv. apply created_registered_mono; simpl; auto.
  - destruct (c_checkForExisting c).
    + pose proof (checkExisting_registered u p Hinv) as Hinv'.
      pose proof (checkExisting_None u p) as Hnone.
      destruct (checkExisting u p) as [[st|] p1]; simpl in *.
      * revert Hinv'. apply created_registered_mono; simpl; auto.
      * rewrite (Hnone eq_refl) in *.
        pose proof (create_registered u p Hst Hinv) as Hnew.
        revert Hnew. apply created_registered_mono; simpl; auto.
    + pose proof (create_registered u p Hst Hinv) as Hnew.
      revert Hnew. apply created_registered_mono; simpl; auto.
Qed.

Lemma loadScript_registered (params : Params) (cb : option CallbackId) (p : Page) :
  created_registered p -> created_registered (snd (loadScript params cb p)).
Proof.
  intros Hinv. unfold loadScript.
  match goal with
  | |- context [let '(_, _) := ?q in _] => destruct q as [status p0] eqn:E
  end.
  assert (created_registered p0) as Hp0.
  { destruct (truthy_src (src params)) as [u|].
    - destruct (scripts p !! u); [by inversion E; subst|].
      destruct (checkForExisting params && isBrowser p).
      + pose proof (checkExisting_registered u p Hinv) as H.
        rewrite E in H. exact H.
      + by inversion E; subst.
    - by inversion E; subst. }
  destruct (loadImmediate params); simpl; [apply loader_registered|]; exact Hp0.
Qed.

Lemma run_listener_registered (l : Listener) (err : option ErrorEvent) (p : Page) :
  created_registered p -> created_registered (fst (run_listener l err p)).
Proof.
  unfold run_listener. simpl. destruct (l_type l); [|auto].
  apply created_registered_mono; simpl; [reflexivity|].
  intros u [st Hst]. rewrite lookup_alter. case_decide; subst; rewrite Hst; simpl; eauto.
Qed.

Lemma dispatch_fold_registered (target : nat) (d : DomEvent)
    (ls : list Listener) (acc : Page * list (CallbackId * Snapshot)) :
  created_registered (fst acc) ->
  created_registered (fst (fold_left (dispatch_step target d) ls acc)).
Proof.
  revert acc. induction ls as [|l ls IH]; intros acc Hacc; simpl; [exact Hacc|].
  apply IH. unfold dispatch_step. destruct (listens target d l); [|exact Hacc].
  pose proof (run_listener_registered l
    (match d with Failed ev => Some ev | Loaded => None end) (fst acc) Hacc) as H.
  destruct (run_listener l _ (fst acc)) as [q' calls']. exact H.
Qed.

Lemma dispatchEvent_registered (target : nat) (d : DomEvent) (p : Page) :
  created_registered p -> created_registered (fst (dispatchEvent target d p)).
Proof. intros H. apply dispatch_fold_registered, H. Qed.

Lemma step_registered (s : Session) (o : Op) :
  created_registered (page s) -> created_registered (page (step s o)).
Proof.
  intros Hinv. destruct o as [params cb|i|target d|u]; simpl.
  - pose proof (loadScript_registered params cb (page s) Hinv) as H.
    destruct (loadScript params cb (page s)) as [[snap trigger] p']. exact H.
  - destruct (triggers s !! i); simpl; [apply loader_registered|]; exact Hinv.
  - apply dispatchEvent_registered, Hinv.
  - revert Hinv. apply created_registered_mono; simpl; auto.
Qed.

Lemma run_registered (ops : list Op) (s : Session) :
  created_registered (page s) -> created_registered (page (run ops s)).
Proof.
  revert s. induction ops as [|o ops IH]; intros s Hinv; simpl; [exact Hinv|].
  apply IH, step_registered, Hinv.
Qed.

Lemma initial_page_registered (browser : bool) (existing : list string) :
  created_registered (initial_page browser existing).
Proof. split; simpl; [apply NoDup_nil_2|intros e []]. Qed.

(** C4. During the whole life of a page (any sequence of [loadScript]
    calls, invocations of the deferred triggers handed out, events of the
    script elements, and script elements inserted by other code), the
    module creates at most one script element per URL; in particular two
    calls for the same URL with [checkForExisting = false], immediate or
    deferred and whenever the triggers are invoked, do not create two. *)
Theorem at_most_one_element_per_url :
  (forall (browser : bool) (existing : list string) (ops : list Op) (u : string),
     (created_for u
        (page (run ops {| page := initial_page browser existing;
                          triggers := [] |})) <= 1)%nat) /\
  (forall (browser : bool) (existing : list string) (u : string)
          (immediate1 immediate2 : bool) (cb1 cb2 : option CallbackId)
          (later : list Op),
     (created_for u
        (page (run
           (CallLoadScript {| src := Some u; checkForExisting := false;
                              loadImmediate := immediate1 |} cb1
            :: CallLoadScript {| src := Some u; checkForExisting := false;
                                 loadImmediate := immediate2 |} cb2
            :: later)
           {| page := initial_page browser existing; triggers := [] |}))
      <= 1)%nat).
Proof.
  assert (forall browser existing ops u,
    (created_for u
       (page (run ops {| page := initial_page browser existing;
                         triggers := [] |})) <= 1)%nat) as H.
  { intros browser existing ops u.
    apply created_registered_le_1, run_registered. simpl.
    apply initial_page_registered. }
  split; [exact H|]. intros. apply H.
Qed.

(** Adoption.  When the document already has a script element for a
    (non-empty) URL the registry does not know, a call with
    [checkForExisting = true] enters that element in the registry as loaded,
    creates nothing and puts no new element into the document; the snapshot
    it returns nevertheless says [loading: true], because
    [status?.loading || Boolean(src)] is [true] for every non-empty [src]. *)
Lemma loadScript_adopts_existing (u : string) (p : Page) (existing : Element)
    (immediate : bool) (cb : option CallbackId) :
  u <> EmptyString ->
  isBrowser p = true ->
  scripts p !! u = None ->
  querySelector u p = Some existing ->
  let r := loadScript {| src := Some u; checkForExisting := true;
                         loadImmediate := immediate |} cb p in
  fst (fst r) = {| snap_loading := true; snap_error := None |} /\
  created (snd r) = created p /\
  next_elem (snd r) = next_elem p /\
  scripts (snd r) !! u
    = Some {| loading := false; error := None; scriptEl := existing |} /\
  (forall e, In e (document (snd r)) -> In e (document p)).
Proof.
  intros Hu Hb Hnone Hq.
  assert (In existing (document p)) as Hin.
  { unfold querySelector in Hq. apply find_some in Hq. apply Hq. }
  assert (truthy_src (Some u) = Some u) as Ht by (destruct u; [congruence|reflexivity]).
  unfold loadScript. cbn [src checkForExisting loadImmediate].
  rewrite Ht, Hnone, Hb. cbn [andb].
  unfold checkExisting. rewrite Hq. cbn [loading error].
  destruct immediate; cbn [fst snd].
  - unfold loader. cbn [c_src c_error c_checkForExisting c_callback].
    rewrite Ht. simpl. rewrite Hb. simpl.
    rewrite lookup_insert_eq. simpl.
    rewrite lookup_insert_eq. repeat split; try reflexivity.
    intros e He. apply in_app_or in He as [He|[<-|[]]]; [|exact Hin].
    apply filter_In in He. apply He.
  - simpl. rewrite lookup_insert_eq. repeat split; try reflexivity. auto.
Qed.

(** C3, evaluated.  The onboarding script is already in the document and
    the loader is called as [isomorphicInitialize] calls it
    ([checkForExisting: true]): the element is adopted (registry entry
    [{loading: false, error: null}] on the existing node 0), nothing is
    created and the document still holds that one node, but the snapshot
    returned says [{loading: true, error: null}], not [loading: false]. *)
Theorem adopted_script_snapshot_says_loading :
  let p := initial_page true [Connector.PLAID_LINK_STABLE_URL] in
  let r := loadScript {| src := Some Connector.PLAID_LINK_STABLE_URL;
                         checkForExisting := true;
                         loadImmediate := true |} None p in
  fst (fst r) = {| snap_loading := true; snap_error := None |} /\
  fst (fst r) <> {| snap_loading := false; snap_error := None |} /\
  created (snd r) = [] /\
  document (snd r)
    = [{| el_id := 0; el_src := Connector.PLAID_LINK_STABLE_URL |}] /\
  scripts (snd r) !! Connector.PLAID_LINK_STABLE_URL
    = Some {| loading := false; error := None;
              scriptEl := {| el_id := 0;
                             el_src := Connector.PLAID_LINK_STABLE_URL |} |}.
Proof.
  vm_compute. repeat split; try reflexivity. discriminate.
Qed.

End LoaderFacts.

(* ===================================================================== *)
(** ** Facts about chain identifiers                                       *)
(* ===================================================================== *)

Section ChainIdFacts.

Import JS.

Local Open Scope Z_scope.

Lemma digit_cases (d : Z) :
  0 <= d < 16 ->
  d = 0 \/ d = 1 \/ d = 2 \/ d = 3 \/ d = 4 \/ d = 5 \/ d = 6 \/ d = 7 \/
  d = 8 \/ d = 9 \/ d = 10 \/ d = 11 \/ d = 12 \/ d = 13 \/ d = 14 \/ d = 15.
Proof. lia. Qed.

Ltac each_digit d H :=
  apply digit_cases in H;
  repeat (destruct H as [H|H]; [subst d|]); [..|subst d].

Lemma digit_value_digit_char (d : Z) :
  0 <= d < 16 -> digit_value (digit_char d) = Some d.
Proof. intros H. each_digit d H; reflexivity. Qed.

Lemma digit_char_not_space (d : Z) :
  0 <= d < 16 -> is_white_space (digit_char d) = false.
Proof. intros H. each_digit d H; reflexivity. Qed.

Lemma digits_prefix_numeral (R : Z) (ds : list Z) :
  Forall (fun d => 0 <= d < 16 /\ d < R) ds ->
  digits_prefix R (numeral ds) = ds.
Proof.
  induction 1 as [|d ds [Hd HR] _ IH]; simpl; [reflexivity|].
  rewrite digit_value_digit_char by exact Hd.
  apply Z.ltb_lt in HR. rewrite HR, IH. reflexivity.
Qed.

(** A numeral is read as it is: no white space, no sign, and no "0x" in
    front (the letter x is not a digit). *)
Lemma numeral_head (d : Z) (rest : string) :
  0 <= d < 16 ->
  trim_start (String (digit_char d) rest) = String (digit_char d) rest /\
  sign_of (String (digit_char d) rest) = 1 /\
  drop_sign (String (digit_char d) rest) = String (digit_char d) rest.
Proof.
  intros H. split; [|split].
  - simpl. rewrite digit_char_not_space by exact H. reflexivity.
  - each_digit d H; reflexivity.
  - each_digit d H; reflexivity.
Qed.

Lemma numeral_not_0x (ds : list Z) :
  Forall (fun d => 0 <= d < 16) ds -> startsWith (numeral ds) "0x" = false.
Proof.
  intros H. destruct H as [|d ds Hd Hds]; [reflexivity|].
  destruct Hds as [|d' ds' Hd' _].
  - each_digit d Hd; reflexivity.
  - each_digit d Hd; try reflexivity.
    each_digit d' Hd'; reflexivity.
Qed.

Lemma math_int_nonneg (R : Z) (ds : list Z) :
  0 <= R -> Forall (fun d => 0 <= d) ds -> 0 <= math_int R ds.
Proof.
  intros HR Hds. unfold math_int.
  assert (forall acc, 0 <= acc ->
            0 <= fold_left (fun acc d => acc * R + d) ds acc) as H.
  { induction Hds as [|d ds Hd _ IH]; intros acc Hacc; simpl; [exact Hacc|].
    apply IH. nia. }
  apply H. lia.
Qed.

(** Below 2^53 every integer is a double. *)
Lemma of_integer_exact (z : Z) : 0 <= z < 2 ^ 53 -> of_integer z = Num z.
Proof.
  intros [H0 H53]. unfold of_integer.
  rewrite Z.abs_eq by exact H0.
  assert (round_to_53_bits z = z) as ->.
  { unfold round_to_53_bits.
    assert (Z.log2 z - 52 <= 0) as He.
    { destruct (Z.eq_dec z 0) as [->|Hz]; [simpl; lia|].
      assert (Z.log2 z < 53) by (apply Z.log2_lt_pow2; lia). lia. }
    apply Z.leb_le in He. rewrite He. reflexivity. }
  assert (2 ^ 53 < 2 ^ 1024) as Hlt by reflexivity.
  assert ((2 ^ 1024 <=? z) = false) as -> by (apply Z.leb_gt; lia).
  f_equal. destruct (Z.eq_dec z 0) as [->|Hz]; [reflexivity|].
  rewrite Z.sgn_pos by lia. lia.
Qed.

Lemma parseInt_numeral_10 (ds : list Z) :
  ds <> [] -> Forall (fun d => 0 <= d < 10) ds ->
  parseInt (numeral ds) 10 = of_integer (math_int 10 ds).
Proof.
  intros Hne Hds.
  assert (digits_prefix 10 (numeral ds) = ds) as Hp.
  { apply digits_prefix_numeral. eapply Forall_impl; [exact Hds|].
    simpl. intros d Hd. lia. }
  destruct ds as [|d ds]; [congruence|].
  assert (0 <= d < 16) as Hd by (inversion Hds; subst; lia).
  destruct (numeral_head d (numeral ds) Hd) as (Ht & Hsign & Hstrip).
  unfold parseInt. change (numeral (d :: ds)) with (String (digit_char d) (numeral ds)) in *.
  rewrite Ht, Hsign, Hstrip. change (to_int32 10) with 10.
  change (negb (10 =? 0) && ((10 <? 2) || (36 <? 10))) with false.
  change ((10 =? 0) || (10 =? 16)) with false. cbv iota.
  change (10 =? 0) with false. cbv iota beta zeta.
  rewrite Hp. f_equal. lia.
Qed.

Lemma parseInt_0x_numeral_16 (ds : list Z) :
  ds <> [] -> Forall (fun d => 0 <= d < 16) ds ->
  parseInt ("0x" +:+ numeral ds) 16 = of_integer (math_int 16 ds).
Proof.
  intros Hne Hds.
  assert (digits_prefix 16 (numeral ds) = ds) as Hp.
  { apply digits_prefix_numeral. eapply Forall_impl; [exact Hds|].
    simpl. intros d Hd. lia. }
  unfold parseInt.
  change (trim_start ("0x" +:+ numeral ds)) with (String "0" (String "x" (numeral ds))).
  change (sign_of (String "0" (String "x" (numeral ds)))) with 1.
  change (drop_sign (String "0" (String "x" (numeral ds))))
    with (String "0" (String "x" (numeral ds))).
  change (to_int32 16) with 16.
  change (negb (16 =? 0) && ((16 <? 2) || (36 <? 16))) with false.
  change ((16 =? 0) || (16 =? 16)) with true. cbv iota.
  change (drop_0x (String "0" (String "x" (numeral ds)))) with (Some (numeral ds)).
  cbv iota beta zeta. rewrite Hp.
  destruct ds as [|d ds]; [congruence|]. f_equal. lia.
Qed.

(** C8. [parseChainId] returns a number unchanged, reads a string that
    begins with "0x" with radix 16 and any other string with radix 10: a
    hexadecimal numeral after "0x" yields the Number value of the integer
    its digits denote in base 16, a decimal numeral that of the integer its
    digits denote in base 10; the Number value is the integer itself when
    it is below 2^53, and the nearest double beyond;
    and "0x1" gives 1, "10" gives 10, the number 5 gives 5. *)
Theorem parseChainId_radix :
  (forall n : number, parseChainId (CNumber n) = n) /\
  (forall s : string,
      startsWith s "0x" = true ->
      parseChainId (CString s) = parseInt s 16) /\
  (forall s : string,
      startsWith s "0x" = false ->
      parseChainId (CString s) = parseInt s 10) /\
  (forall ds : list Z,
      ds <> [] -> Forall (fun d => 0 <= d < 16) ds ->
      parseChainId (CString ("0x" +:+ numeral ds))
      = of_integer (math_int 16 ds) /\
      (math_int 16 ds < 2 ^ 53 ->
       parseChainId (CString ("0x" +:+ numeral ds)) = Num (math_int 16 ds))) /\
  (forall ds : list Z,
      ds <> [] -> Forall (fun d => 0 <= d < 10) ds ->
      parseChainId (CString (numeral ds)) = of_integer (math_int 10 ds) /\
      (math_int 10 ds < 2 ^ 53 ->
       parseChainId (CString (numeral ds)) = Num (math_int 10 ds))) /\
  parseChainId (CString "0x1") = Num 1 /\
  parseChainId (CString "10") = Num 10 /\
  parseChainId (CNumber (Num 5)) = Num 5.
Proof.
  split; [reflexivity|].
  split; [intros s Hs; simpl; rewrite Hs; reflexivity|].
  split; [intros s Hs; simpl; rewrite Hs; reflexivity|].
  split; [|split; [|repeat split; reflexivity]].
  - intros ds Hne Hds.
    assert (parseChainId (CString ("0x" +:+ numeral ds))
            = of_integer (math_int 16 ds)) as E.
    { unfold parseChainId.
      assert (startsWith ("0x" +:+ numeral ds) "0x" = true) as ->
        by (destruct ds; [congruence|reflexivity]).
      apply parseInt_0x_numeral_16; assumption. }
    split; [exact E|].
    intros Hlt. rewrite E. apply of_integer_exact. split; [|exact Hlt].
    apply math_int_nonneg; [lia|].
    eapply Forall_impl; [exact Hds|]. simpl. intros d Hd. lia.
  - intros ds Hne Hds.
    assert (parseChainId (CString (numeral ds))
            = of_integer (math_int 10 ds)) as E.
    { unfold parseChainId. rewrite numeral_not_0x.
      + apply parseInt_numeral_10; assumption.
      + eapply Forall_impl; [exact Hds|]. simpl. intros d Hd. lia. }
    split; [exact E|].
    intros Hlt. rewrite E. apply of_integer_exact. split; [|exact Hlt].
    apply math_int_nonneg; [lia|].
    eapply Forall_impl; [exact Hds|]. simpl. intros d Hd. lia.
Qed.

(** The readings of "0x89", "0X1F" (not a "0x" prefix: decimal, which
    stops at the X), "0xff", "137", and of 2^53 + 1 written in decimal,
    which is not a double. *)
Lemma parseChainId_radix_witness :
  parseChainId (CString "0x89") = parseInt "0x89" 16 /\
  parseChainId (CString "0X1F") = parseInt "0X1F" 10 /\
  parseChainId (CString "0xff") = Num 255 /\
  parseChainId (CString "137") = Num 137 /\
  parseChainId (CString "9007199254740993") = Num 9007199254740992.
Proof.
  destruct parseChainId_radix as (_ & Hhex & Hdec & Hhexnum & Hdecnum & _).
  split; [|split; [|split; [|split]]].
  - apply (Hhex "0x89"). reflexivity.
  - apply (Hdec "0X1F"). reflexivity.
  - apply (Hhexnum [15; 15]); [discriminate| |reflexivity].
    repeat constructor; lia.
  - apply (Hdecnum [1; 3; 7]); [discriminate| |reflexivity].
    repeat constructor; lia.
  - exact (proj1 (Hdecnum [9; 0; 0; 7; 1; 9; 9; 2; 5; 4; 7; 4; 0; 9; 9; 3]
                    ltac:(discriminate) ltac:(repeat constructor; lia))).
Defined.

Example parseChainId_upper_prefix : parseChainId (CString "0X1F") = Num 0.
Proof. reflexivity. Qed.

Example parseChainId_not_a_number : parseChainId (CString "mainnet") = NaN.
Proof. reflexivity. Qed.

Example parseChainId_trailing : parseChainId (CString "137abc") = Num 137.
Proof. reflexivity. Qed.

Example parseChainId_negative : parseChainId (CString " -42") = Num (-42).
Proof. reflexivity. Qed.

End ChainIdFacts.

(* ===================================================================== *)
(** ** Facts about the connector                                           *)
(* ===================================================================== *)

Section ConnectorFacts.

Import Loader Connector.

(** An event that differs from every member of an explicit log is not in
    it. *)
Ltac not_in_log H :=
  simpl in H; repeat (destruct H as [H|H]; [discriminate H|]); destruct H.

Lemma bind_run {A B} (m : Sync A) (k : A -> Sync B) (w : World)
    (a : A) (w1 : World) (t1 : list Event) :
  m w = (Normal a, w1, t1) ->
  bind m k w = (let '(r, w2, t2) := k a w1 in (r, w2, t1 ++ t2)).
Proof. unfold bind. intros ->. reflexivity. Qed.

(** *** Promise chains never throw *)

Lemma new_Promise_normal {A} (executor : Sync (Promise A)) (w : World) :
  exists p w' t, new_Promise executor w = (Normal p, w', t).
Proof.
  unfold new_Promise. destruct (executor w) as [[[p|e] w'] t]; eauto.
Qed.

Lemma then_normal {A B} (p : Promise A) (f : A -> Sync (Promise B)) (w : World) :
  exists q w' t, then_ p f w = (Normal q, w', t).
Proof.
  destruct p; simpl; [apply new_Promise_normal|unfold ret; eauto..].
Qed.

(** [p.catch(error => { cancelActivation(); throw error })]: a rejected
    promise stays rejected with the same reason, after the cancellation;
    any other promise passes through untouched. *)
Lemma catch_cancel (p : Promise unit) (w : World) :
  catch_ p (fun error => call CancelActivation ;;; throw error) w
  = match p with
    | Rejected e => (Normal (Rejected e), w, [CancelActivation])
    | _ => (Normal p, w, [])
    end.
Proof. destruct p; reflexivity. Qed.

Lemma isomorphicInitialize_normal (env : Env) (w : World) :
  exists p w' t, isomorphicInitialize env w = (Normal p, w', t).
Proof.
  unfold isomorphicInitialize, bind, get. simpl.
  destruct (eagerConnection (this w)); [unfold ret; eauto|].
  destruct (new_Promise_normal (load_executor env) w) as (p0 & w0 & t0 & E0).
  rewrite E0.
  match goal with
  | |- context [then_ p0 ?f w0] =>
      destruct (then_normal p0 f w0) as (p1 & w1 & t1 & E1); rewrite E1
  end.
  match goal with
  | |- context [then_ p1 ?f w1] =>
      destruct (then_normal p1 f w1) as (p2 & w2 & t2 & E2); rewrite E2
  end.
  simpl. eauto.
Qed.

(** The shape of a run of [activate] and of [connectEagerly]: the
    activation starts, the chain between [startActivation] and [catch]
    yields some promise [p] after the calls [mid], and the final [catch]
    decides. *)
Lemma activate_shape (env : Env) (w : World) :
  exists (p : Promise unit) (w' : World) (mid : list Event),
    activate env w
    = match p with
      | Rejected e =>
          (Normal (Rejected e), w', StartActivation :: mid ++ [CancelActivation])
      | _ => (Normal p, w', StartActivation :: mid)
      end.
Proof.
  unfold activate, bind at 1. simpl.
  unfold bind at 1.
  destruct (isomorphicInitialize_normal env w) as (p0 & w0 & t0 & E0). rewrite E0.
  unfold bind at 1.
  match goal with
  | |- context [then_ p0 ?f w0] =>
      destruct (then_normal p0 f w0) as (p1 & w1 & t1 & E1); rewrite E1
  end.
  unfold bind at 1.
  match goal with
  | |- context [then_ p1 ?f w1] =>
      destruct (then_normal p1 f w1) as (p2 & w2 & t2 & E2); rewrite E2
  end.
  rewrite catch_cancel.
  exists p2, w2, (t0 ++ t1 ++ t2).
  destruct p2; simpl; rewrite ?app_nil_r, <- ?app_assoc; reflexivity.
Qed.

Lemma connectEagerly_shape (env : Env) (w : World) :
  exists (p : Promise unit) (w' : World) (mid : list Event),
    connectEagerly env w
    = match p with
      | Rejected e =>
          (Normal (Rejected e), w', StartActivation :: mid ++ [CancelActivation])
      | _ => (Normal p, w', StartActivation :: mid)
      end.
Proof.
  unfold connectEagerly, bind at 1. simpl.
  unfold bind at 1.
  destruct (isomorphicInitialize_normal env w) as (p0 & w0 & t0 & E0). rewrite E0.
  unfold bind at 1.
  match goal with
  | |- context [then_ p0 ?f w0] =>
      destruct (then_normal p0 f w0) as (p1 & w1 & t1 & E1); rewrite E1
  end.
  unfold bind at 1.
  match goal with
  | |- context [then_ p1 ?f w1] =>
      destruct (then_normal p1 f w1) as (p2 & w2 & t2 & E2); rewrite E2
  end.
  unfold bind at 1.
  match goal with
  | |- context [then_ p2 ?f w2] =>
      destruct (then_normal p2 f w2) as (p3 & w3 & t3 & E3); rewrite E3
  end.
  rewrite catch_cancel.
  exists p3, w3, (t0 ++ t1 ++ t2 ++ t3).
  destruct p3; simpl; rewrite ?app_nil_r, <- ?app_assoc; reflexivity.
Qed.

(** *** Initialization *)

Lemma load_executor_silent (env : Env) (w : World) :
  snd (load_executor env w) = [].
Proof.
  unfold load_executor.
  destruct (loadScript _ _ (page w)) as [r page1].
  destruct (List.find _ (listeners page1)) as [l|]; [|reflexivity].
  destruct (script_fate env (l_target l)); [| |reflexivity].
  - destruct (dispatchEvent (l_target l) Loaded page1). reflexivity.
  - destruct (dispatchEvent (l_target l) (Failed ev) page1). reflexivity.
Qed.

(** Initialization calls the SDK factory at most, and nothing else. *)
Lemma isomorphicInitialize_events (env : Env) (w : World) r w' t :
  isomorphicInitialize env w = (r, w', t) -> t = [] \/ t = [Web3Factory].
Proof.
  unfold isomorphicInitialize, bind at 1, get.
  destruct (eagerConnection (this w)); [intros [= <- <- <-]; left; reflexivity|].
  unfold bind at 1, new_Promise at 1.
  pose proof (load_executor_silent env w) as Hsilent.
  destruct (load_executor env w) as [[[p0|e0] w0] t0]; simpl in Hsilent; subst t0.
  - destruct p0 as [[]|e|]; simpl.
    + destruct (window_Plaid env) as [plaid|]; simpl.
      * destruct (web3 plaid) as [e|tick [sdk|e|]]; simpl;
          intros [= <- <- <-]; right; reflexivity.
      * intros [= <- <- <-]; left; reflexivity.
    + intros [= <- <- <-]; left; reflexivity.
    + intros [= <- <- <-]; left; reflexivity.
  - simpl. intros [= <- <- <-]; left; reflexivity.
Qed.

(** C2, as the code has it.  The first call of [isomorphicInitialize] on a
    connector stores the promise it returns in [eagerConnection].  Every
    later call leaves the world as it is (no [loadScript], no SDK factory, the
    stored promise untouched) and returns a promise that is already
    fulfilled, whatever the stored promise is or becomes. *)
Theorem initialize_runs_once (env : Env) (w : World) :
  (eagerConnection (this w) = None ->
   exists p w' t,
     isomorphicInitialize env w = (Normal p, w', t) /\
     eagerConnection (this w') = Some p) /\
  (forall first : Promise unit,
     eagerConnection (this w) = Some first ->
     isomorphicInitialize env w = (Normal (Fulfilled tt), w, [])).
Proof.
  split.
  - intros Hnone. unfold isomorphicInitialize, bind at 1, get. rewrite Hnone.
    unfold bind at 1.
    destruct (new_Promise_normal (load_executor env) w) as (p0 & w0 & t0 & E0).
    rewrite E0. unfold bind at 1.
    match goal with
    | |- context [then_ p0 ?f w0] =>
        destruct (then_normal p0 f w0) as (p1 & w1 & t1 & E1); rewrite E1
    end.
    unfold bind at 1.
    match goal with
    | |- context [then_ p1 ?f w1] =>
        destruct (then_normal p1 f w1) as (p2 & w2 & t2 & E2); rewrite E2
    end.
    simpl. eauto.
  - intros first Hsome. unfold isomorphicInitialize, bind, get. rewrite Hsome.
    reflexivity.
Qed.

(** A new connector: the first call stores its promise.  A connector
    whose first initialization was rejected (the script failed to load): the
    second call answers with a fulfilled promise. *)
Lemma initialize_runs_once_witness :
  let env := Scenario.browser_env (FiresError 7) (Scenario.sdk NoCallback None) in
  let w1 := snd (fst (isomorphicInitialize env Scenario.world0)) in
  (exists p w' t,
      isomorphicInitialize env Scenario.world0 = (Normal p, w', t) /\
      eagerConnection (this w') = Some p) /\
  eagerConnection (this w1) = Some (Rejected (ScriptFailed 7)) /\
  isomorphicInitialize env w1 = (Normal (Fulfilled tt), w1, []).
Proof.
  intros env w1.
  assert (eagerConnection (this w1) = Some (Rejected (ScriptFailed 7))) as H
    by (vm_compute; reflexivity).
  split; [|split; [exact H|]].
  - apply (proj1 (initialize_runs_once env Scenario.world0)). reflexivity.
  - exact (proj2 (initialize_runs_once env w1) (Rejected (ScriptFailed 7)) H).
Defined.

(** C2, as stated, fails.  The script fails to load, so the first
    initialization future is rejected; the next call of
    [isomorphicInitialize] on the same connector returns a fulfilled
    promise: it does not await the outcome of the first future. *)
Lemma later_initialize_differs_from_first :
  let env := Scenario.browser_env (FiresError 7) (Scenario.sdk NoCallback None) in
  let r1 := isomorphicInitialize env Scenario.world0 in
  let r2 := isomorphicInitialize env (snd (fst r1)) in
  fst (fst r1) = Normal (Rejected (ScriptFailed 7)) /\
  eagerConnection (this (snd (fst r1))) = Some (Rejected (ScriptFailed 7)) /\
  fst (fst r2) = Normal (Fulfilled tt) /\
  fst (fst r2) <> fst (fst r1).
Proof.
  vm_compute. repeat split; try reflexivity. discriminate.
Qed.

(** *** Wiring and the two queries *)

(** [setProvider] on a provider that accepts the four subscriptions. *)
Lemma setProvider_accepted (prov : Provider) (w : World) :
  (forall name, prov_on prov name = None) ->
  setProvider prov w
  = (Normal tt, wire prov w,
     [On (provider_id prov) connect; On (provider_id prov) disconnect;
      On (provider_id prov) chainChanged; On (provider_id prov) accountsChanged]).
Proof.
  intros Hon. unfold setProvider, on, bind, modify, call.
  rewrite !Hon. reflexivity.
Qed.

(** The two queries leave the connector as it is, and when the call for
    the accounts returns a promise, whatever becomes of that promise, the
    call for the chain identifier is the very next call. *)
Lemma requestAccountsAndChainId_sends_both (env : Env) (prov : Provider)
    (w : World) (ta : nat) (fa : Promise (list string)) :
  prov_request prov eth_accounts = Promised ta fa ->
  exists r rest,
    requestAccountsAndChainId env prov w
    = (r, w, RequestSent (provider_id prov) eth_accounts
             :: RequestSent (provider_id prov) eth_chainId :: rest).
Proof.
  intros Ha. unfold requestAccountsAndChainId, request, invoke, bind, call.
  rewrite Ha. simpl.
  destruct (prov_request prov eth_chainId) as [e|tc fc]; simpl; [eauto|].
  destruct fa as [accounts|ea|], fc as [c|ec|]; simpl; unfold ret; eauto.
  - unfold new_Promise, throw, update, bind, call, ret.
    destruct (length accounts =? 0)%nat; [eauto|].
    destruct (update_throws env _); simpl; eauto.
  - unfold Promise_all. simpl. destruct (ta <=? tc)%nat; simpl; unfold ret; eauto.
Qed.

Lemma onboarding_executor_events (w : World) r w' t :
  onboarding_executor w = (r, w', t) ->
  forall u, ~ In (Update u) t.
Proof.
  unfold onboarding_executor, bind, get, call, throw, ret.
  destruct (plaidWeb3 (this w)) as [s|]; simpl.
  - destruct (createEthereumOnboarding s (options (this w)));
      intros [= <- <- <-] u H; not_in_log H.
  - intros [= <- <- <-] u [].
Qed.

(** C6, as the code has it.  In a run of [activate] in which
    initialization and onboarding succeed, the provider accepts the
    subscriptions, [eth_accounts] resolves to the empty list and
    [eth_chainId] resolves too: the returned promise is rejected with
    [Error('No accounts returned')], [actions.update] is not called, and the
    activation is cancelled last. *)
Theorem empty_accounts_rejected (env : Env) (w w1 w2 : World)
    (t1 t2 : list Event) (prov : Provider) (ta tc : nat) (c : ChainIdArg) :
  isomorphicInitialize env w = (Normal (Fulfilled tt), w1, t1) ->
  onboarding_executor w1 = (Normal (Fulfilled prov), w2, t2) ->
  (forall name, prov_on prov name = None) ->
  prov_request prov eth_accounts = Promised ta (Fulfilled []) ->
  prov_request prov eth_chainId = Promised tc (Fulfilled c) ->
  exists w3 t,
    activate env w
    = (Normal (Rejected (ErrorMsg "No accounts returned")), w3, t) /\
    (forall u, ~ In (Update u) t) /\
    (exists mid, t = StartActivation :: mid ++ [CancelActivation]).
Proof.
  intros E1 E2 Hon Ha Hc.
  unfold activate, bind at 1. simpl.
  unfold bind at 1. rewrite E1.
  unfold bind at 1. simpl then_. unfold new_Promise at 1 2. rewrite E2.
  unfold bind at 1. simpl then_. unfold new_Promise at 1.
  assert ((setProvider prov ;;; requestAccountsAndChainId env prov) w2
          = (Normal (Rejected (ErrorMsg "No accounts returned")), wire prov w2,
             [On (provider_id prov) connect; On (provider_id prov) disconnect;
              On (provider_id prov) chainChanged;
              On (provider_id prov) accountsChanged;
              RequestSent (provider_id prov) eth_accounts;
              RequestSent (provider_id prov) eth_chainId])) as ->.
  { rewrite (bind_run _ _ _ _ _ _ (setProvider_accepted prov w2 Hon)).
    unfold requestAccountsAndChainId, request, invoke, bind, call.
    rewrite Ha, Hc. reflexivity. }
  simpl.
  eexists _, _. split; [reflexivity|]. split.
  - intros u Hin. simpl in Hin. destruct Hin as [Hin|Hin]; [discriminate|].
    rewrite !in_app_iff in Hin. destruct Hin as [Hin|[Hin|Hin]].
    + destruct (isomorphicInitialize_events _ _ _ _ _ E1) as [-> | ->];
        not_in_log Hin.
    + exact (onboarding_executor_events _ _ _ _ E2 u Hin).
    + not_in_log Hin.
  - exists (t1 ++ t2 ++
            [On (provider_id prov) connect; On (provider_id prov) disconnect;
             On (provider_id prov) chainChanged;
             On (provider_id prov) accountsChanged;
             RequestSent (provider_id prov) eth_accounts;
             RequestSent (provider_id prov) eth_chainId]).
    rewrite <- !app_assoc. reflexivity.
Qed.

(** A wallet without accounts that answers [eth_chainId] with "0x1". *)
Lemma empty_accounts_rejected_witness :
  let env := Scenario.browser_env FiresLoad
               (Scenario.sdk (OnSuccess Scenario.empty_wallet) None) in
  exists w3 t,
    activate env Scenario.world0
    = (Normal (Rejected (ErrorMsg "No accounts returned")), w3, t) /\
    (forall u, ~ In (Update u) t) /\
    (exists mid, t = StartActivation :: mid ++ [CancelActivation]).
Proof.
  intros env.
  apply (empty_accounts_rejected env Scenario.world0
           (snd (fst (isomorphicInitialize env Scenario.world0)))
           (snd (fst (onboarding_executor
                        (snd (fst (isomorphicInitialize env Scenario.world0))))))
           [Web3Factory]
           [CreateEthereumOnboarding Scenario.mainnet; OpenOnboarding]
           Scenario.empty_wallet 0 1 (CString "0x1")).
  - reflexivity.
  - reflexivity.
  - reflexivity.
  - reflexivity.
  - reflexivity.
Defined.

(** C6, as stated, fails.  Onboarding succeeds and [eth_accounts]
    resolves to the empty list, but the [eth_chainId] request is rejected:
    [Promise.all] is rejected with that reason, the check of the accounts
    never runs, and [activate] fails with the provider's reason instead of
    [Error('No accounts returned')]. *)
Lemma empty_accounts_other_reason :
  let env := Scenario.browser_env FiresLoad
               (Scenario.sdk (OnSuccess Scenario.failing_chain_wallet) None) in
  prov_request Scenario.failing_chain_wallet eth_accounts
    = Promised 0 (Fulfilled []) /\
  fst (fst (activate env Scenario.world0)) = Normal (Rejected (Foreign 4)) /\
  fst (fst (activate env Scenario.world0))
    <> Normal (Rejected (ErrorMsg "No accounts returned")) /\
  snd (activate env Scenario.world0)
    = [StartActivation; Web3Factory;
       CreateEthereumOnboarding Scenario.mainnet; OpenOnboarding;
       On 1 connect; On 1 disconnect; On 1 chainChanged; On 1 accountsChanged;
       RequestSent 1 eth_accounts; RequestSent 1 eth_chainId;
       CancelActivation].
Proof.
  vm_compute. repeat split; try reflexivity. discriminate.
Qed.

(** C1, evaluated.  The wallet hangs on [eth_accounts] (its promise never
    settles) and would answer [eth_chainId] at once.  Were the chain
    identifier requested only after the accounts had been awaited, no
    [eth_chainId] request could be in the log; but [activate] and
    [connectEagerly] both send it right after [eth_accounts], while that
    request is still in flight. *)
Theorem chain_id_requested_while_accounts_in_flight :
  let env := Scenario.browser_env FiresLoad
               (Scenario.sdk (OnSuccess Scenario.hanging_wallet)
                             (Some Scenario.hanging_wallet)) in
  prov_request Scenario.hanging_wallet eth_accounts = Promised 0 Pending /\
  fst (fst (activate env Scenario.world0)) = Normal Pending /\
  snd (activate env Scenario.world0)
    = [StartActivation; Web3Factory;
       CreateEthereumOnboarding Scenario.mainnet; OpenOnboarding;
       On 1 connect; On 1 disconnect; On 1 chainChanged; On 1 accountsChanged;
       RequestSent 1 eth_accounts; RequestSent 1 eth_chainId] /\
  fst (fst (connectEagerly env Scenario.world0)) = Normal Pending /\
  snd (connectEagerly env Scenario.world0)
    = [StartActivation; Web3Factory;
       GetCurrentEthereumProvider "0x1"; IsProviderActive 1;
       On 1 connect; On 1 disconnect; On 1 chainChanged; On 1 accountsChanged;
       RequestSent 1 eth_accounts; RequestSent 1 eth_chainId].
Proof.
  vm_compute. repeat split; reflexivity.
Qed.

(** *** [watchAsset] and [deactivate] *)

(** With a provider set, [watchAsset] sends one [wallet_watchAsset] request
    of type "ERC20" with the given metadata; the promise it returns is
    rejected with [Error('Rejected')] when the response is falsy and
    fulfilled with [true] otherwise. *)
Lemma watchAsset_with_provider (w : World) (prov : Provider)
    (asset : WatchAssetOptions) :
  provider (this w) = Some prov ->
  let r := wallet_watchAsset [{| type := "ERC20"; wa_options := asset |}] in
  watchAsset asset w
  = (match prov_request prov r with
     | Throws e => Throw e
     | Promised _ (Fulfilled success) =>
         Normal (if truthy success then Fulfilled true
                 else Rejected (ErrorMsg "Rejected"))
     | Promised _ (Rejected e) => Normal (Rejected e)
     | Promised _ Pending => Normal Pending
     end,
     w, [RequestSent (provider_id prov) r]).
Proof.
  intros Hp. unfold watchAsset, request, invoke, bind, get, call. rewrite Hp.
  simpl.
  destruct (prov_request prov _) as [e|tick [success|e|]]; simpl; try reflexivity.
  unfold new_Promise. destruct (truthy success); reflexivity.
Qed.

Lemma watchAsset_without_provider (w : World) (asset : WatchAssetOptions) :
  provider (this w) = None ->
  watchAsset asset w = (Throw (ErrorMsg "No provider"), w, []).
Proof.
  intros Hp. unfold watchAsset, bind, get. rewrite Hp. reflexivity.
Qed.

(** C7, evaluated.  On a connector that has never been connected,
    [watchAsset] fails with [Error('No provider')], but by throwing: the
    call completes abruptly and no promise, rejected or otherwise, is
    returned to the caller. *)
Theorem watchAsset_without_provider_throws :
  forall (browser : bool) (existing : list string) (o : Web3OnboardingOptions)
         (onError_given : bool) (asset : WatchAssetOptions),
    let w := fresh_world browser existing o onError_given in
    watchAsset asset w = (Throw (ErrorMsg "No provider"), w, []) /\
    (forall p : Promise bool, fst (fst (watchAsset asset w)) <> Normal p).
Proof.
  intros. split; [reflexivity|]. intros p. simpl. discriminate.
Qed.

(** [deactivate] leaves the whole world as it is. *)
Lemma deactivate_world (w : World) :
  snd (fst (deactivate w)) = w.
Proof.
  unfold deactivate, bind, get, invoke, call. simpl.
  destruct (provider (this w)) as [prov|]; [|reflexivity].
  destruct (plaidWeb3 (this w)) as [s|]; [|reflexivity].
  destruct (disconnectEthereumProvider s prov); reflexivity.
Qed.

Lemma handler_world (env : Env) (e : ProviderEvent) (w : World) :
  snd (fst (handler env e w)) = w.
Proof.
  destruct e as [c|err|c|accounts]; unfold handler, update, resetState, bind, get, call.
  - destruct (update_throws env _); reflexivity.
  - simpl. destruct (onError (this w)); reflexivity.
  - destruct (update_throws env _); reflexivity.
  - destruct (length accounts =? 0)%nat; [reflexivity|].
    destruct (update_throws env _); reflexivity.
Qed.

Lemma run_handlers_world (env : Env) (regs : list (nat * EventName))
    (pid : nat) (e : ProviderEvent) (w : World) :
  snd (fst (run_handlers env regs pid e w)) = w.
Proof.
  induction regs as [|[pid' name] regs IH]; [reflexivity|].
  cbn [run_handlers]. unfold bind.
  destruct (Nat.eqb pid' pid && same_name name (event_name e)).
  - pose proof (handler_world env e w) as Hh.
    destruct (handler env e w) as [[[[]|err] w1] t1]; simpl in Hh; subst w1.
    + destruct (run_handlers env regs pid e w) as [[r w2] t2]. exact IH.
    + reflexivity.
  - unfold ret at 1.
    destruct (run_handlers env regs pid e w) as [[r w2] t2]. exact IH.
Qed.

(** No handler registered by [setProvider] changes the connector. *)
Lemma emit_world (env : Env) (pid : nat) (e : ProviderEvent) (w : World) :
  snd (fst (emit env pid e w)) = w.
Proof.
  unfold emit, bind, get.
  pose proof (run_handlers_world env (wired w) pid e w) as H.
  destruct (run_handlers env (wired w) pid e w) as [[r w1] t1]. exact H.
Qed.

(** C10. [deactivate] does not assign [provider] or [plaidWeb3] (it
    changes nothing of the connector), and neither does any handler a
    provider event may run meanwhile; so when a provider is set, a
    [watchAsset] after [deactivate] gets past its no-provider check: it
    behaves as before and sends its request to that provider. *)
Theorem deactivate_keeps_provider (env : Env) (w : World) :
  let w' := snd (fst (deactivate w)) in
  provider (this w') = provider (this w) /\
  plaidWeb3 (this w') = plaidWeb3 (this w) /\
  (forall (pid : nat) (e : ProviderEvent),
      this (snd (fst (emit env pid e w'))) = this w) /\
  (forall (prov : Provider) (asset : WatchAssetOptions),
      provider (this w) = Some prov ->
      watchAsset asset w' = watchAsset asset w /\
      snd (watchAsset asset w')
        = [RequestSent (provider_id prov)
             (wallet_watchAsset [{| type := "ERC20"; wa_options := asset |}])]).
Proof.
  intros w'. subst w'. rewrite deactivate_world. repeat split.
  - intros pid e. rewrite emit_world. reflexivity.
  - rewrite (watchAsset_with_provider w prov asset H). reflexivity.
Qed.

(** After a successful [activate], [deactivate] and then [watchAsset]. *)
Lemma deactivate_keeps_provider_witness :
  let env := Scenario.browser_env FiresLoad
               (Scenario.sdk (OnSuccess Scenario.good_wallet) None) in
  let w := snd (fst (activate env Scenario.world0)) in
  let asset := {| address := "0xdead"; symbol := Some "TKN";
                  decimals := Some 18%Z; image := None |} in
  provider (this w) = Some Scenario.good_wallet /\
  snd (watchAsset asset (snd (fst (deactivate w))))
    = [RequestSent 1
         (wallet_watchAsset [{| type := "ERC20"; wa_options := asset |}])].
Proof.
  intros env w asset.
  assert (provider (this w) = Some Scenario.good_wallet) as H
    by (vm_compute; reflexivity).
  split; [exact H|].
  exact (proj2 (proj2 (proj2 (proj2 (deactivate_keeps_provider env w)))
                  Scenario.good_wallet asset H)).
Defined.

(** *** Provider events *)

Lemma bind_inv {A B} (m : Sync A) (k : A -> Sync B) (w w' : World)
    (b : B) (t : list Event) :
  bind m k w = (Normal b, w', t) ->
  exists a w1 t1 t2,
    m w = (Normal a, w1, t1) /\ k a w1 = (Normal b, w', t2) /\ t = t1 ++ t2.
Proof.
  unfold bind. destruct (m w) as [[[a|e] w1] t1]; [|discriminate].
  destruct (k a w1) as [[r w2] t2] eqn:Ek. intros [= -> -> <-].
  exists a, w1, t1, t2. auto.
Qed.

Lemma then_fulfilled_inv {A B} (p : Promise A) (f : A -> Sync (Promise B))
    (w w' : World) (b : B) (t : list Event) :
  then_ p f w = (Normal (Fulfilled b), w', t) ->
  exists a, p = Fulfilled a /\ f a w = (Normal (Fulfilled b), w', t).
Proof.
  destruct p as [a|e|]; simpl; [|discriminate..].
  unfold new_Promise. destruct (f a w) as [[[q|e] w1] t1] eqn:Ef; [|discriminate].
  intros [= -> -> ->]. eauto.
Qed.

Lemma requestAccountsAndChainId_world (env : Env) (prov : Provider) (w : World) :
  snd (fst (requestAccountsAndChainId env prov w)) = w.
Proof.
  unfold requestAccountsAndChainId, request, invoke, bind, call.
  destruct (prov_request prov eth_accounts) as [e|ta fa]; simpl; [reflexivity|].
  destruct (prov_request prov eth_chainId) as [e|tc fc]; simpl; [reflexivity|].
  destruct fa as [accounts|ea|], fc as [c|ec|]; try reflexivity.
  - unfold Promise_all, then_, new_Promise, throw, update, bind, call, ret. simpl.
    destruct (length accounts =? 0)%nat; [reflexivity|].
    destruct (update_throws env _); reflexivity.
  - unfold Promise_all. simpl. destruct (ta <=? tc)%nat; reflexivity.
Qed.

(** A [setProvider] that returns has set the provider and has its
    [accountsChanged] handler registered with it. *)
Lemma setProvider_wires (prov : Provider) (w w' : World) (t : list Event) :
  setProvider prov w = (Normal tt, w', t) ->
  provider (this w') = Some prov /\
  In (provider_id prov, accountsChanged) (wired w').
Proof.
  unfold setProvider, on, bind, modify, call, throw.
  destruct (prov_on prov connect); [intros [=]|].
  destruct (prov_on prov disconnect); [intros [=]|].
  destruct (prov_on prov chainChanged); [intros [=]|].
  destruct (prov_on prov accountsChanged); [intros [=]|].
  simpl. intros [= <- _]. simpl. split; [reflexivity|].
  apply in_or_app. right. left. reflexivity.
Qed.

(** A connector is wired when it holds a provider that has the
    connector's [accountsChanged] handler. *)
Lemma activate_fulfilled_wired (env : Env) (w w' : World) (t : list Event) :
  activate env w = (Normal (Fulfilled tt), w', t) ->
  exists prov, provider (this w') = Some prov /\
               In (provider_id prov, accountsChanged) (wired w').
Proof.
  unfold activate. intros H.
  apply bind_inv in H as (cancel & w0 & t0 & t0' & Hs & H & _).
  injection Hs as <- <- _.
  apply bind_inv in H as (p0 & w1 & t1 & t1' & _ & H & _).
  apply bind_inv in H as (p1 & w2 & t2 & t2' & _ & H & _).
  apply bind_inv in H as (p2 & w3 & t3 & t3' & Hthen & H & _).
  rewrite catch_cancel in H. destruct p2 as [[]|e|]; try discriminate.
  injection H as <- _.
  apply then_fulfilled_inv in Hthen as (prov & _ & Hbody).
  apply bind_inv in Hbody as ([] & w4 & t4 & t4' & Hset & Hreq & _).
  pose proof (requestAccountsAndChainId_world env prov w4) as Hw.
  rewrite Hreq in Hw. simpl in Hw. subst w4.
  exists prov. exact (setProvider_wires _ _ _ _ Hset).
Qed.

Lemma connectEagerly_fulfilled_wired (env : Env) (w w' : World) (t : list Event) :
  connectEagerly env w = (Normal (Fulfilled tt), w', t) ->
  exists prov, provider (this w') = Some prov /\
               In (provider_id prov, accountsChanged) (wired w').
Proof.
  unfold connectEagerly. intros H.
  apply bind_inv in H as (cancel & w0 & t0 & t0' & Hs & H & _).
  injection Hs as <- <- _.
  apply bind_inv in H as (p0 & w1 & t1 & t1' & _ & H & _).
  apply bind_inv in H as (p1 & w2 & t2 & t2' & _ & H & _).
  apply bind_inv in H as (p2 & w3 & t3 & t3' & Hwire & H & _).
  apply bind_inv in H as (p3 & w4 & t4 & t4' & Hquery & H & _).
  rewrite catch_cancel in H. destruct p3 as [[]|e|]; try discriminate.
  injection H as <- _.
  (* the last [then]: the queries on [this.provider] *)
  apply then_fulfilled_inv in Hquery as ([] & -> & Hquery).
  apply bind_inv in Hquery as (w3' & w3'' & t5 & t5' & Hget & Hquery & _).
  injection Hget as <- <- _.
  destruct (provider (this w3)) as [prov'|] eqn:Hprov; [|discriminate].
  pose proof (requestAccountsAndChainId_world env prov' w3) as Hw.
  rewrite Hquery in Hw. simpl in Hw. subst w4.
  (* the [then] before it: [setProvider] has run *)
  apply then_fulfilled_inv in Hwire as (oprov & _ & Hwire).
  apply bind_inv in Hwire as (w2' & w2'' & t6 & t6' & Hget & Hwire & _).
  injection Hget as <- <- _.
  destruct oprov as [prov|]; [|discriminate].
  destruct (plaidWeb3 (this w2)) as [s|]; [|discriminate].
  destruct (isProviderActive s) as [f|]; [|discriminate].
  apply bind_inv in Hwire as (q & w5 & t7 & t7' & _ & Hwire & _).
  apply bind_inv in Hwire as (q' & w6 & t8 & t8' & _ & Hwire & _).
  apply then_fulfilled_inv in Hwire as ([] & _ & Hwire).
  apply bind_inv in Hwire as ([] & w7 & t9 & t9' & Hset & Hret & _).
  injection Hret as <- _.
  destruct (setProvider_wires _ _ _ _ Hset) as [Hp Hin].
  rewrite Hp in Hprov. injection Hprov as <-.
  exists prov. split; [exact Hp|exact Hin].
Qed.

Lemma handler_accountsChanged (env : Env) (accounts : list string) (w : World) :
  exists r, handler env (EmitAccountsChanged accounts) w
            = (r, w, [accounts_report accounts]).
Proof.
  unfold handler. destruct accounts as [|a accounts]; simpl.
  - unfold resetState, call. eauto.
  - unfold update, bind, call. destruct (update_throws env _); simpl; eauto.
Qed.

(** The handlers that run on [accountsChanged] each make the one report and
    change nothing; at least one runs when the provider is registered. *)
Lemma run_handlers_accountsChanged (env : Env) (regs : list (nat * EventName))
    (pid : nat) (accounts : list string) (w : World) :
  exists n r,
    run_handlers env regs pid (EmitAccountsChanged accounts) w
    = (r, w, repeat (accounts_report accounts) n) /\
    (In (pid, accountsChanged) regs -> (1 <= n)%nat).
Proof.
  induction regs as [|[pid' name] regs (n & r & IH & Hn)].
  - exists 0%nat, (Normal tt). split; [reflexivity|intros []].
  - cbn [run_handlers]. unfold bind at 1.
    destruct (Nat.eqb pid' pid && same_name name accountsChanged) eqn:E;
      cbn [event_name]; rewrite E.
    + destruct (handler_accountsChanged env accounts w) as [r' Hh]. rewrite Hh.
      destruct r' as [[]|e].
      * rewrite IH. exists (S n), r. split; [reflexivity|lia].
      * exists 1%nat, (Throw e). split; [reflexivity|lia].
    + unfold ret at 1. rewrite IH. exists n, r. split; [reflexivity|].
      intros [Heq|Hin]; [|auto].
      inversion Heq; subst. rewrite Nat.eqb_refl in E. discriminate.
Qed.

Lemma emit_accountsChanged (env : Env) (w : World) (pid : nat)
    (accounts : list string) :
  In (pid, accountsChanged) (wired w) ->
  exists n r,
    emit env pid (EmitAccountsChanged accounts) w
    = (r, w, repeat (accounts_report accounts) (S n)).
Proof.
  intros Hin. unfold emit, bind, get.
  destruct (run_handlers_accountsChanged env (wired w) pid accounts w)
    as (n & r & Hrun & Hn).
  rewrite Hrun. specialize (Hn Hin). destruct n as [|n]; [lia|].
  exists n, r. reflexivity.
Qed.

(** C9. After a successful [activate] or [connectEagerly] the connector
    holds a provider wired by [setProvider]; whenever that provider (any
    provider that has the connector's handler) emits [accountsChanged],
    every call the connector makes is [resetState] if the new account list
    is empty, and [update({ accounts })] with the new list otherwise; there
    is at least one such call, and the connector's own state does not
    change. *)
Theorem accountsChanged_reported (env : Env) (w : World) :
  (forall w0 t,
      activate env w0 = (Normal (Fulfilled tt), w, t) \/
      connectEagerly env w0 = (Normal (Fulfilled tt), w, t) ->
      exists prov,
        provider (this w) = Some prov /\
        forall accounts, exists n r,
          emit env (provider_id prov) (EmitAccountsChanged accounts) w
          = (r, w, repeat (accounts_report accounts) (S n))) /\
  (forall (pid : nat) (accounts : list string),
      In (pid, accountsChanged) (wired w) ->
      exists n r,
        emit env pid (EmitAccountsChanged accounts) w
        = (r, w, repeat (accounts_report accounts) (S n))) /\
  accounts_report [] = ResetState /\
  (forall a accounts,
      accounts_report (a :: accounts)
      = Update {| upd_chainId := None; upd_accounts := Some (a :: accounts) |}).
Proof.
  repeat split.
  - intros w0 t H.
    assert (exists prov, provider (this w) = Some prov /\
                         In (provider_id prov, accountsChanged) (wired w))
      as (prov & Hp & Hin).
    { destruct H as [H|H];
        [eapply activate_fulfilled_wired|eapply connectEagerly_fulfilled_wired];
        exact H. }
    exists prov. split; [exact Hp|].
    intros accounts. apply emit_accountsChanged, Hin.
  - intros pid accounts Hin. apply emit_accountsChanged, Hin.
Qed.

(** After the successful connect of the spec's scenario, the wallet emits
    [accountsChanged] with an empty list, then with a new account. *)
Lemma accountsChanged_reported_witness :
  let env := Scenario.browser_env FiresLoad
               (Scenario.sdk (OnSuccess Scenario.good_wallet) None) in
  let w := snd (fst (activate env Scenario.world0)) in
  (exists prov,
      provider (this w) = Some prov /\
      forall accounts, exists n r,
        emit env (provider_id prov) (EmitAccountsChanged accounts) w
        = (r, w, repeat (accounts_report accounts) (S n))) /\
  (exists n r, emit env 1 (EmitAccountsChanged []) w
               = (r, w, repeat ResetState (S n))) /\
  (exists n r, emit env 1 (EmitAccountsChanged ["0xdef"]) w
               = (r, w, repeat (Update {| upd_chainId := None;
                                          upd_accounts := Some ["0xdef"] |})
                               (S n))).
Proof.
  intros env w.
  assert (In (1%nat, accountsChanged) (wired w)) as Hin
    by (right; right; right; left; reflexivity).
  split; [|split].
  - apply (proj1 (accountsChanged_reported env w) Scenario.world0
             (snd (activate env Scenario.world0))).
    left. vm_compute. reflexivity.
  - exact (proj1 (proj2 (accountsChanged_reported env w)) 1%nat [] Hin).
  - exact (proj1 (proj2 (accountsChanged_reported env w)) 1%nat ["0xdef"] Hin).
Defined.

End ConnectorFacts.

(* ===================================================================== *)
(** ** More about the loader                                              *)
(* ===================================================================== *)

Section LoaderMore.

Import Loader.

(** *** Events of a script element *)

Lemma dispatch_fold_calls (target : nat) (d : DomEvent) (ls : list Listener)
    (acc : Page * list (CallbackId * Snapshot)) :
  snd (fold_left (dispatch_step target d) ls acc)
  = snd acc ++ flat_map (notified target d) ls.
Proof.
  revert acc. induction ls as [|l ls IH]; intros acc; simpl.
  - rewrite app_nil_r. reflexivity.
  - rewrite IH. unfold dispatch_step, notified, run_listener.
    destruct (listens target d l); simpl; [|reflexivity].
    rewrite <- app_assoc. reflexivity.
Qed.

Lemma dispatchEvent_calls (target : nat) (d : DomEvent) (p : Page) :
  snd (dispatchEvent target d p) = flat_map (notified target d) (listeners p).
Proof. unfold dispatchEvent. rewrite dispatch_fold_calls. reflexivity. Qed.

Lemma dispatch_fold_failed (target : nat) (ev : ErrorEvent)
    (ls : list Listener) (acc : Page * list (CallbackId * Snapshot)) :
  fst (fold_left (dispatch_step target (Failed ev)) ls acc) = fst acc.
Proof.
  revert acc. induction ls as [|l ls IH]; intros acc; simpl; [reflexivity|].
  rewrite IH. unfold dispatch_step, listens, run_listener.
  destruct (l_type l); simpl.
  - rewrite andb_false_r. reflexivity.
  - destruct (Nat.eqb (l_target l) target); simpl; [|reflexivity].
    destruct acc as [[] calls]. reflexivity.
Qed.

Lemma dispatchEvent_failed (target : nat) (ev : ErrorEvent) (p : Page) :
  fst (dispatchEvent target (Failed ev) p) = p.
Proof. unfold dispatchEvent. rewrite dispatch_fold_failed. reflexivity. Qed.

(** X1. A failed load is reported and recorded nowhere: when a script
    element fires [error], every callback registered on it for that event
    is called once, in registration order, with [{loading: false, error}];
    the registry, the document and everything else stay exactly as they
    were, so the entry of that URL still says what it said before. *)
Theorem failed_load_recorded_nowhere (target : nat) (ev : ErrorEvent) (p : Page) :
  fst (dispatchEvent target (Failed ev) p) = p /\
  snd (dispatchEvent target (Failed ev) p)
  = flat_map (notified target (Failed ev)) (listeners p).
Proof. split; [apply dispatchEvent_failed|apply dispatchEvent_calls]. Qed.

Lemma mark_loaded_idem (o : option ScriptStatus) :
  mark_loaded <$> (mark_loaded <$> o) = mark_loaded <$> o.
Proof. destruct o; reflexivity. Qed.

Lemma dispatch_step_loaded (target : nat) (l : Listener)
    (acc : Page * list (CallbackId * Snapshot)) :
  let q := fst (dispatch_step target Loaded acc l) in
  isBrowser q = isBrowser (fst acc) /\
  document q = document (fst acc) /\
  created q = created (fst acc) /\
  listeners q = listeners (fst acc) /\
  next_elem q = next_elem (fst acc) /\
  forall u,
    scripts q !! u
    = if listens target Loaded l && String.eqb (l_src l) u
      then mark_loaded <$> scripts (fst acc) !! u
      else scripts (fst acc) !! u.
Proof.
  unfold dispatch_step, run_listener.
  destruct (listens target Loaded l) eqn:El; simpl; [|repeat split; reflexivity].
  assert (l_type l = load) as Ht.
  { unfold listens in El. destruct (l_type l); [reflexivity|].
    rewrite andb_false_r in El. discriminate. }
  rewrite Ht. simpl. repeat split; try reflexivity.
  intros u. rewrite lookup_alter.
  destruct (String.eqb (l_src l) u) eqn:Eu.
  - apply String.eqb_eq in Eu. subst u. rewrite decide_True by reflexivity.
    reflexivity.
  - rewrite decide_False; [reflexivity|].
    intros Heq. rewrite Heq, String.eqb_refl in Eu. discriminate.
Qed.

Lemma dispatch_fold_loaded (target : nat) (ls : list Listener)
    (acc : Page * list (CallbackId * Snapshot)) :
  let p' := fst (fold_left (dispatch_step target Loaded) ls acc) in
  isBrowser p' = isBrowser (fst acc) /\
  document p' = document (fst acc) /\
  created p' = created (fst acc) /\
  listeners p' = listeners (fst acc) /\
  next_elem p' = next_elem (fst acc) /\
  forall u,
    scripts p' !! u
    = if existsb (fun l => listens target Loaded l && String.eqb (l_src l) u) ls
      then mark_loaded <$> scripts (fst acc) !! u
      else scripts (fst acc) !! u.
Proof.
  revert acc. induction ls as [|l ls IH]; intros acc; cbn [fold_left existsb].
  - repeat split; reflexivity.
  - destruct (IH (dispatch_step target Loaded acc l)) as (Hb & Hd & Hc & Hl & Hn & Hs).
    destruct (dispatch_step_loaded target l acc) as (Hb' & Hd' & Hc' & Hl' & Hn' & Hs').
    cbv zeta in *.
    rewrite Hb, Hd, Hc, Hl, Hn. repeat split; try assumption.
    intros u. rewrite Hs, Hs'.
    destruct (listens target Loaded l && String.eqb (l_src l) u); simpl;
      destruct (existsb _ ls); try reflexivity.
    apply mark_loaded_idem.
Qed.

Lemma dispatchEvent_loaded (target : nat) (p : Page) :
  let p' := fst (dispatchEvent target Loaded p) in
  document p' = document p /\
  created p' = created p /\
  listeners p' = listeners p /\
  next_elem p' = next_elem p /\
  (forall u,
      scripts p' !! u
      = if load_listener_for target u p
        then mark_loaded <$> scripts p !! u
        else scripts p !! u).
Proof.
  destruct (dispatch_fold_loaded target (listeners p) (p, []))
    as (_ & Hd & Hc & Hl & Hn & Hs).
  repeat split; assumption.
Qed.

(** X2. When a script element fires [load], the registry entries whose
    [load] listeners sit on that element get [loading: false] and keep their
    element and error; every other entry, the document, the list of created
    elements and the listeners are untouched; each callback registered on
    the element for [load] is called once with [{loading: false, error:
    null}], in registration order. *)
Theorem load_event_marks_loaded (target : nat) (p : Page) :
  let p' := fst (dispatchEvent target Loaded p) in
  document p' = document p /\
  created p' = created p /\
  listeners p' = listeners p /\
  next_elem p' = next_elem p /\
  (forall u,
      scripts p' !! u
      = if load_listener_for target u p
        then mark_loaded <$> scripts p !! u
        else scripts p !! u) /\
  snd (dispatchEvent target Loaded p)
  = flat_map (notified target Loaded) (listeners p).
Proof.
  destruct (dispatchEvent_loaded target p) as (Hd & Hc & Hl & Hn & Hs).
  repeat split; try assumption. apply dispatchEvent_calls.
Qed.

(** *** What [loader] and [loadScript] do to the page *)

Lemma truthy_src_nonempty (s : option string) (u : string) :
  truthy_src s = Some u -> s = Some u /\ u <> EmptyString.
Proof.
  destruct s as [[|c s]|]; simpl; intros [= <-]. split; [reflexivity|discriminate].
Qed.

Lemma loader_cases (c : Closure) (p : Page) :
  loader c p = p \/
  exists u,
    truthy_src (c_src c) = Some u /\ c_error c = None /\ isBrowser p = true /\
    ((exists st, scripts p !! u = Some st /\
                 loader c p = attach u (scriptEl st) (c_callback c) p) \/
     (scripts p !! u = None /\ c_checkForExisting c = true /\
      exists existing, querySelector u p = Some existing /\
        loader c p = attach u existing (c_callback c) (adopt u existing p)) \/
     (scripts p !! u = None /\
      (c_checkForExisting c = false \/ querySelector u p = None) /\
      loader c p
      = attach u {| el_id := next_elem p; el_src := u |} (c_callback c)
               (register_new u p))).
Proof.
  unfold loader.
  destruct (truthy_src (c_src c)) as [u|]; [|left; reflexivity].
  destruct (c_error c); [left; reflexivity|].
  destruct (isBrowser p) eqn:Hb; simpl; [|left; reflexivity].
  right. exists u. repeat split.
  destruct (scripts p !! u) as [st|] eqn:Hst.
  - left. exists st. split; reflexivity.
  - right. destruct (c_checkForExisting c) eqn:Hc.
    + unfold checkExisting.
      destruct (querySelector u p) as [existing|] eqn:Hq.
      * left. repeat split. exists existing. split; reflexivity.
      * right. split; [reflexivity|split; [right; reflexivity|reflexivity]].
    + right. split; [reflexivity|split; [left; reflexivity|reflexivity]].
Qed.

Lemma loadScript_cases (params : Params) (cb : option CallbackId) (p : Page) :
  exists q snapshot c,
    (q = p \/
     exists u existing,
       truthy_src (src params) = Some u /\ scripts p !! u = None /\
       checkForExisting params = true /\ isBrowser p = true /\
       querySelector u p = Some existing /\ q = adopt u existing p) /\
    c_src c = src params /\ c_callback c = cb /\
    c_checkForExisting c = checkForExisting params /\
    loadScript params cb p
    = if loadImmediate params then ((snapshot, None), loader c q)
      else ((snapshot, Some c), q).
Proof.
  unfold loadScript.
  destruct (truthy_src (src params)) as [u|] eqn:Hu.
  - destruct (scripts p !! u) as [st|] eqn:Hst.
    + eexists p, _, _. split; [left; reflexivity|].
      repeat split; destruct (loadImmediate params); reflexivity.
    + destruct (checkForExisting params) eqn:Hc, (isBrowser p) eqn:Hb; simpl;
        try (eexists p, _, _; split; [left; reflexivity|];
             repeat split; destruct (loadImmediate params); reflexivity).
      unfold checkExisting. destruct (querySelector u p) as [existing|] eqn:Hq.
      * eexists (adopt u existing p), _, _. split.
        { right. exists u, existing. repeat split; assumption. }
        repeat split; destruct (loadImmediate params); reflexivity.
      * eexists p, _, _. split; [left; reflexivity|].
        repeat split; destruct (loadImmediate params); reflexivity.
  - eexists p, _, _. split; [left; reflexivity|].
    repeat split; destruct (loadImmediate params); reflexivity.
Qed.


(** *** Invariants of a page lifetime *)

Ltac page_simpl :=
  unfold registry_clean, attach, adopt, register_new, set_scripts,
    createElement, appendChild, addEventListener;
  cbn [scripts document listeners next_elem created isBrowser fst snd el_id
       l_target].

Lemma entries_kept_refl (p : Page) : entries_kept p p.
Proof. intros u st H. exists st. auto. Qed.

Lemma entries_kept_trans (p q r : Page) :
  entries_kept p q -> entries_kept q r -> entries_kept p r.
Proof.
  intros Hpq Hqr u st H.
  destruct (Hpq u st H) as (st1 & H1 & He1 & Hr1 & Hl1).
  destruct (Hqr u st1 H1) as (st2 & H2 & He2 & Hr2 & Hl2).
  exists st2. repeat split; [exact H2|congruence|congruence|auto].
Qed.

Lemma entries_kept_same_scripts (p q : Page) :
  scripts q = scripts p -> entries_kept p q.
Proof. intros Hs u st H. exists st. rewrite Hs. auto. Qed.

Lemma entries_kept_insert (p q : Page) (u : string) (st0 : ScriptStatus) :
  scripts p !! u = None -> scripts q = <[u := st0]> (scripts p) ->
  entries_kept p q.
Proof.
  intros Hnone Hs v st H. exists st. rewrite Hs.
  rewrite lookup_insert_ne by congruence. auto.
Qed.






Lemma loader_kept (c : Closure) (p : Page) : entries_kept p (loader c p).
Proof.
  destruct (loader_cases c p) as [->|(u & _ & _ & _ & H)];
    [apply entries_kept_refl|].
  destruct H as [(st & Hst & ->)|[(Hn & _ & ex & Hq & ->)|(Hn & _ & ->)]].
  - apply entries_kept_same_scripts. reflexivity.
  - eapply entries_kept_insert; [exact Hn|reflexivity].
  - eapply entries_kept_insert; [exact Hn|reflexivity].
Qed.


Lemma loadScript_kept (params : Params) (cb : option CallbackId) (p : Page) :
  entries_kept p (snd (loadScript params cb p)).
Proof.
  destruct (loadScript_cases params cb p) as (q & snapshot & c & Hq & _ & _ & _ & ->).
  assert (entries_kept p q) as Hpq.
  { destruct Hq as [->|(u & ex & _ & Hn & _ & _ & _ & ->)];
      [apply entries_kept_refl|].
    eapply entries_kept_insert; [exact Hn|reflexivity]. }
  destruct (loadImmediate params); simpl; [|exact Hpq].
  eapply entries_kept_trans; [exact Hpq|apply loader_kept].
Qed.

Lemma dispatchEvent_kept (target : nat) (d : DomEvent) (p : Page) :
  entries_kept p (fst (dispatchEvent target d p)).
Proof.
  destruct d as [|ev].
  - destruct (dispatchEvent_loaded target p) as (_ & _ & _ & _ & Hs).
    intros u st H. rewrite Hs, H.
    destruct (load_listener_for target u p); simpl.
    + eexists. split; [reflexivity|]. simpl. auto.
    + exists st. auto.
  - rewrite (dispatchEvent_failed target ev p).
    apply entries_kept_refl.
Qed.



Lemma step_kept (s : Session) (o : Op) :
  entries_kept (page s) (page (step s o)).
Proof.
  destruct o as [params cb|i|target d|u]; simpl.
  - pose proof (loadScript_kept params cb (page s)) as H.
    destruct (loadScript params cb (page s)) as [[snap trigger] p']. exact H.
  - destruct (triggers s !! i); simpl; [apply loader_kept|apply entries_kept_refl].
  - apply dispatchEvent_kept.
  - apply entries_kept_same_scripts. reflexivity.
Qed.



(** X3. Registry entries are for life: over any sequence of calls, trigger
    invocations, element events and foreign insertions, an entry of the
    registry is never removed, keeps its script element and its (absent)
    error, and once it says [loading: false] it says so for ever. *)
Theorem registry_entries_persist (ops : list Op) (s : Session) :
  entries_kept (page s) (page (run ops s)).
Proof.
  revert s. induction ops as [|o ops IH]; intros s; simpl.
  - apply entries_kept_refl.
  - eapply entries_kept_trans; [apply step_kept|apply IH].
Qed.





(** X5. Nothing to do: outside a browser, or when [src] is [null] or
    empty, [loadScript] leaves the page exactly as it is (no registry entry,
    no element, no listener), immediately or deferred, and the trigger it
    may hand out is a no-op on every page of that kind. *)
Theorem loadScript_nothing_to_do (params : Params) (cb : option CallbackId)
    (p : Page) :
  isBrowser p = false \/ truthy_src (src params) = None ->
  snd (loadScript params cb p) = p /\
  forall c q,
    snd (fst (loadScript params cb p)) = Some c ->
    isBrowser q = isBrowser p ->
    loader c q = q.
Proof.
  intros H.
  destruct (loadScript_cases params cb p) as (q0 & snapshot & c0 & Hq & Hsrc & _ & _ & E).
  assert (q0 = p) as ->.
  { destruct Hq as [->|(u & ex & Hu & _ & _ & Hb & _)]; [reflexivity|].
    destruct H as [H|H]; congruence. }
  assert (forall q, isBrowser q = isBrowser p -> loader c0 q = q) as Hnoop.
  { intros q Hbq. unfold loader. rewrite Hsrc.
    destruct H as [H|H].
    - destruct (truthy_src (src params)); [|reflexivity].
      destruct (c_error c0); [reflexivity|]. rewrite Hbq, H. reflexivity.
    - rewrite H. reflexivity. }
  rewrite E. destruct (loadImmediate params); simpl.
  - split; [apply Hnoop; reflexivity|]. intros c q [=].
  - split; [reflexivity|]. intros c q [= <-]. apply Hnoop.
Qed.

Lemma loadScript_deferred (params : Params) (cb : option CallbackId) (p : Page) :
  loadImmediate params = false ->
  let r := loadScript params cb p in
  (exists c, snd (fst r) = Some c) /\
  created (snd r) = created p /\
  document (snd r) = document p /\
  listeners (snd r) = listeners p /\
  next_elem (snd r) = next_elem p /\
  forall v, truthy_src (src params) <> Some v ->
            scripts (snd r) !! v = scripts p !! v.
Proof.
  intros Hd.
  destruct (loadScript_cases params cb p) as (q & snapshot & c & Hq & _ & _ & _ & E).
  cbv zeta. rewrite E, Hd. simpl.
  split; [eauto|].
  destruct Hq as [->|(u & ex & Hu & _ & _ & _ & _ & ->)].
  - repeat split; reflexivity.
  - repeat split; try reflexivity.
    intros v Hv. unfold adopt, set_scripts. cbn [scripts].
    apply lookup_insert_ne. congruence.
Qed.

(** X6. A deferred call loads nothing: with [loadImmediate] unset, a call
    with plain parameters ([plain_params]; with [checkForExisting] and a
    [src] that breaks the selector the code throws instead) hands out a
    trigger and creates no element, adds no listener and leaves the
    document alone; in the registry it touches at most the entry of its own
    URL (the adoption of an existing element). *)
Theorem deferred_call_loads_nothing (params : Params) (cb : option CallbackId)
    (p : Page) :
  plain_params params = true ->
  loadImmediate params = false ->
  let r := loadScript params cb p in
  (exists c, snd (fst r) = Some c) /\
  created (snd r) = created p /\
  document (snd r) = document p /\
  listeners (snd r) = listeners p /\
  next_elem (snd r) = next_elem p /\
  forall v, truthy_src (src params) <> Some v ->
            scripts (snd r) !! v = scripts p !! v.
Proof. intros _. apply loadScript_deferred. Qed.

(** An immediate call is the deferred call followed by its trigger. *)
Lemma loadScript_immediate (u : option string) (check : bool)
    (cb : option CallbackId) (p : Page) :
  exists snapshot c q,
    loadScript {| src := u; checkForExisting := check; loadImmediate := false |}
               cb p = ((snapshot, Some c), q) /\
    loadScript {| src := u; checkForExisting := check; loadImmediate := true |}
               cb p = ((snapshot, None), loader c q).
Proof.
  unfold loadScript. cbn [src checkForExisting loadImmediate].
  match goal with
  | |- context [let '(_, _) := ?x in _] => destruct x as [status q]
  end.
  eexists _, _, _. split; reflexivity.
Qed.



Lemma load_listener_none (n : nat) (u : string) (ls : list Listener) :
  (forall l, In l ls -> l_target l < n) ->
  existsb (fun l => listens n Loaded l && String.eqb (l_src l) u) ls = false.
Proof.
  induction ls as [|l ls IH]; intros H; simpl; [reflexivity|].
  rewrite IH by (intros l' Hl'; apply H; right; exact Hl').
  unfold listens.
  assert (Nat.eqb (l_target l) n = false) as ->.
  { apply Nat.eqb_neq. specialize (H l (or_introl eq_refl)). lia. }
  reflexivity.
Qed.




Lemma later_load_page (u : string) (check : bool) (cb : option CallbackId)
    (st : ScriptStatus) (p : Page) :
  isBrowser p = true -> u <> EmptyString ->
  scripts p !! u = Some st -> error st = None ->
  loadScript {| src := Some u; checkForExisting := check;
                loadImmediate := true |} cb p
  = (({| snap_loading := true; snap_error := None |}, None),
     attach u (scriptEl st) cb p).
Proof.
  intros Hb Hu Hst He.
  assert (truthy_src (Some u) = Some u) as Ht by (destruct u; [congruence|reflexivity]).
  unfold loadScript. cbn [src checkForExisting loadImmediate].
  rewrite Ht, Hst, He. rewrite bool_decide_eq_true_2 by eauto.
  rewrite orb_true_r. f_equal. unfold loader.
  cbn [c_src c_error c_checkForExisting c_callback].
  rewrite Ht, Hb, Hst. reflexivity.
Qed.

Lemma attach_calls (u : string) (el : Element) (cb : CallbackId) (p : Page)
    (d : DomEvent) :
  snd (dispatchEvent (el_id el) d (attach u el (Some cb) p))
  = snd (dispatchEvent (el_id el) d p)
    ++ [(cb, {| snap_loading := false;
                snap_error := match d with
                              | Failed ev => Some ev
                              | Loaded => None
                              end |})].
Proof.
  rewrite !dispatchEvent_calls.
  change (listeners (attach u el (Some cb) p))
    with ((listeners p ++ [{| l_target := el_id el; l_type := load;
                              l_src := u; l_callback := Some cb |}])
          ++ [{| l_target := el_id el; l_type := error_event;
                 l_src := u; l_callback := Some cb |}]).
  rewrite !flat_map_app, <- app_assoc. f_equal.
  unfold notified, listens.
  cbn [flat_map l_target l_type l_callback el_id app]. rewrite !Nat.eqb_refl.
  destruct d; reflexivity.
Qed.

(** X8. A later caller joins.  When the registry already has an entry for
    the URL, a further call with [loadImmediate] creates nothing and changes
    no entry: it puts its two listeners on the entry's element, after those
    already there, so that the element's [load] calls back the earlier
    callers first and this one last. *)
Theorem later_caller_joins (u : string) (check : bool) (cb : CallbackId)
    (st : ScriptStatus) (p : Page) :
  isBrowser p = true -> u <> EmptyString ->
  scripts p !! u = Some st -> error st = None ->
  let r := loadScript {| src := Some u; checkForExisting := check;
                         loadImmediate := true |} (Some cb) p in
  created (snd r) = created p /\
  scripts (snd r) = scripts p /\
  next_elem (snd r) = next_elem p /\
  (forall d,
      snd (dispatchEvent (el_id (scriptEl st)) d (snd r))
      = snd (dispatchEvent (el_id (scriptEl st)) d p)
        ++ [(cb, {| snap_loading := false;
                    snap_error := match d with
                                  | Failed ev => Some ev
                                  | Loaded => None
                                  end |})]).
Proof.
  intros Hb Hu Hst He.
  rewrite (later_load_page u check (Some cb) st p Hb Hu Hst He).
  cbv zeta. cbn [snd]. repeat split.
  intros d. apply attach_calls.
Qed.


(** *** One URL at a time *)

Lemma created_for_attach (v u : string) (el : Element) (cb : option CallbackId)
    (p : Page) :
  created_for v (attach u el cb p) = created_for v p.
Proof. reflexivity. Qed.

Lemma created_for_register_new (v u : string) (p : Page) :
  v <> u -> created_for v (register_new u p) = created_for v p.
Proof.
  intros Hne. unfold created_for, register_new, set_scripts, createElement.
  cbn [created fst snd]. rewrite List.filter_app, length_app. cbn [List.filter el_src].
  assert (String.eqb u v = false) as ->.
  { apply String.eqb_neq. congruence. }
  simpl. lia.
Qed.

Lemma loader_other_url (c : Closure) (p : Page) (v : string) :
  truthy_src (c_src c) <> Some v ->
  scripts (loader c p) !! v = scripts p !! v /\
  created_for v (loader c p) = created_for v p.
Proof.
  intros Hv.
  destruct (loader_cases c p) as [->|(u & Hu & _ & _ & H)]; [auto|].
  assert (u <> v) as Hne by congruence.
  destruct H as [(st & Hst & ->)|[(_ & _ & ex & Hq & ->)|(_ & _ & ->)]].
  - split; reflexivity.
  - split; [|reflexivity]. page_simpl. apply lookup_insert_ne, Hne.
  - split.
    + page_simpl. apply lookup_insert_ne, Hne.
    + rewrite created_for_attach. apply created_for_register_new. congruence.
Qed.

Lemma loadScript_other_url (params : Params) (cb : option CallbackId)
    (p : Page) (v : string) :
  truthy_src (src params) <> Some v ->
  scripts (snd (loadScript params cb p)) !! v = scripts p !! v /\
  created_for v (snd (loadScript params cb p)) = created_for v p.
Proof.
  intros Hv.
  destruct (loadScript_cases params cb p)
    as (q & snapshot & c & Hq & Hsrc & _ & _ & ->).
  assert (scripts q !! v = scripts p !! v /\ created_for v q = created_for v p)
    as [Hs Hc].
  { destruct Hq as [->|(u & ex & Hu & _ & _ & _ & _ & ->)]; [auto|].
    split; [|reflexivity]. page_simpl. apply lookup_insert_ne. congruence. }
  destruct (loadImmediate params); simpl; [|auto].
  destruct (loader_other_url c q v) as [Hs' Hc']; [rewrite Hsrc; exact Hv|].
  split; congruence.
Qed.

(** X9. One URL at a time.  A call of [loadScript], immediate or deferred,
    and an invocation of its trigger touch nothing that belongs to another
    URL: the registry entry of every other URL and the elements created for
    it are the same before and after. *)
Theorem loadScript_only_its_url (params : Params) (cb : option CallbackId)
    (p : Page) (v : string) :
  truthy_src (src params) <> Some v ->
  let r := loadScript params cb p in
  scripts (snd r) !! v = scripts p !! v /\
  created_for v (snd r) = created_for v p /\
  forall c q, snd (fst r) = Some c ->
              scripts (loader c q) !! v = scripts q !! v /\
              created_for v (loader c q) = created_for v q.
Proof.
  intros Hv r. destruct (loadScript_other_url params cb p v Hv) as [Hs Hc].
  split; [exact Hs|]. split; [exact Hc|].
  intros c q Hc0. apply loader_other_url.
  subst r.
  destruct (loadScript_cases params cb p)
    as (q0 & snapshot & c0 & _ & Hsrc & _ & _ & E).
  rewrite E in Hc0. destruct (loadImmediate params); simpl in Hc0;
    [discriminate|]. injection Hc0 as <-. rewrite Hsrc. exact Hv.
Qed.

Lemma dispatchEvent_created (target : nat) (d : DomEvent) (p : Page) :
  created (fst (dispatchEvent target d p)) = created p.
Proof.
  destruct d as [|ev].
  - apply (dispatchEvent_loaded target p).
  - rewrite (dispatchEvent_failed target ev p). reflexivity.
Qed.

(** *** The theorems above at work on a page *)

(** A script that has loaded; then a second call and an [error] event. *)
Lemma registry_entries_persist_witness :
  let a := {| src := Some "a.js"; checkForExisting := false;
              loadImmediate := true |} in
  let s := run [CallLoadScript a (Some 7); Fire 0 Loaded]
               {| page := initial_page true []; triggers := [] |} in
  exists st',
    scripts (page (run [CallLoadScript a (Some 8); Fire 0 (Failed 3)] s))
      !! "a.js" = Some st' /\
    scriptEl st' = {| el_id := 0; el_src := "a.js" |} /\
    error st' = None /\
    loading st' = false.
Proof.
  intros a s.
  destruct (registry_entries_persist
              [CallLoadScript a (Some 8); Fire 0 (Failed 3)] s "a.js"
              {| loading := false; error := None;
                 scriptEl := {| el_id := 0; el_src := "a.js" |} |})
    as (st' & H1 & H2 & H3 & H4).
  - vm_compute. reflexivity.
  - exists st'. split; [exact H1|]. split; [exact H2|]. split; [exact H3|].
    apply H4. reflexivity.
Defined.


(** On the server. *)
Lemma loadScript_nothing_to_do_witness :
  let params := {| src := Some "a.js"; checkForExisting := true;
                   loadImmediate := false |} in
  let p := initial_page false ["x.js"] in
  snd (loadScript params (Some 7) p) = p /\
  forall c q,
    snd (fst (loadScript params (Some 7) p)) = Some c ->
    isBrowser q = isBrowser p ->
    loader c q = q.
Proof.
  intros params p.
  apply (loadScript_nothing_to_do params (Some 7) p).
  left. reflexivity.
Defined.

(** A deferred call for a script the document already has. *)
Lemma deferred_call_loads_nothing_witness :
  let params := {| src := Some "a.js"; checkForExisting := true;
                   loadImmediate := false |} in
  let p := initial_page true ["a.js"] in
  let r := loadScript params (Some 7) p in
  (exists c, snd (fst r) = Some c) /\
  created (snd r) = created p /\
  document (snd r) = document p /\
  listeners (snd r) = listeners p /\
  next_elem (snd r) = next_elem p /\
  forall v, truthy_src (src params) <> Some v ->
            scripts (snd r) !! v = scripts p !! v.
Proof.
  intros params p.
  apply (deferred_call_loads_nothing params (Some 7) p).
  - reflexivity.
  - reflexivity.
Defined.


(** A second caller while the script is loading. *)
Lemma later_caller_joins_witness :
  let a := {| src := Some "a.js"; checkForExisting := false;
              loadImmediate := true |} in
  let p := snd (loadScript a (Some 7) (initial_page true [])) in
  let r := loadScript a (Some 8) p in
  created (snd r) = created p /\
  scripts (snd r) = scripts p /\
  next_elem (snd r) = next_elem p /\
  snd (dispatchEvent 0 Loaded (snd r))
  = [(7, {| snap_loading := false; snap_error := None |});
     (8, {| snap_loading := false; snap_error := None |})].
Proof.
  intros a p r.
  destruct (later_caller_joins "a.js" false 8
              {| loading := true; error := None;
                 scriptEl := {| el_id := 0; el_src := "a.js" |} |} p)
    as (H1 & H2 & H3 & H4).
  - reflexivity.
  - discriminate.
  - vm_compute. reflexivity.
  - reflexivity.
  - split; [exact H1|]. split; [exact H2|]. split; [exact H3|].
    exact (H4 Loaded).
Defined.

(** Loading "a.js" leaves "b.js" alone. *)
Lemma loadScript_only_its_url_witness :
  let params := {| src := Some "a.js"; checkForExisting := false;
                   loadImmediate := true |} in
  let p := initial_page true [] in
  let r := loadScript params (Some 7) p in
  scripts (snd r) !! "b.js" = scripts p !! "b.js" /\
  created_for "b.js" (snd r) = created_for "b.js" p /\
  forall c q, snd (fst r) = Some c ->
              scripts (loader c q) !! "b.js" = scripts q !! "b.js" /\
              created_for "b.js" (loader c q) = created_for "b.js" q.
Proof.
  intros params p.
  apply (loadScript_only_its_url params (Some 7) p "b.js").
  simpl. congruence.
Defined.

End LoaderMore.

(* ===================================================================== *)
(** ** More about chain identifiers                                       *)
(* ===================================================================== *)

Section ChainIdMore.

Import JS.

Local Open Scope Z_scope.

(** X10. The prefix is case sensitive and must come first.  A chain
    identifier written with an upper-case "0X", or with a space before
    "0x", is not read as hexadecimal: [parseChainId] reads it in base 10,
    which stops at the X, and returns 0 whatever follows. *)
Theorem parseChainId_other_prefixes (rest : string) :
  parseChainId (CString ("0X" +:+ rest)) = Num 0 /\
  parseChainId (CString (" 0x" +:+ rest)) = Num 0.
Proof. split; reflexivity. Qed.

Lemma digits_prefix_app (R : Z) (ds : list Z) (rest : string) :
  Forall (fun d => 0 <= d < 16 /\ d < R) ds ->
  digits_prefix R (numeral ds +:+ rest) = ds ++ digits_prefix R rest.
Proof.
  induction 1 as [|d ds [Hd HR] _ IH]; [reflexivity|].
  simpl. rewrite digit_value_digit_char by exact Hd.
  apply Z.ltb_lt in HR. rewrite HR, IH. reflexivity.
Qed.

(** X11. Reading stops at the first character that is not a digit.  For a
    string made of "0x", hexadecimal digits [ds] and a rest that does not
    begin with a hexadecimal digit, [parseChainId] returns the Number value
    of [ds] read in base 16, and [NaN] when there is no digit at all ("0x"
    alone, "0xzz"); for a string that does not begin with "0x", made of
    decimal digits [ds] and a rest that does not begin with a decimal
    digit, it returns the Number value of [ds] read in base 10 ("1.5"
    gives 1, "10abc" gives 10).  The Number value of [ds] is the integer
    [ds] denotes when that is below 2^53, and the nearest double beyond. *)
Theorem parseChainId_stops_at_non_digit (ds : list Z) (rest : string) :
  (Forall (fun d => 0 <= d < 16) ds ->
   digits_prefix 16 rest = [] ->
   parseChainId (CString ("0x" +:+ numeral ds +:+ rest))
   = match ds with [] => NaN | _ => of_integer (math_int 16 ds) end) /\
  (ds <> [] ->
   Forall (fun d => 0 <= d < 10) ds ->
   digits_prefix 10 rest = [] ->
   startsWith (numeral ds +:+ rest) "0x" = false ->
   parseChainId (CString (numeral ds +:+ rest))
   = of_integer (math_int 10 ds)) /\
  (forall R : Z,
      0 <= R -> Forall (fun d => 0 <= d < 16) ds ->
      math_int R ds < 2 ^ 53 ->
      of_integer (math_int R ds) = Num (math_int R ds)).
Proof.
  split; [|split].
  3: { intros R HR Hds Hlt. apply of_integer_exact. split; [|exact Hlt].
       apply math_int_nonneg; [exact HR|].
       eapply Forall_impl; [exact Hds|]. simpl. intros d Hd. lia. }
  - intros Hds Hrest. unfold parseChainId.
    assert (startsWith ("0x" +:+ numeral ds +:+ rest) "0x" = true) as ->.
    { unfold startsWith. cbn [String.append String.prefix].
      destruct (ascii_dec "0" "0"); [|congruence].
      destruct (ascii_dec "x" "x"); [|congruence].
      destruct (numeral ds +:+ rest); reflexivity. }
    assert (digits_prefix 16 (numeral ds +:+ rest) = ds) as Hp.
    { rewrite digits_prefix_app, Hrest, app_nil_r; [reflexivity|].
      eapply Forall_impl; [exact Hds|]. simpl. intros d Hd. lia. }
    unfold parseInt.
    change (trim_start ("0x" +:+ numeral ds +:+ rest))
      with (String "0" (String "x" (numeral ds +:+ rest))).
    change (sign_of (String "0" (String "x" (numeral ds +:+ rest)))) with 1.
    change (drop_sign (String "0" (String "x" (numeral ds +:+ rest))))
      with (String "0" (String "x" (numeral ds +:+ rest))).
    change (to_int32 16) with 16.
    change (negb (16 =? 0) && ((16 <? 2) || (36 <? 16))) with false.
    change ((16 =? 0) || (16 =? 16)) with true. cbv iota.
    change (drop_0x (String "0" (String "x" (numeral ds +:+ rest))))
      with (Some (numeral ds +:+ rest)).
    cbv iota beta zeta. rewrite Hp.
    destruct ds as [|d ds]; [reflexivity|]. f_equal. lia.
  - intros Hne Hds Hrest Hnot. unfold parseChainId. rewrite Hnot.
    assert (digits_prefix 10 (numeral ds +:+ rest) = ds) as Hp.
    { rewrite digits_prefix_app, Hrest, app_nil_r; [reflexivity|].
      eapply Forall_impl; [exact Hds|]. simpl. intros d Hd. lia. }
    destruct ds as [|d ds]; [congruence|].
    assert (0 <= d < 16) as Hd by (inversion Hds; subst; lia).
    destruct (numeral_head d (numeral ds +:+ rest) Hd) as (Ht & Hsign & Hstrip).
    unfold parseInt.
    change (numeral (d :: ds) +:+ rest)
      with (String (digit_char d) (numeral ds +:+ rest)) in *.
    rewrite Ht, Hsign, Hstrip. change (to_int32 10) with 10.
    change (negb (10 =? 0) && ((10 <? 2) || (36 <? 10))) with false.
    change ((10 =? 0) || (10 =? 16)) with false. cbv iota.
    change (10 =? 0) with false. cbv iota beta zeta.
    rewrite Hp. f_equal. lia.
Qed.

(** "0x10zz" is 16, "0x" alone is not a number, "1.5" is 1, and
    "0x20000000000001zz" (2^53 + 1) is 2^53. *)
Lemma parseChainId_stops_at_non_digit_witness :
  parseChainId (CString "0x10zz") = Num 16 /\
  parseChainId (CString "0x") = NaN /\
  parseChainId (CString "1.5") = Num 1 /\
  parseChainId (CString "0x20000000000001zz") = Num 9007199254740992 /\
  of_integer (math_int 16 [1; 0]) = Num (math_int 16 [1; 0]).
Proof.
  split; [|split; [|split; [|split]]];
    [| | | |apply (proj2 (proj2 (parseChainId_stops_at_non_digit [1; 0] "")));
            [lia|repeat constructor; lia|reflexivity]];
    [| | |apply (proj1 (parseChainId_stops_at_non_digit
                          [2; 0; 0; 0; 0; 0; 0; 0; 0; 0; 0; 0; 0; 1] "zz"));
          [repeat constructor; lia|reflexivity]].
  - apply (proj1 (parseChainId_stops_at_non_digit [1; 0] "zz")).
    + repeat constructor; lia.
    + reflexivity.
  - apply (proj1 (parseChainId_stops_at_non_digit [] "")).
    + constructor.
    + reflexivity.
  - apply (proj1 (proj2 (parseChainId_stops_at_non_digit [1] ".5"))).
    + discriminate.
    + repeat constructor; lia.
    + reflexivity.
    + reflexivity.
Defined.

End ChainIdMore.

(* ===================================================================== *)
(** ** More about the connector                                           *)
(* ===================================================================== *)

Section ConnectorMore.

Import Loader Connector.

(** *** What a computation logs *)

Section Logs.

Context (P : Event -> Prop).

Lemma logs_ret {A} (a : A) : logs_only P (ret a).
Proof. intros w. constructor. Qed.

Lemma logs_throw {A} (e : Error) : logs_only P (@throw A e).
Proof. intros w. constructor. Qed.

Lemma logs_get : logs_only P get.
Proof. intros w. constructor. Qed.

Lemma logs_modify (f : World -> World) : logs_only P (modify f).
Proof. intros w. constructor. Qed.

Lemma logs_call (ev : Event) : P ev -> logs_only P (call ev).
Proof. intros H w. repeat constructor. exact H. Qed.

Lemma logs_bind {A B} (m : Sync A) (k : A -> Sync B) :
  logs_only P m -> (forall a, logs_only P (k a)) -> logs_only P (bind m k).
Proof.
  intros Hm Hk w. unfold bind. specialize (Hm w).
  destruct (m w) as [[[a|e] w1] t1]; simpl in *; [|exact Hm].
  specialize (Hk a w1). destruct (k a w1) as [[r w2] t2]. simpl in *.
  rewrite Forall_app. auto.
Qed.

Lemma logs_new_Promise {A} (m : Sync (Promise A)) :
  logs_only P m -> logs_only P (new_Promise m).
Proof.
  intros Hm w. unfold new_Promise. specialize (Hm w).
  destruct (m w) as [[[a|e] w1] t1]; exact Hm.
Qed.

Lemma logs_then {A B} (p : Promise A) (f : A -> Sync (Promise B)) :
  (forall a, logs_only P (f a)) -> logs_only P (then_ p f).
Proof.
  intros Hf. destruct p; simpl;
    [apply logs_new_Promise, Hf|apply logs_ret..].
Qed.

Lemma logs_catch {A} (p : Promise A) (h : Error -> Sync (Promise A)) :
  (forall e, logs_only P (h e)) -> logs_only P (catch_ p h).
Proof.
  intros Hh. destruct p; simpl;
    [apply logs_ret|apply logs_new_Promise, Hh|apply logs_ret].
Qed.

Lemma logs_invoke {A} (ev : Event) (r : Returns A) :
  P ev -> logs_only P (invoke ev r).
Proof.
  intros H. unfold invoke. apply logs_bind; [apply logs_call, H|].
  intros _. destruct r; [apply logs_throw|apply logs_ret].
Qed.

End Logs.

Ltac logs_step :=
  first
    [ apply logs_ret | apply logs_throw | apply logs_get | apply logs_modify
    | apply logs_bind; [|intros ?]
    | apply logs_then; intros ?
    | apply logs_catch; intros ?
    | apply logs_new_Promise
    | apply logs_invoke
    | apply logs_call
    | match goal with
      | |- logs_only _ (match ?x with _ => _ end) => destruct x
      | |- logs_only _ (if ?x then _ else _) => destruct x
      end ].

Lemma logs_startActivation {A} (P : Event -> Prop) (k : Sync unit -> Sync A) :
  P StartActivation -> logs_only P (k (call CancelActivation)) ->
  logs_only P (bind startActivation k).
Proof.
  intros HP Hk w. unfold bind, startActivation, call, ret. simpl.
  specialize (Hk w). destruct (k _ w) as [[r w2] t2]. simpl in *.
  constructor; assumption.
Qed.

Lemma logs_load_executor (P : Event -> Prop) (env : Env) :
  logs_only P (load_executor env).
Proof. intros w. rewrite load_executor_silent. constructor. Qed.

Lemma logs_isomorphicInitialize (P : Event -> Prop) (env : Env) :
  P Web3Factory -> logs_only P (isomorphicInitialize env).
Proof.
  intros H. unfold isomorphicInitialize.
  repeat first [apply logs_load_executor | exact H | logs_step].
Qed.

Lemma logs_setProvider (P : Event -> Prop) (prov : Provider) :
  (forall name, P (On (provider_id prov) name)) -> logs_only P (setProvider prov).
Proof.
  intros H. unfold setProvider, on.
  repeat first [apply H | logs_step].
Qed.

Lemma logs_requestAccountsAndChainId (P : Event -> Prop) (env : Env)
    (prov : Provider) :
  (forall r, P (RequestSent (provider_id prov) r)) ->
  (forall u, P (Update u)) ->
  logs_only P (requestAccountsAndChainId env prov).
Proof.
  intros Hr Hu. unfold requestAccountsAndChainId, request, update.
  repeat first [apply Hr | apply Hu | logs_step].
Qed.

(** X12. [connectEagerly] never shows the onboarding dialog: whatever the
    SDK, the provider and the page do, it calls neither
    [createEthereumOnboarding] nor [handler.open()]. *)
Theorem connectEagerly_never_opens_onboarding (env : Env) (w : World) :
  Forall (fun ev => ~ opens_onboarding ev) (snd (connectEagerly env w)).
Proof.
  assert (logs_only (fun ev => ~ opens_onboarding ev) (connectEagerly env)) as H;
    [|apply H].
  unfold connectEagerly.
  apply logs_startActivation; [simpl; tauto|].
  repeat first
    [ apply logs_isomorphicInitialize
    | apply logs_setProvider; intros ?
    | apply logs_requestAccountsAndChainId; intros ?
    | logs_step
    | solve [simpl; tauto] ].
Qed.


(** *** Runs of [activate] and [connectEagerly], stage by stage *)

Lemma initialize_again (env : Env) (w : World) (first : Promise unit) :
  eagerConnection (this w) = Some first ->
  isomorphicInitialize env w = (Normal (Fulfilled tt), w, []).
Proof.
  intros H. unfold isomorphicInitialize, bind, get. rewrite H. reflexivity.
Qed.

Lemma activate_after_initialize (env : Env) (w w1 : World) (t1 : list Event) :
  isomorphicInitialize env w = (Normal (Fulfilled tt), w1, t1) ->
  activate env w
  = (let '(r1, w2, t2) := onboarding_executor w1 in
     let p1 := match r1 with Normal p => p | Throw e => Rejected e end in
     let '(r2, w3, t3) :=
       then_ p1 (fun prov => setProvider prov ;;;
                             requestAccountsAndChainId env prov) w2 in
     match r2 with
     | Normal (Rejected e) =>
         (Normal (Rejected e), w3,
          StartActivation :: t1 ++ t2 ++ t3 ++ [CancelActivation])
     | Normal p2 => (Normal p2, w3, StartActivation :: t1 ++ t2 ++ t3)
     | Throw e => (Throw e, w3, StartActivation :: t1 ++ t2 ++ t3)
     end).
Proof.
  intros E1. unfold activate, bind at 1. simpl.
  unfold bind at 1. rewrite E1.
  unfold bind at 1. simpl then_. unfold new_Promise at 1 2.
  destruct (onboarding_executor w1) as [[[p1|e1] w2] t2]; cbv zeta;
    unfold bind at 1;
    match goal with
    | |- context [then_ ?p ?f w2] =>
        destruct (then_ p f w2) as [[[p2|e2] w3] t3]; [|reflexivity]
    end;
    rewrite catch_cancel; destruct p2; simpl; rewrite ?app_nil_r; reflexivity.
Qed.

(** X13. The successful connect.  In a run of [activate] in which
    initialization and onboarding succeed, the provider accepts the
    subscriptions, [eth_accounts] resolves to a non-empty list,
    [eth_chainId] resolves and [update] accepts the result: the returned
    promise is fulfilled; the connector holds the provider and is wired to
    it; the calls are, in this order, the four subscriptions, the two
    requests and one [update] with the parsed chain identifier and the
    accounts; the activation is not cancelled. *)
Theorem activate_success (env : Env) (w w1 w2 : World) (t1 t2 : list Event)
    (prov : Provider) (ta tc : nat) (a : string) (accounts : list string)
    (c : ChainIdArg) :
  isomorphicInitialize env w = (Normal (Fulfilled tt), w1, t1) ->
  onboarding_executor w1 = (Normal (Fulfilled prov), w2, t2) ->
  (forall name, prov_on prov name = None) ->
  prov_request prov eth_accounts = Promised ta (Fulfilled (a :: accounts)) ->
  prov_request prov eth_chainId = Promised tc (Fulfilled c) ->
  update_throws env {| upd_chainId := Some (parseChainId c);
                       upd_accounts := Some (a :: accounts) |} = None ->
  activate env w
  = (Normal (Fulfilled tt), wire prov w2,
     StartActivation :: t1 ++ t2 ++
     [On (provider_id prov) connect; On (provider_id prov) disconnect;
      On (provider_id prov) chainChanged; On (provider_id prov) accountsChanged;
      RequestSent (provider_id prov) eth_accounts;
      RequestSent (provider_id prov) eth_chainId;
      Update {| upd_chainId := Some (parseChainId c);
                upd_accounts := Some (a :: accounts) |}]).
Proof.
  intros E1 E2 Hon Ha Hc Hu.
  rewrite (activate_after_initialize env w w1 t1 E1).
  rewrite E2. simpl then_. unfold new_Promise at 1.
  rewrite (bind_run _ _ _ _ _ _ (setProvider_accepted prov w2 Hon)).
  unfold requestAccountsAndChainId, request, invoke, bind, call, update.
  rewrite Ha, Hc. simpl. rewrite Hu. simpl. rewrite ?app_nil_r. reflexivity.
Qed.

(** X14. When onboarding does not hand over a provider.  After a successful
    initialization: if [createEthereumOnboarding] or [handler.open()]
    throws, or the SDK calls [onExit(error)], [activate] is rejected with
    that very error, the activation is cancelled, no provider is set and
    nothing is asked of any provider; if the SDK never calls back, the
    promise never settles and the activation is never cancelled. *)
Theorem activate_without_provider (env : Env) (w w1 : World)
    (t1 : list Event) (s : PlaidWeb3) :
  isomorphicInitialize env w = (Normal (Fulfilled tt), w1, t1) ->
  plaidWeb3 (this w1) = Some s ->
  let o := options (this w1) in
  match createEthereumOnboarding s o with
  | CreateThrows e =>
      activate env w
      = (Normal (Rejected e), w1,
         StartActivation :: t1 ++ [CreateEthereumOnboarding o; CancelActivation])
  | OpenThrows e | OnExit e =>
      activate env w
      = (Normal (Rejected e), w1,
         StartActivation :: t1 ++
         [CreateEthereumOnboarding o; OpenOnboarding; CancelActivation])
  | NoCallback =>
      activate env w
      = (Normal Pending, w1,
         StartActivation :: t1 ++ [CreateEthereumOnboarding o; OpenOnboarding])
  | OnSuccess _ => True
  end.
Proof.
  intros E1 Hs o.
  rewrite (activate_after_initialize env w w1 t1 E1).
  unfold onboarding_executor, bind, get, call, throw, ret.
  rewrite Hs. fold o.
  destruct (createEthereumOnboarding s o); simpl; try reflexivity; exact I.
Qed.



(** X16. No existing connection.  After a successful initialization, when
    the SDK knows no current provider for the configured chain, or knows one
    that reports itself inactive, [connectEagerly] is rejected with
    [Error('No existing connection')] and the activation is cancelled; the
    connector keeps the provider it had (none, the first time), subscribes
    to nothing and sends no request. *)
Theorem connectEagerly_no_existing_connection (env : Env) (w w1 : World)
    (t1 : list Event) (s : PlaidWeb3)
    (current : string -> Returns (option Provider)) (tick : nat) :
  isomorphicInitialize env w = (Normal (Fulfilled tt), w1, t1) ->
  plaidWeb3 (this w1) = Some s ->
  getCurrentEthereumProvider s = Some current ->
  let c := chain (options (this w1)) in
  (current c = Promised tick (Fulfilled None) ->
   connectEagerly env w
   = (Normal (Rejected (ErrorMsg "No existing connection")), w1,
      StartActivation :: t1 ++
      [GetCurrentEthereumProvider c; CancelActivation])) /\
  (forall (prov : Provider) (active : Provider -> Returns bool) (tick' : nat),
      current c = Promised tick (Fulfilled (Some prov)) ->
      isProviderActive s = Some active ->
      active prov = Promised tick' (Fulfilled false) ->
      connectEagerly env w
      = (Normal (Rejected (ErrorMsg "No existing connection")), w1,
         StartActivation :: t1 ++
         [GetCurrentEthereumProvider c; IsProviderActive (provider_id prov);
          CancelActivation])).
Proof.
  intros E1 Hs Hg c. split.
  - intros Hc. unfold connectEagerly, bind at 1. simpl. unfold bind at 1.
    rewrite E1. unfold bind, get, invoke, call, then_, new_Promise, throw, ret.
    rewrite Hs, Hg. fold c. rewrite Hc. simpl. reflexivity.
  - intros prov active tick' Hc Ha Hf.
    unfold connectEagerly, bind at 1. simpl. unfold bind at 1.
    rewrite E1. unfold bind, get, invoke, call, then_, new_Promise, throw, ret.
    rewrite Hs, Hg. fold c. rewrite Hc. simpl. rewrite Hs, Ha, Hf. simpl.
    reflexivity.
Qed.

(** X17. The successful eager connect.  After a successful initialization,
    when the SDK knows a current provider for the configured chain that
    reports itself active and accepts the subscriptions, [eth_accounts]
    resolves to a non-empty list, [eth_chainId] resolves and [update]
    accepts the result: [connectEagerly] is fulfilled, the connector holds
    that provider and is wired to it, and the calls end with one [update]
    carrying the parsed chain identifier and the accounts. *)
Theorem connectEagerly_success (env : Env) (w w1 : World) (t1 : list Event)
    (s : PlaidWeb3) (current : string -> Returns (option Provider))
    (active : Provider -> Returns bool) (prov : Provider)
    (tick tick' ta tc : nat) (a : string) (accounts : list string)
    (c : ChainIdArg) :
  isomorphicInitialize env w = (Normal (Fulfilled tt), w1, t1) ->
  plaidWeb3 (this w1) = Some s ->
  getCurrentEthereumProvider s = Some current ->
  current (chain (options (this w1))) = Promised tick (Fulfilled (Some prov)) ->
  isProviderActive s = Some active ->
  active prov = Promised tick' (Fulfilled true) ->
  (forall name, prov_on prov name = None) ->
  prov_request prov eth_accounts = Promised ta (Fulfilled (a :: accounts)) ->
  prov_request prov eth_chainId = Promised tc (Fulfilled c) ->
  update_throws env {| upd_chainId := Some (parseChainId c);
                       upd_accounts := Some (a :: accounts) |} = None ->
  connectEagerly env w
  = (Normal (Fulfilled tt), wire prov w1,
     StartActivation :: t1 ++
     [GetCurrentEthereumProvider (chain (options (this w1)));
      IsProviderActive (provider_id prov);
      On (provider_id prov) connect; On (provider_id prov) disconnect;
      On (provider_id prov) chainChanged; On (provider_id prov) accountsChanged;
      RequestSent (provider_id prov) eth_accounts;
      RequestSent (provider_id prov) eth_chainId;
      Update {| upd_chainId := Some (parseChainId c);
                upd_accounts := Some (a :: accounts) |}]).
Proof.
  intros E1 Hs Hg Hc Ha Hact Hon Hacc Hch Hu.
  unfold connectEagerly, bind at 1. simpl. unfold bind at 1. rewrite E1.
  unfold bind, get, invoke, call, then_, new_Promise, throw, ret.
  rewrite Hs, Hg, Hc. simpl. rewrite Hs, Ha, Hact. simpl.
  rewrite (setProvider_accepted prov w1 Hon). simpl.
  unfold requestAccountsAndChainId, request, invoke, bind, call, update,
    then_, new_Promise, ret.
  rewrite Hacc, Hch. simpl. rewrite Hu. simpl. rewrite ?app_nil_r.
  reflexivity.
Qed.


(** *** Initialization on a new page *)





Lemma load_executor_server (env : Env) (existing : list string)
    (o : Web3OnboardingOptions) (b : bool) :
  let w := fresh_world false existing o b in
  load_executor env w
  = (Normal Pending,
     {| this := this w; page := page w; wired := wired w;
        next_callback := S (next_callback w) |}, []).
Proof.
  intros w. unfold load_executor, loadScript, loader.
  cbn [src checkForExisting loadImmediate truthy_src PLAID_LINK_STABLE_URL
       c_src c_error].
  change (page w) with (initial_page false existing).
  unfold initial_page at 1 2 3. cbn [scripts isBrowser].
  rewrite lookup_empty. cbn [andb error c_error truthy_src negb isBrowser].
  reflexivity.
Qed.

Lemma stuck_connector (env : Env) (w : World) (first : Promise unit) :
  eagerConnection (this w) = Some first ->
  plaidWeb3 (this w) = None ->
  activate env w
  = (Normal (Rejected TypeError), w, [StartActivation; CancelActivation]) /\
  connectEagerly env w
  = (Normal (Rejected TypeError), w, [StartActivation; CancelActivation]).
Proof.
  intros Hf Hn. split.
  - rewrite (activate_after_initialize env w w [] (initialize_again env w first Hf)).
    unfold onboarding_executor, bind, get, throw. rewrite Hn.
    reflexivity.
  - unfold connectEagerly, bind at 1. simpl. unfold bind at 1.
    rewrite (initialize_again env w first Hf).
    unfold bind at 1. simpl then_. unfold new_Promise at 1, bind at 1, get.
    rewrite Hn. reflexivity.
Qed.

(** X19. Outside a browser.  On a new connector where there is no document
    (server-side rendering), the first [activate] or [connectEagerly]
    starts the activation and returns a promise that never settles: the
    script is never loaded, nothing is created, the activation is never
    cancelled.  Every later attempt on that connector is rejected with a
    [TypeError]. *)
Theorem connect_outside_browser (env : Env) (existing : list string)
    (o : Web3OnboardingOptions) (b : bool) :
  let w := fresh_world false existing o b in
  let w' :=
    {| this := {| options := o; onError := b; plaidWeb3 := None;
                  eagerConnection := Some Pending; provider := None |};
       page := page w; wired := []; next_callback := 1 |} in
  activate env w = (Normal Pending, w', [StartActivation]) /\
  connectEagerly env w = (Normal Pending, w', [StartActivation]) /\
  activate env w'
  = (Normal (Rejected TypeError), w', [StartActivation; CancelActivation]) /\
  connectEagerly env w'
  = (Normal (Rejected TypeError), w', [StartActivation; CancelActivation]).
Proof.
  intros w w'.
  assert (isomorphicInitialize env w = (Normal Pending, w', [])) as E.
  { unfold isomorphicInitialize, bind at 1, get.
    replace (eagerConnection (this w)) with (@None (Promise unit)) by reflexivity.
    unfold bind at 1, new_Promise at 1. subst w.
    rewrite (load_executor_server env existing o b). reflexivity. }
  split; [|split].
  - unfold activate, bind at 1. simpl. unfold bind at 1. rewrite E. reflexivity.
  - unfold connectEagerly, bind at 1. simpl. unfold bind at 1. rewrite E.
    reflexivity.
  - apply (stuck_connector env w' Pending); reflexivity.
Qed.


(** *** Provider events, all four *)

Lemma update_report (env : Env) (u : StateUpdate) (w : World) :
  exists r, update env u w = (r, w, [Update u]) /\
            ((forall u, update_throws env u = None) -> r = Normal tt).
Proof.
  unfold update, bind, call, throw, ret.
  destruct (update_throws env u) as [err|] eqn:E; simpl.
  - exists (Throw err). split; [reflexivity|].
    intros Hall. rewrite (Hall u) in E. discriminate.
  - exists (Normal tt). split; reflexivity.
Qed.

Lemma handler_report (env : Env) (e : ProviderEvent) (w : World) :
  exists r, handler env e w = (r, w, report (onError (this w)) e) /\
            ((forall u, update_throws env u = None) -> r = Normal tt).
Proof.
  destruct e as [c|err|c|accounts]; unfold handler, report.
  - apply update_report.
  - unfold resetState, bind, get, call, ret. simpl.
    destruct (onError (this w)); eexists; split; reflexivity.
  - apply update_report.
  - destruct accounts as [|a accounts]; simpl.
    + unfold resetState, call. eexists; split; reflexivity.
    + apply update_report.
Qed.

Lemma run_handlers_report (env : Env) (regs : list (nat * EventName))
    (pid : nat) (e : ProviderEvent) (w : World) :
  exists n r,
    run_handlers env regs pid e w
    = (r, w, concat (repeat (report (onError (this w)) e) n)) /\
    n <= count_handlers pid (event_name e) regs /\
    (1 <= count_handlers pid (event_name e) regs -> 1 <= n) /\
    ((forall u, update_throws env u = None) ->
     n = count_handlers pid (event_name e) regs /\ r = Normal tt).
Proof.
  induction regs as [|[pid' name] regs (n & r & IH & Hle & Hge & Hall)].
  - exists 0, (Normal tt). unfold count_handlers. simpl.
    split; [reflexivity|]. split; [lia|]. split; [lia|]. auto.
  - cbn [run_handlers]. unfold bind at 1. unfold count_handlers in *.
    cbn [List.filter fst snd].
    destruct (Nat.eqb pid' pid && same_name name (event_name e)).
    + destruct (handler_report env e w) as (r' & Hh & Hok). rewrite Hh.
      destruct r' as [[]|err].
      * rewrite IH. exists (S n), r. cbn [length repeat concat].
        split; [reflexivity|]. split; [lia|]. split; [lia|].
        intros Hu. destruct (Hall Hu) as [-> ->]. auto.
      * exists 1, (Throw err). cbn [length repeat concat]. rewrite app_nil_r.
        split; [reflexivity|]. split; [lia|]. split; [lia|].
        intros Hu. specialize (Hok Hu). discriminate.
    + unfold ret at 1. rewrite IH. exists n, r.
      split; [reflexivity|]. split; [exact Hle|]. split; [exact Hge|exact Hall].
Qed.

(** X20. What provider events tell.  When a provider emits one of the four
    events, each handler the connector has registered with it for that event
    runs in turn and makes exactly the calls of [report]: [connect] and
    [chainChanged] call [update] with the parsed chain identifier only,
    [disconnect] calls [resetState] and then [onError(error)] if that
    callback was given (and not otherwise), [accountsChanged] calls
    [resetState] or [update({accounts})].  At least one handler runs if one
    is registered, never more run than are registered, and when [update]
    never throws all of them run.  The connector's state is never changed
    by an event. *)
Theorem provider_events_reported (env : Env) (w : World) (pid : nat)
    (e : ProviderEvent) :
  exists n r,
    emit env pid e w
    = (r, w, concat (repeat (report (onError (this w)) e) n)) /\
    n <= count_handlers pid (event_name e) (wired w) /\
    (1 <= count_handlers pid (event_name e) (wired w) -> 1 <= n) /\
    ((forall u, update_throws env u = None) ->
     n = count_handlers pid (event_name e) (wired w) /\ r = Normal tt).
Proof.
  destruct (run_handlers_report env (wired w) pid e w) as (n & r & H & Hrest).
  exists n, r. split; [|exact Hrest].
  unfold emit, bind, get. rewrite H. reflexivity.
Qed.

Lemma count_handlers_app (pid : nat) (name : EventName)
    (l1 l2 : list (nat * EventName)) :
  count_handlers pid name (l1 ++ l2)
  = count_handlers pid name l1 + count_handlers pid name l2.
Proof. unfold count_handlers. rewrite List.filter_app, length_app. reflexivity. Qed.

Lemma setProvider_result (prov : Provider) (w w' : World) (t : list Event) :
  setProvider prov w = (Normal tt, w', t) -> w' = wire prov w.
Proof.
  unfold setProvider, on, bind, modify, call, throw.
  destruct (prov_on prov connect); [intros [=]|].
  destruct (prov_on prov disconnect); [intros [=]|].
  destruct (prov_on prov chainChanged); [intros [=]|].
  destruct (prov_on prov accountsChanged); [intros [=]|].
  simpl. intros [= <- _]. reflexivity.
Qed.

(** X21. Handlers pile up.  Every [setProvider] that returns registers one
    more handler for each of the four events with the provider and removes
    none: after it the provider holds, for every event, one handler more
    than before, and the handlers held by other providers are the same.  A
    connector that connects twice to the same provider object is told
    everything twice. *)
Theorem reconnect_adds_handlers (prov : Provider) (w w' : World)
    (t : list Event) :
  setProvider prov w = (Normal tt, w', t) ->
  (forall name,
      count_handlers (provider_id prov) name (wired w')
      = S (count_handlers (provider_id prov) name (wired w))) /\
  (forall pid name,
      pid <> provider_id prov ->
      count_handlers pid name (wired w') = count_handlers pid name (wired w)).
Proof.
  intros H. apply setProvider_result in H. subst w'. split.
  - intros name. cbn [wire wired]. rewrite !count_handlers_app.
    unfold count_handlers at 2 3 4 5. cbn [List.filter fst snd].
    rewrite Nat.eqb_refl. destruct name; cbn; lia.
  - intros pid name Hne. cbn [wire wired]. rewrite !count_handlers_app.
    unfold count_handlers at 2 3 4 5. cbn [List.filter fst snd].
    assert (Nat.eqb (provider_id prov) pid = false) as ->
      by (apply Nat.eqb_neq; congruence).
    cbn. lia.
Qed.

(** *** [deactivate] and [watchAsset] on a connected connector *)

Lemma setProvider_keeps_sdk (prov : Provider) (w w' : World) (t : list Event) :
  setProvider prov w = (Normal tt, w', t) ->
  plaidWeb3 (this w') = plaidWeb3 (this w).
Proof. intros H. apply setProvider_result in H. subst w'. reflexivity. Qed.

Lemma onboarding_executor_fulfilled (w w' : World) (prov : Provider)
    (t : list Event) :
  onboarding_executor w = (Normal (Fulfilled prov), w', t) ->
  w' = w /\ exists s, plaidWeb3 (this w) = Some s.
Proof.
  unfold onboarding_executor, bind, get, call, throw, ret.
  destruct (plaidWeb3 (this w)) as [s|]; [|discriminate].
  destruct (createEthereumOnboarding s (options (this w))); simpl;
    intros [= <- <- <-] || discriminate.
  all: split; [reflexivity|eauto].
Qed.

Lemma activate_fulfilled_sdk (env : Env) (w w' : World) (t : list Event) :
  activate env w = (Normal (Fulfilled tt), w', t) ->
  exists s, plaidWeb3 (this w') = Some s.
Proof.
  unfold activate. intros H.
  apply bind_inv in H as (cancel & w0 & t0 & t0' & Hs & H & _).
  injection Hs as <- <- _.
  apply bind_inv in H as (p0 & w1 & t1 & t1' & _ & H & _).
  apply bind_inv in H as (p1 & w2 & t2 & t2' & Hob & H & _).
  apply bind_inv in H as (p2 & w3 & t3 & t3' & Hthen & H & _).
  rewrite catch_cancel in H. destruct p2 as [[]|e|]; try discriminate.
  injection H as <- _.
  apply then_fulfilled_inv in Hthen as (prov & -> & Hbody).
  apply bind_inv in Hbody as ([] & w4 & t4 & t4' & Hset & Hreq & _).
  pose proof (requestAccountsAndChainId_world env prov w4) as Hw.
  rewrite Hreq in Hw. simpl in Hw. subst w4.
  rewrite (setProvider_keeps_sdk _ _ _ _ Hset).
  apply then_fulfilled_inv in Hob as ([] & _ & Hob).
  unfold new_Promise in Hob.
  destruct (onboarding_executor w1) as [[[q|e] w5] t5] eqn:E; [|discriminate].
  injection Hob as -> -> _.
  apply onboarding_executor_fulfilled in E as [Heq Hsdk]. subst. exact Hsdk.
Qed.

Lemma connectEagerly_fulfilled_sdk (env : Env) (w w' : World) (t : list Event) :
  connectEagerly env w = (Normal (Fulfilled tt), w', t) ->
  exists s, plaidWeb3 (this w') = Some s.
Proof.
  unfold connectEagerly. intros H.
  apply bind_inv in H as (cancel & w0 & t0 & t0' & Hs & H & _).
  injection Hs as <- <- _.
  apply bind_inv in H as (p0 & w1 & t1 & t1' & _ & H & _).
  apply bind_inv in H as (p1 & w2 & t2 & t2' & _ & H & _).
  apply bind_inv in H as (p2 & w3 & t3 & t3' & Hwire & H & _).
  apply bind_inv in H as (p3 & w4 & t4 & t4' & Hquery & H & _).
  rewrite catch_cancel in H. destruct p3 as [[]|e|]; try discriminate.
  injection H as <- _.
  apply then_fulfilled_inv in Hquery as ([] & -> & Hquery).
  apply bind_inv in Hquery as (w3' & w3'' & t5 & t5' & Hget & Hquery & _).
  injection Hget as <- <- _.
  destruct (provider (this w3)) as [prov'|] eqn:Hprov; [|discriminate].
  pose proof (requestAccountsAndChainId_world env prov' w3) as Hw.
  rewrite Hquery in Hw. simpl in Hw. subst w4.
  apply then_fulfilled_inv in Hwire as (oprov & _ & Hwire).
  apply bind_inv in Hwire as (w2' & w2'' & t6 & t6' & Hget & Hwire & _).
  injection Hget as <- <- _.
  destruct oprov as [prov|]; [|discriminate].
  destruct (plaidWeb3 (this w2)) as [s|] eqn:Hsdk; [|discriminate].
  destruct (isProviderActive s) as [f|]; [|discriminate].
  apply bind_inv in Hwire as (q & w5 & t7 & t7' & Hinv & Hwire & _).
  apply bind_inv in Hwire as (q' & w6 & t8 & t8' & Hact & Hwire & _).
  apply then_fulfilled_inv in Hwire as ([] & -> & Hwire).
  apply bind_inv in Hwire as ([] & w7 & t9 & t9' & Hset & Hret & _).
  injection Hret as <- _.
  rewrite (setProvider_keeps_sdk _ _ _ _ Hset).
  (* the world did not change between reading [plaidWeb3] and [setProvider] *)
  assert (w5 = w2) as ->.
  { unfold invoke, bind, call in Hinv. destruct (f prov); simpl in Hinv;
      [discriminate|]. injection Hinv as _ <- _. reflexivity. }
  apply then_fulfilled_inv in Hact as (connected & _ & Hact).
  assert (w6 = w2) as ->.
  { destruct connected; simpl in Hact; [|discriminate].
    injection Hact as <- _. reflexivity. }
  eauto.
Qed.

(** X22. Disconnecting what was connected.  On a connector without a
    provider or without the SDK namespace, [deactivate] is fulfilled at once
    and calls nothing.  After a successful [activate] or [connectEagerly]
    the connector holds both, and [deactivate] makes exactly one call,
    [disconnectEthereumProvider] on the connected provider: it returns the
    SDK's promise, or throws if the SDK throws; in no case does it call the
    action-reporting interface or change the connector. *)
Theorem deactivate_disconnects (env : Env) (w : World) :
  (provider (this w) = None \/ plaidWeb3 (this w) = None ->
   deactivate w = (Normal (Fulfilled tt), w, [])) /\
  (forall w0 t,
      activate env w0 = (Normal (Fulfilled tt), w, t) \/
      connectEagerly env w0 = (Normal (Fulfilled tt), w, t) ->
      exists prov s,
        provider (this w) = Some prov /\ plaidWeb3 (this w) = Some s /\
        deactivate w
        = (match disconnectEthereumProvider s prov with
           | Throws e => Throw e
           | Promised _ q => Normal q
           end, w, [DisconnectEthereumProvider (provider_id prov)])).
Proof.
  split.
  - intros H. unfold deactivate, bind, get.
    destruct H as [H|H]; rewrite H; [reflexivity|].
    destruct (provider (this w)); reflexivity.
  - intros w0 t H.
    assert (exists prov, provider (this w) = Some prov /\
                         In (provider_id prov, accountsChanged) (wired w))
      as (prov & Hp & _).
    { destruct H as [H|H];
        [eapply activate_fulfilled_wired|eapply connectEagerly_fulfilled_wired];
        exact H. }
    assert (exists s, plaidWeb3 (this w) = Some s) as (s & Hs).
    { destruct H as [H|H];
        [eapply activate_fulfilled_sdk|eapply connectEagerly_fulfilled_sdk];
        exact H. }
    exists prov, s. repeat split; try assumption.
    unfold deactivate, bind, get, invoke, call. rewrite Hp, Hs. simpl.
    destruct (disconnectEthereumProvider s prov); reflexivity.
Qed.

(** X23. Watching an asset.  With a provider set, [watchAsset] sends that
    provider exactly one request, [wallet_watchAsset] with the fixed type
    "ERC20" and the given address, symbol, decimals and image, and changes
    nothing of the connector; the promise it returns is fulfilled with
    [true] when the response is truthy, rejected with [Error('Rejected')]
    when it is falsy, and follows the provider's promise when that is
    rejected or never settles; if [request] itself throws, [watchAsset]
    throws. *)
Theorem watchAsset_asks_provider (w : World) (prov : Provider)
    (asset : WatchAssetOptions) :
  provider (this w) = Some prov ->
  let r := wallet_watchAsset [{| type := "ERC20"; wa_options := asset |}] in
  watchAsset asset w
  = (match prov_request prov r with
     | Throws e => Throw e
     | Promised _ (Fulfilled success) =>
         Normal (if truthy success then Fulfilled true
                 else Rejected (ErrorMsg "Rejected"))
     | Promised _ (Rejected e) => Normal (Rejected e)
     | Promised _ Pending => Normal Pending
     end,
     w, [RequestSent (provider_id prov) r]).
Proof. apply watchAsset_with_provider. Qed.


(** *** The connector on top of the loader *)

Section Preserves.

Context (I : World -> Prop).

Lemma preserves_ret {A} (a : A) : preserves I (ret a).
Proof. intros w H. exact H. Qed.

Lemma preserves_throw {A} (e : Error) : preserves I (@throw A e).
Proof. intros w H. exact H. Qed.

Lemma preserves_get : preserves I get.
Proof. intros w H. exact H. Qed.

Lemma preserves_call (ev : Event) : preserves I (call ev).
Proof. intros w H. exact H. Qed.

Lemma preserves_modify (f : World -> World) :
  (forall w, I w -> I (f w)) -> preserves I (modify f).
Proof. intros Hf w H. apply Hf, H. Qed.

Lemma preserves_bind {A B} (m : Sync A) (k : A -> Sync B) :
  preserves I m -> (forall a, preserves I (k a)) -> preserves I (bind m k).
Proof.
  intros Hm Hk w H. unfold bind. specialize (Hm w H).
  destruct (m w) as [[[a|e] w1] t1]; simpl in *; [|exact Hm].
  specialize (Hk a w1 Hm). destruct (k a w1) as [[r w2] t2]. exact Hk.
Qed.

Lemma preserves_new_Promise {A} (m : Sync (Promise A)) :
  preserves I m -> preserves I (new_Promise m).
Proof.
  intros Hm w H. unfold new_Promise. specialize (Hm w H).
  destruct (m w) as [[[a|e] w1] t1]; exact Hm.
Qed.

Lemma preserves_then {A B} (p : Promise A) (f : A -> Sync (Promise B)) :
  (forall a, preserves I (f a)) -> preserves I (then_ p f).
Proof.
  intros Hf. destruct p; simpl;
    [apply preserves_new_Promise, Hf|apply preserves_ret..].
Qed.

Lemma preserves_catch {A} (p : Promise A) (h : Error -> Sync (Promise A)) :
  (forall e, preserves I (h e)) -> preserves I (catch_ p h).
Proof.
  intros Hh. destruct p; simpl;
    [apply preserves_ret|apply preserves_new_Promise, Hh|apply preserves_ret].
Qed.

Lemma preserves_invoke {A} (ev : Event) (r : Returns A) :
  preserves I (invoke ev r).
Proof.
  unfold invoke. apply preserves_bind; [apply preserves_call|].
  intros _. destruct r; [apply preserves_throw|apply preserves_ret].
Qed.

Lemma preserves_startActivation {A} (k : Sync unit -> Sync A) :
  preserves I (k (call CancelActivation)) -> preserves I (bind startActivation k).
Proof.
  intros Hk w H. unfold bind, startActivation, call, ret. simpl.
  specialize (Hk w H). destruct (k _ w) as [[r w2] t2]. exact Hk.
Qed.

End Preserves.

Ltac preserves_step :=
  first
    [ apply preserves_ret | apply preserves_throw | apply preserves_get
    | apply preserves_call | apply preserves_invoke
    | apply preserves_bind; [|intros ?]
    | apply preserves_then; intros ?
    | apply preserves_catch; intros ?
    | apply preserves_new_Promise
    | match goal with
      | |- preserves _ (match ?x with _ => _ end) => destruct x
      | |- preserves _ (if ?x then _ else _) => destruct x
      end ].

Lemma only_plaid_same_page (w0 w w' : World) :
  page w' = page w -> only_plaid_script w0 w -> only_plaid_script w0 w'.
Proof. unfold only_plaid_script. intros ->. auto. Qed.

Lemma preserves_load_executor (env : Env) (w0 : World) :
  preserves (only_plaid_script w0) (load_executor env).
Proof.
  intros w [Hreg Hother]. unfold load_executor.
  set (params := {| src := Some PLAID_LINK_STABLE_URL; checkForExisting := true;
                    loadImmediate := true |}).
  pose proof (loadScript_registered params (Some (next_callback w)) (page w) Hreg)
    as Hreg1.
  assert (forall v, v <> PLAID_LINK_STABLE_URL ->
            created_for v (snd (loadScript params (Some (next_callback w)) (page w)))
            = created_for v (page w0)) as Hother1.
  { intros v Hv. rewrite <- (Hother v Hv).
    apply loadScript_other_url. simpl. congruence. }
  destruct (loadScript params (Some (next_callback w)) (page w)) as [r page1].
  cbn [snd] in Hreg1, Hother1.
  assert (forall target d,
            only_plaid_script w0
              (set_page (fst (dispatchEvent target d page1))
                 {| this := this w; page := page1; wired := wired w;
                    next_callback := S (next_callback w) |})) as Hfire.
  { intros target d. split; cbn [set_page page].
    - apply dispatchEvent_registered, Hreg1.
    - intros v Hv. unfold created_for. rewrite dispatchEvent_created.
      apply (Hother1 v Hv). }
  destruct (List.find _ (listeners page1)) as [l|]; [|split; assumption].
  destruct (script_fate env (l_target l)) as [|ev|]; [| |split; assumption].
  - specialize (Hfire (l_target l) Loaded).
    destruct (dispatchEvent (l_target l) Loaded page1). exact Hfire.
  - specialize (Hfire (l_target l) (Failed ev)).
    destruct (dispatchEvent (l_target l) (Failed ev) page1). exact Hfire.
Qed.

Ltac preserves_page :=
  repeat first
    [ apply preserves_load_executor
    | apply preserves_startActivation
    | match goal with |- preserves _ (modify _) => idtac end;
      apply preserves_modify; intros ? ?;
      eapply only_plaid_same_page; [reflexivity|eassumption]
    | preserves_step ].

Lemma preserves_isomorphicInitialize (env : Env) (w0 : World) :
  preserves (only_plaid_script w0) (isomorphicInitialize env).
Proof. unfold isomorphicInitialize. preserves_page. Qed.

Lemma preserves_setProvider (prov : Provider) (w0 : World) :
  preserves (only_plaid_script w0) (setProvider prov).
Proof. unfold setProvider, on. preserves_page. Qed.

Lemma preserves_requestAccountsAndChainId (env : Env) (prov : Provider)
    (w0 : World) :
  preserves (only_plaid_script w0) (requestAccountsAndChainId env prov).
Proof. unfold requestAccountsAndChainId, request, update. preserves_page. Qed.

Lemma preserves_activate (env : Env) (w0 : World) :
  preserves (only_plaid_script w0) (activate env).
Proof.
  unfold activate, onboarding_executor.
  repeat first
    [ apply preserves_isomorphicInitialize | apply preserves_setProvider
    | apply preserves_requestAccountsAndChainId | progress preserves_page ].
Qed.

Lemma preserves_connectEagerly (env : Env) (w0 : World) :
  preserves (only_plaid_script w0) (connectEagerly env).
Proof.
  unfold connectEagerly.
  repeat first
    [ apply preserves_isomorphicInitialize | apply preserves_setProvider
    | apply preserves_requestAccountsAndChainId | progress preserves_page ].
Qed.

Lemma watchAsset_world (asset : WatchAssetOptions) (w : World) :
  snd (fst (watchAsset asset w)) = w.
Proof.
  destruct (provider (this w)) as [prov|] eqn:Hp.
  - rewrite (watchAsset_with_provider w prov asset Hp). reflexivity.
  - rewrite (watchAsset_without_provider w asset Hp). reflexivity.
Qed.

Lemma run_call_only_plaid (env : Env) (w0 w : World) (c : ConnectorCall) :
  only_plaid_script w0 w -> only_plaid_script w0 (run_call env w c).
Proof.
  intros H. destruct c as [| | |asset|pid e]; simpl.
  - apply preserves_activate, H.
  - apply preserves_connectEagerly, H.
  - rewrite deactivate_world. exact H.
  - rewrite watchAsset_world. exact H.
  - rewrite emit_world. exact H.
Qed.

Lemma run_calls_only_plaid (env : Env) (w0 : World) (calls : list ConnectorCall)
    (w : World) :
  only_plaid_script w0 w -> only_plaid_script w0 (run_calls env calls w).
Proof.
  revert w. unfold run_calls.
  induction calls as [|c calls IH]; intros w H; simpl; [exact H|].
  apply IH, run_call_only_plaid, H.
Qed.

(** X24. One script for the connector.  Over any sequence of [activate],
    [connectEagerly], [deactivate] and [watchAsset] calls and provider
    events on a connector created on a new page, the loader is only ever
    asked for the onboarding script: at most one script element is created
    for its URL and none for any other URL. *)
Theorem connector_creates_one_script (env : Env) (calls : list ConnectorCall)
    (browser : bool) (existing : list string) (o : Web3OnboardingOptions)
    (b : bool) (u : string) :
  created_for u (page (run_calls env calls (fresh_world browser existing o b)))
  <= if String.eqb u PLAID_LINK_STABLE_URL then 1 else 0.
Proof.
  set (w0 := fresh_world browser existing o b).
  assert (only_plaid_script w0 (run_calls env calls w0)) as [Hreg Hother].
  { apply run_calls_only_plaid.
    split; [apply initial_page_registered|reflexivity]. }
  destruct (String.eqb u PLAID_LINK_STABLE_URL) eqn:E.
  - apply created_registered_le_1, Hreg.
  - rewrite Hother by (apply String.eqb_neq, E). reflexivity.
Qed.


Lemma only_grows_refl (w : World) : only_grows w w.
Proof. repeat split; auto. exists []. rewrite app_nil_r. reflexivity. Qed.

Lemma only_grows_same (w0 w w' : World) :
  this w' = this w -> wired w' = wired w ->
  only_grows w0 w -> only_grows w0 w'.
Proof. unfold only_grows. intros -> ->. auto. Qed.

Lemma load_executor_frame (env : Env) (w : World) :
  this (snd (fst (load_executor env w))) = this w /\
  wired (snd (fst (load_executor env w))) = wired w.
Proof.
  unfold load_executor.
  destruct (loadScript _ _ (page w)) as [r page1].
  destruct (List.find _ (listeners page1)) as [l|]; [|split; reflexivity].
  destruct (script_fate env (l_target l)); [| |split; reflexivity].
  - destruct (dispatchEvent (l_target l) Loaded page1). split; reflexivity.
  - destruct (dispatchEvent (l_target l) (Failed ev) page1). split; reflexivity.
Qed.

Lemma grows_load_executor (env : Env) (w0 : World) :
  preserves (only_grows w0) (load_executor env).
Proof.
  intros w H. destruct (load_executor_frame env w) as [Ht Hw].
  exact (only_grows_same _ _ _ Ht Hw H).
Qed.

Ltac grows_modify :=
  match goal with |- preserves _ (modify _) => idtac end;
  apply preserves_modify;
  let w := fresh "w" in
  let H := fresh "H" in
  intros w H;
  destruct H as (Ho & He & Hs & Hi & Hp & more & Hw);
  unfold only_grows; cbn [set_this this wired options onError plaidWeb3
                          eagerConnection provider];
  repeat split; try assumption; try (intros _; eexists; reflexivity);
  try (rewrite Hw, <- app_assoc; eexists; reflexivity);
  try (eexists; exact Hw).

Ltac grows_all :=
  repeat first
    [ apply grows_load_executor
    | apply preserves_startActivation
    | grows_modify
    | preserves_step ].

Lemma grows_isomorphicInitialize (env : Env) (w0 : World) :
  preserves (only_grows w0) (isomorphicInitialize env).
Proof. unfold isomorphicInitialize. grows_all. Qed.

Lemma grows_setProvider (prov : Provider) (w0 : World) :
  preserves (only_grows w0) (setProvider prov).
Proof. unfold setProvider, on. grows_all. Qed.

Lemma grows_requestAccountsAndChainId (env : Env) (prov : Provider)
    (w0 : World) :
  preserves (only_grows w0) (requestAccountsAndChainId env prov).
Proof. unfold requestAccountsAndChainId, request, update. grows_all. Qed.

Lemma grows_activate (env : Env) (w0 : World) :
  preserves (only_grows w0) (activate env).
Proof.
  unfold activate, onboarding_executor.
  repeat first
    [ apply grows_isomorphicInitialize | apply grows_setProvider
    | apply grows_requestAccountsAndChainId | progress grows_all ].
Qed.

Lemma grows_connectEagerly (env : Env) (w0 : World) :
  preserves (only_grows w0) (connectEagerly env).
Proof.
  unfold connectEagerly.
  repeat first
    [ apply grows_isomorphicInitialize | apply grows_setProvider
    | apply grows_requestAccountsAndChainId | progress grows_all ].
Qed.

Lemma run_call_grows (env : Env) (w0 w : World) (c : ConnectorCall) :
  only_grows w0 w -> only_grows w0 (run_call env w c).
Proof.
  intros H. destruct c as [| | |asset|pid e]; simpl.
  - apply grows_activate, H.
  - apply grows_connectEagerly, H.
  - rewrite deactivate_world. exact H.
  - rewrite watchAsset_world. exact H.
  - rewrite emit_world. exact H.
Qed.

(** X25. The connector never lets go.  Over any sequence of [activate],
    [connectEagerly], [deactivate] and [watchAsset] calls and provider
    events (a [disconnect] event included), no field of the connector is
    ever cleared and no handler is ever unregistered: the options and the
    error callback stay the same, a provider, an SDK namespace and an
    initialization promise that were set are still set, and the handlers
    registered with providers are all still there, in order. *)
Theorem connector_never_lets_go (env : Env) (calls : list ConnectorCall)
    (w : World) :
  only_grows w (run_calls env calls w).
Proof.
  assert (forall w0 w1, only_grows w0 w1 ->
                        only_grows w0 (run_calls env calls w1)) as H.
  { intros w0. unfold run_calls.
    induction calls as [|c calls IH]; intros w1 H1; simpl; [exact H1|].
    apply IH, run_call_grows, H1. }
  apply H, only_grows_refl.
Qed.

(** *** The theorems above in the scenarios *)

(** The spec's scenario: one account on chain "0x1". *)
Lemma activate_success_witness :
  let env := Scenario.browser_env FiresLoad
               (Scenario.sdk (OnSuccess Scenario.good_wallet) None) in
  snd (activate env Scenario.world0)
  = StartActivation :: [Web3Factory] ++
    [CreateEthereumOnboarding Scenario.mainnet; OpenOnboarding] ++
    [On 1 connect; On 1 disconnect; On 1 chainChanged; On 1 accountsChanged;
     RequestSent 1 eth_accounts; RequestSent 1 eth_chainId;
     Update {| upd_chainId := Some (JS.Num 1);
               upd_accounts := Some ["0xabc"] |}].
Proof.
  intros env.
  rewrite (activate_success env Scenario.world0
             (snd (fst (isomorphicInitialize env Scenario.world0)))
             (snd (fst (onboarding_executor
                          (snd (fst (isomorphicInitialize env Scenario.world0))))))
             [Web3Factory]
             [CreateEthereumOnboarding Scenario.mainnet; OpenOnboarding]
             Scenario.good_wallet 0 1 "0xabc" [] (CString "0x1")).
  - reflexivity.
  - vm_compute. reflexivity.
  - vm_compute. reflexivity.
  - intros name. reflexivity.
  - reflexivity.
  - reflexivity.
  - reflexivity.
Defined.

(** The user closes the onboarding dialog. *)
Lemma activate_without_provider_witness :
  let s := Scenario.sdk (OnExit (Foreign 9)) None in
  let env := Scenario.browser_env FiresLoad s in
  let w1 := snd (fst (isomorphicInitialize env Scenario.world0)) in
  activate env Scenario.world0
  = (Normal (Rejected (Foreign 9)), w1,
     StartActivation :: [Web3Factory] ++
     [CreateEthereumOnboarding (options (this w1)); OpenOnboarding;
      CancelActivation]).
Proof.
  intros s env w1.
  apply (activate_without_provider env Scenario.world0 w1 [Web3Factory] s).
  - vm_compute. reflexivity.
  - vm_compute. reflexivity.
Defined.


(** An SDK that knows no provider, and one whose provider is inactive. *)
Lemma connectEagerly_no_existing_connection_witness :
  let s := Scenario.sdk NoCallback None in
  let env := Scenario.browser_env FiresLoad s in
  let w1 := snd (fst (isomorphicInitialize env Scenario.world0)) in
  let s' :=
    {| createEthereumOnboarding := fun _ => NoCallback;
       getCurrentEthereumProvider :=
         Some (fun _ => Promised 0 (Fulfilled (Some Scenario.good_wallet)));
       isProviderActive := Some (fun _ => Promised 0 (Fulfilled false));
       disconnectEthereumProvider := fun _ => Promised 0 (Fulfilled tt) |} in
  let env' := Scenario.browser_env FiresLoad s' in
  let w1' := snd (fst (isomorphicInitialize env' Scenario.world0)) in
  connectEagerly env Scenario.world0
  = (Normal (Rejected (ErrorMsg "No existing connection")), w1,
     StartActivation :: [Web3Factory] ++
     [GetCurrentEthereumProvider (chain (options (this w1)));
      CancelActivation]) /\
  connectEagerly env' Scenario.world0
  = (Normal (Rejected (ErrorMsg "No existing connection")), w1',
     StartActivation :: [Web3Factory] ++
     [GetCurrentEthereumProvider (chain (options (this w1')));
      IsProviderActive (provider_id Scenario.good_wallet);
      CancelActivation]).
Proof.
  intros s env w1 s' env' w1'. split.
  - apply (proj1 (connectEagerly_no_existing_connection env Scenario.world0 w1
                    [Web3Factory] s (fun _ => Promised 0 (Fulfilled None)) 0
                    ltac:(vm_compute; reflexivity)
                    ltac:(vm_compute; reflexivity)
                    ltac:(reflexivity))).
    reflexivity.
  - apply (proj2 (connectEagerly_no_existing_connection env' Scenario.world0
                    w1' [Web3Factory] s'
                    (fun _ => Promised 0 (Fulfilled (Some Scenario.good_wallet)))
                    0
                    ltac:(vm_compute; reflexivity)
                    ltac:(vm_compute; reflexivity)
                    ltac:(reflexivity))
             Scenario.good_wallet (fun _ => Promised 0 (Fulfilled false)) 0).
    + reflexivity.
    + reflexivity.
    + reflexivity.
Defined.

(** The wallet of the spec's scenario is already connected. *)
Lemma connectEagerly_success_witness :
  let s := Scenario.sdk NoCallback (Some Scenario.good_wallet) in
  let env := Scenario.browser_env FiresLoad s in
  fst (fst (connectEagerly env Scenario.world0)) = Normal (Fulfilled tt) /\
  provider (this (snd (fst (connectEagerly env Scenario.world0))))
  = Some Scenario.good_wallet.
Proof.
  intros s env.
  rewrite (connectEagerly_success env Scenario.world0
             (snd (fst (isomorphicInitialize env Scenario.world0)))
             [Web3Factory] s
             (fun _ => Promised 0 (Fulfilled (Some Scenario.good_wallet)))
             (fun _ => Promised 0 (Fulfilled true))
             Scenario.good_wallet 0 0 0 1 "0xabc" [] (CString "0x1")).
  - split; reflexivity.
  - vm_compute. reflexivity.
  - vm_compute. reflexivity.
  - reflexivity.
  - reflexivity.
  - reflexivity.
  - reflexivity.
  - intros name. reflexivity.
  - reflexivity.
  - reflexivity.
  - reflexivity.
Defined.


(** The wallet of the spec's scenario emits [chainChanged] after a
    successful connect, in surroundings whose [update] never throws. *)
Lemma provider_events_reported_witness :
  let env := Scenario.browser_env FiresLoad
               (Scenario.sdk (OnSuccess Scenario.good_wallet) None) in
  let w := snd (fst (activate env Scenario.world0)) in
  emit env 1 (EmitChainChanged "0x89") w
  = (Normal tt, w,
     [Update {| upd_chainId := Some (JS.Num 137); upd_accounts := None |}]).
Proof.
  intros env w.
  destruct (provider_events_reported env w 1 (EmitChainChanged "0x89"))
    as (n & r & H & _ & _ & Hall).
  destruct Hall as [Hn Hr]; [intros u; reflexivity|].
  rewrite H, Hn, Hr. vm_compute. reflexivity.
Defined.

(** The first [setProvider] on a new connector. *)
Lemma reconnect_adds_handlers_witness :
  let w' := snd (fst (setProvider Scenario.good_wallet Scenario.world0)) in
  (forall name,
      count_handlers 1 name (wired w')
      = S (count_handlers 1 name (wired Scenario.world0))) /\
  (forall pid name,
      pid <> 1 ->
      count_handlers pid name (wired w')
      = count_handlers pid name (wired Scenario.world0)).
Proof.
  intros w'.
  apply (reconnect_adds_handlers Scenario.good_wallet Scenario.world0 w'
           (snd (setProvider Scenario.good_wallet Scenario.world0))).
  vm_compute. reflexivity.
Defined.

(** [deactivate] on a new connector, and after the spec's scenario. *)
Lemma deactivate_disconnects_witness :
  let env := Scenario.browser_env FiresLoad
               (Scenario.sdk (OnSuccess Scenario.good_wallet) None) in
  let w := snd (fst (activate env Scenario.world0)) in
  deactivate Scenario.world0 = (Normal (Fulfilled tt), Scenario.world0, []) /\
  exists prov s,
    provider (this w) = Some prov /\ plaidWeb3 (this w) = Some s /\
    deactivate w
    = (match disconnectEthereumProvider s prov with
       | Throws e => Throw e
       | Promised _ q => Normal q
       end, w, [DisconnectEthereumProvider (provider_id prov)]).
Proof.
  intros env w. split.
  - apply (proj1 (deactivate_disconnects env Scenario.world0)).
    left. reflexivity.
  - apply (proj2 (deactivate_disconnects env w) Scenario.world0
             (snd (activate env Scenario.world0))).
    left. vm_compute. reflexivity.
Defined.

(** After the spec's scenario, the application asks to watch a token. *)
Lemma watchAsset_asks_provider_witness :
  let env := Scenario.browser_env FiresLoad
               (Scenario.sdk (OnSuccess Scenario.good_wallet) None) in
  let w := snd (fst (activate env Scenario.world0)) in
  let asset := {| address := "0xdead"; symbol := Some "TKN";
                  decimals := Some 18%Z; image := None |} in
  watchAsset asset w
  = (Normal (Fulfilled true), w,
     [RequestSent 1
        (wallet_watchAsset [{| type := "ERC20"; wa_options := asset |}])]).
Proof.
  intros env w asset.
  apply (watchAsset_asks_provider w Scenario.good_wallet asset).
  vm_compute. reflexivity.
Defined.

End ConnectorMore.

(* ===================================================================== *)
(** ** Failures of the two connecting operations                          *)
(* ===================================================================== *)

Section FailureFacts.

Import Loader Connector.

(** [connectEagerly] is the chain of its stages. *)
Lemma connectEagerly_stages (env : Env) :
  connectEagerly env
  = (cancelActivation <- startActivation ;;
     p <- isomorphicInitialize env ;;
     p <- then_ p (fun _ => lookup_provider) ;;
     p <- then_ p adopt_if_active ;;
     p <- then_ p (fun _ =>
            w <- get ;;
            match provider (this w) with
            | None => throw TypeError
            | Some prov => requestAccountsAndChainId env prov
            end) ;;
     catch_ p (fun error => cancelActivation ;;; throw error)).
Proof. reflexivity. Qed.

(** A stage that fails rejects the promise of its [.then]. *)
Lemma then_fails {A B} (a : A) (f : A -> Sync (Promise B)) (w w' : World)
    (r : Completion (Promise B)) (t : list Event) (e : Error) :
  f a w = (r, w', t) -> fails_with r e ->
  then_ (Fulfilled a) f w = (Normal (Rejected e), w', t).
Proof.
  intros E [->| ->]; simpl; unfold new_Promise; rewrite E; reflexivity.
Qed.

Lemma then_passes {A B} (a : A) (f : A -> Sync (Promise B)) (w w' : World)
    (p : Promise B) (t : list Event) :
  f a w = (Normal p, w', t) ->
  then_ (Fulfilled a) f w = (Normal p, w', t).
Proof. intros E. simpl. unfold new_Promise. rewrite E. reflexivity. Qed.

(** The end of both chains once a promise of the chain is rejected: the
    remaining [.then] callbacks are skipped and the [.catch] cancels. *)
Lemma activate_from_initialize (env : Env) (w w1 : World) (t1 : list Event)
    (p : Promise unit) :
  isomorphicInitialize env w = (Normal p, w1, t1) ->
  activate env w
  = (let '(r2, w2, t2) := then_ p (fun _ => new_Promise onboarding_executor) w1 in
     match r2 with
     | Throw e => (Throw e, w2, StartActivation :: t1 ++ t2)
     | Normal p2 =>
         let '(r3, w3, t3) :=
           then_ p2 (fun prov => setProvider prov ;;;
                                 requestAccountsAndChainId env prov) w2 in
         match r3 with
         | Throw e => (Throw e, w3, StartActivation :: t1 ++ t2 ++ t3)
         | Normal p3 =>
             let '(r4, w4, t4) :=
               catch_ p3 (fun error => call CancelActivation ;;; throw error) w3 in
             (r4, w4, StartActivation :: t1 ++ t2 ++ t3 ++ t4)
         end
     end).
Proof.
  intros E1. unfold activate, bind at 1. simpl.
  unfold bind at 1. rewrite E1.
  unfold bind at 1.
  destruct (then_ p _ w1) as [[[p2|e2] w2] t2]; [|reflexivity].
  unfold bind at 1.
  destruct (then_ p2 _ w2) as [[[p3|e3] w3] t3]; [|reflexivity].
  destruct (catch_ p3 _ w3) as [[r4 w4] t4]. reflexivity.
Qed.

Lemma connectEagerly_from_initialize (env : Env) (w w1 : World)
    (t1 : list Event) (p : Promise unit) :
  isomorphicInitialize env w = (Normal p, w1, t1) ->
  connectEagerly env w
  = (let '(r2, w2, t2) := then_ p (fun _ => lookup_provider) w1 in
     match r2 with
     | Throw e => (Throw e, w2, StartActivation :: t1 ++ t2)
     | Normal p2 =>
         let '(r3, w3, t3) := then_ p2 adopt_if_active w2 in
         match r3 with
         | Throw e => (Throw e, w3, StartActivation :: t1 ++ t2 ++ t3)
         | Normal p3 =>
             let '(r4, w4, t4) :=
               then_ p3 (fun _ =>
                 w <- get ;;
                 match provider (this w) with
                 | None => throw TypeError
                 | Some prov => requestAccountsAndChainId env prov
                 end) w3 in
             match r4 with
             | Throw e => (Throw e, w4, StartActivation :: t1 ++ t2 ++ t3 ++ t4)
             | Normal p4 =>
                 let '(r5, w5, t5) :=
                   catch_ p4 (fun error => call CancelActivation ;;; throw error)
                          w4 in
                 (r5, w5, StartActivation :: t1 ++ t2 ++ t3 ++ t4 ++ t5)
             end
         end
     end).
Proof.
  intros E1. rewrite connectEagerly_stages. unfold bind at 1. simpl.
  unfold bind at 1. rewrite E1.
  unfold bind at 1.
  destruct (then_ p _ w1) as [[[p2|e2] w2] t2]; [|reflexivity].
  unfold bind at 1.
  destruct (then_ p2 _ w2) as [[[p3|e3] w3] t3]; [|reflexivity].
  unfold bind at 1.
  destruct (then_ p3 _ w3) as [[[p4|e4] w4] t4]; [|reflexivity].
  destruct (catch_ p4 _ w4) as [[r5 w5] t5]. reflexivity.
Qed.

Lemma queries_from (env : Env) (w3 : World) (prov : Provider) :
  provider (this w3) = Some prov ->
  (w <- get ;;
   match provider (this w) with
   | None => throw TypeError
   | Some prov => requestAccountsAndChainId env prov
   end) w3
  = requestAccountsAndChainId env prov w3.
Proof.
  intros H. unfold bind at 1, get. rewrite H.
  destruct (requestAccountsAndChainId env prov w3) as [[r w'] t]. reflexivity.
Qed.

(** When the second stage of [connectEagerly] succeeds, a provider was
    found and [setProvider] has stored it. *)
Lemma adopt_if_active_fulfilled (found : option Provider) (w2 w3 : World)
    (t3 : list Event) :
  adopt_if_active found w2 = (Normal (Fulfilled tt), w3, t3) ->
  exists prov, found = Some prov /\ provider (this w3) = Some prov.
Proof.
  unfold adopt_if_active. intros H.
  apply bind_inv in H as (w2' & w2'' & t & t' & Hget & H & _).
  injection Hget as <- <- _.
  destruct found as [prov|]; [|discriminate].
  destruct (plaidWeb3 (this w2)) as [s|]; [|discriminate].
  destruct (isProviderActive s) as [f|]; [|discriminate].
  apply bind_inv in H as (q & w5 & t7 & t7' & _ & H & _).
  apply bind_inv in H as (q' & w6 & t8 & t8' & _ & H & _).
  apply then_fulfilled_inv in H as ([] & _ & H).
  apply bind_inv in H as ([] & w7 & t9 & t9' & Hset & Hret & _).
  injection Hret as <- _.
  exists prov. split; [reflexivity|].
  apply (setProvider_wires _ _ _ _ Hset).
Qed.

Lemma subscribe_then_query (env : Env) (prov : Provider) (w2 w3 : World)
    (t3 : list Event) :
  setProvider prov w2 = (Normal tt, w3, t3) ->
  (setProvider prov ;;; requestAccountsAndChainId env prov) w2
  = (let '(r, w4, t4) := requestAccountsAndChainId env prov w3 in
     (r, w4, t3 ++ t4)).
Proof. intros E. unfold bind. rewrite E. reflexivity. Qed.

(** C5. [activate] and [connectEagerly] never throw: they return a
    promise, and whenever that promise is rejected the log of calls begins
    with the start of the activation and ends with its cancellation.  And
    every failure does reject it, with the very error of the failure and
    after the cancellation, which is the last call made.  Stage by stage (a
    stage fails when its code throws or the promise it yields is rejected):
    the initialization; for [activate], the onboarding, the subscriptions of
    [setProvider] and the two queries; for [connectEagerly], the lookup of
    the current provider, the check that it is there and active together
    with [setProvider], and the two queries.  The queries fail when a
    request throws or is rejected, when the accounts are empty (with the
    chain identifier resolved), and when [update] throws. *)
Theorem failure_cancels_activation (env : Env) (w w1 : World)
    (t1 : list Event) (e : Error) :
  let rejected_after (w' : World) (calls : list Event) :=
    (Normal (Rejected e) : Completion (Promise unit), w',
     StartActivation :: calls ++ [CancelActivation]) in
  (exists p w' t, activate env w = (Normal p, w', t)) /\
  (exists p w' t, connectEagerly env w = (Normal p, w', t)) /\
  (forall w' t,
      activate env w = (Normal (Rejected e), w', t) ->
      exists mid, t = StartActivation :: mid ++ [CancelActivation]) /\
  (forall w' t,
      connectEagerly env w = (Normal (Rejected e), w', t) ->
      exists mid, t = StartActivation :: mid ++ [CancelActivation]) /\
  (* the initialization fails *)
  (isomorphicInitialize env w = (Normal (Rejected e), w1, t1) ->
   activate env w = rejected_after w1 t1 /\
   connectEagerly env w = rejected_after w1 t1) /\
  (* after a successful initialization *)
  (isomorphicInitialize env w = (Normal (Fulfilled tt), w1, t1) ->
   (* [activate]: the onboarding fails *)
   (forall r2 w2 t2,
       onboarding_executor w1 = (r2, w2, t2) -> fails_with r2 e ->
       activate env w = rejected_after w2 (t1 ++ t2)) /\
   (* [activate]: a subscription or the queries fail *)
   (forall prov w2 t2,
       onboarding_executor w1 = (Normal (Fulfilled prov), w2, t2) ->
       (forall w3 t3,
           setProvider prov w2 = (Throw e, w3, t3) ->
           activate env w = rejected_after w3 (t1 ++ t2 ++ t3)) /\
       (forall w3 t3 r4 w4 t4,
           setProvider prov w2 = (Normal tt, w3, t3) ->
           requestAccountsAndChainId env prov w3 = (r4, w4, t4) ->
           fails_with r4 e ->
           activate env w = rejected_after w4 (t1 ++ t2 ++ t3 ++ t4))) /\
   (* [connectEagerly]: the lookup of the current provider fails *)
   (forall r2 w2 t2,
       lookup_provider w1 = (r2, w2, t2) -> fails_with r2 e ->
       connectEagerly env w = rejected_after w2 (t1 ++ t2)) /\
   (* [connectEagerly]: no provider, not active, or a subscription fails;
      and then the queries *)
   (forall found w2 t2,
       lookup_provider w1 = (Normal (Fulfilled found), w2, t2) ->
       (forall r3 w3 t3,
           adopt_if_active found w2 = (r3, w3, t3) -> fails_with r3 e ->
           connectEagerly env w = rejected_after w3 (t1 ++ t2 ++ t3)) /\
       (forall w3 t3 prov r4 w4 t4,
           adopt_if_active found w2 = (Normal (Fulfilled tt), w3, t3) ->
           found = Some prov ->
           requestAccountsAndChainId env prov w3 = (r4, w4, t4) ->
           fails_with r4 e ->
           connectEagerly env w
           = rejected_after w4 (t1 ++ t2 ++ t3 ++ t4)))) /\
  (* what makes the queries fail *)
  (forall (prov : Provider) (w0 : World),
      let r := fst (fst (requestAccountsAndChainId env prov w0)) in
      (prov_request prov eth_accounts = Throws e -> fails_with r e) /\
      (forall ta pa,
          prov_request prov eth_accounts = Promised ta pa ->
          (prov_request prov eth_chainId = Throws e -> fails_with r e) /\
          (forall tc pc,
              prov_request prov eth_chainId = Promised tc pc ->
              (Promise_all (ta, pa) (tc, pc) = Rejected e ->
               fails_with r e) /\
              (forall c,
                  pa = Fulfilled [] -> pc = Fulfilled c ->
                  fails_with r (ErrorMsg "No accounts returned")) /\
              (forall accounts c,
                  pa = Fulfilled accounts -> accounts <> [] ->
                  pc = Fulfilled c ->
                  update_throws env
                    {| upd_chainId := Some (parseChainId c);
                       upd_accounts := Some accounts |} = Some e ->
                  fails_with r e)))).
Proof.
  intros rejected_after. subst rejected_after. cbv beta.
  split; [|split; [|split; [|split; [|split; [|split]]]]].
  - destruct (activate_shape env w) as (pa & wa & ma & Ea). rewrite Ea.
    destruct pa; eauto.
  - destruct (connectEagerly_shape env w) as (pc & wc & mc & Ec). rewrite Ec.
    destruct pc; eauto.
  - destruct (activate_shape env w) as (pa & wa & ma & Ea). rewrite Ea.
    intros w' t H. destruct pa; inversion H; subst. eauto.
  - destruct (connectEagerly_shape env w) as (pc & wc & mc & Ec). rewrite Ec.
    intros w' t H. destruct pc; inversion H; subst. eauto.
  - intros E1. split.
    + rewrite (activate_from_initialize env w w1 t1 _ E1). simpl.
      rewrite ?app_nil_r. reflexivity.
    + rewrite (connectEagerly_from_initialize env w w1 t1 _ E1). simpl.
      rewrite ?app_nil_r. reflexivity.
  - intros E1. split; [|split; [|split]].
    + intros r2 w2 t2 E2 Hf.
      rewrite (activate_from_initialize env w w1 t1 _ E1).
      rewrite (then_passes tt (fun _ => new_Promise onboarding_executor) w1 w2
                 (Rejected e) t2).
      * simpl. rewrite ?app_nil_r, <- ?app_assoc. reflexivity.
      * unfold new_Promise. rewrite E2. destruct Hf as [->| ->]; reflexivity.
    + intros prov w2 t2 E2.
      assert (then_ (Fulfilled tt) (fun _ => new_Promise onboarding_executor) w1
              = (Normal (Fulfilled prov), w2, t2)) as E2'.
      { apply then_passes. unfold new_Promise. rewrite E2. reflexivity. }
      split.
      * intros w3 t3 E3.
        rewrite (activate_from_initialize env w w1 t1 _ E1), E2'.
        rewrite (then_fails prov _ w2 w3 (Throw e) t3 e).
        -- simpl. rewrite ?app_nil_r, <- ?app_assoc. reflexivity.
        -- unfold bind. rewrite E3. reflexivity.
        -- left. reflexivity.
      * intros w3 t3 r4 w4 t4 E3 E4 Hf.
        rewrite (activate_from_initialize env w w1 t1 _ E1), E2'.
        rewrite (then_fails prov _ w2 w4 r4 (t3 ++ t4) e).
        -- simpl. rewrite ?app_nil_r, <- ?app_assoc. reflexivity.
        -- rewrite (subscribe_then_query env prov w2 w3 t3 E3), E4. reflexivity.
        -- exact Hf.
    + intros r2 w2 t2 E2 Hf.
      rewrite (connectEagerly_from_initialize env w w1 t1 _ E1).
      rewrite (then_fails tt (fun _ => lookup_provider) w1 w2 r2 t2 e E2 Hf).
      simpl. rewrite ?app_nil_r, <- ?app_assoc. reflexivity.
    + intros found w2 t2 E2.
      assert (then_ (Fulfilled tt) (fun _ => lookup_provider) w1
              = (Normal (Fulfilled found), w2, t2)) as E2'
        by (apply then_passes; exact E2).
      split.
      * intros r3 w3 t3 E3 Hf.
        rewrite (connectEagerly_from_initialize env w w1 t1 _ E1), E2'.
        rewrite (then_fails found adopt_if_active w2 w3 r3 t3 e E3 Hf).
        simpl. rewrite ?app_nil_r, <- ?app_assoc. reflexivity.
      * intros w3 t3 prov r4 w4 t4 E3 Hfound E4 Hf.
        assert (provider (this w3) = Some prov) as Hp.
        { destruct (adopt_if_active_fulfilled found w2 w3 t3 E3)
            as (prov' & Hf' & Hp').
          congruence. }
        rewrite (connectEagerly_from_initialize env w w1 t1 _ E1), E2'.
        rewrite (then_passes found adopt_if_active w2 w3 (Fulfilled tt) t3 E3).
        rewrite (then_fails tt _ w3 w4 r4 t4 e).
        -- simpl. rewrite ?app_nil_r, <- ?app_assoc. reflexivity.
        -- rewrite (queries_from env w3 prov Hp). exact E4.
        -- exact Hf.
  - intros prov w0 r. subst r.
    unfold requestAccountsAndChainId, request, invoke.
    split.
    + intros Ha. unfold bind, call, throw. rewrite Ha. left. reflexivity.
    + intros ta pa Ha. split.
      * intros Hc. unfold bind, call, throw, ret. rewrite Ha, Hc.
        left. reflexivity.
      * intros tc pc Hc. split; [|split].
        -- intros Hall. unfold bind, call, throw, ret. rewrite Ha, Hc.
           cbn -[Promise_all].
           match goal with
           | |- context [then_ ?p _ _] =>
               assert (p = Rejected e) as -> by exact Hall
           end.
           right. reflexivity.
        -- intros c -> ->. unfold bind, call, throw, ret. rewrite Ha, Hc.
           right. reflexivity.
        -- intros accounts c -> Hne -> Hu.
           unfold bind, call, throw, ret, update. rewrite Ha, Hc.
           destruct accounts as [|a accounts]; [congruence|].
           simpl. unfold bind, call, new_Promise.
           match goal with
           | |- context [update_throws env ?u] =>
               assert (update_throws env u = Some e) as -> by exact Hu
           end.
           right. reflexivity.
Qed.

(** Five failures: the script does not load; the user leaves the
    onboarding dialog; the SDK knows no provider; the wallet rejects the
    chain query; the wallet has no accounts. *)
Lemma failure_cancels_activation_witness :
  let no_script := Scenario.browser_env (FiresError 7)
                     (Scenario.sdk NoCallback None) in
  let leaves := Scenario.browser_env FiresLoad
                  (Scenario.sdk (OnExit (Foreign 9)) None) in
  let unknown := Scenario.browser_env FiresLoad
                   (Scenario.sdk NoCallback None) in
  let rejects := Scenario.browser_env FiresLoad
                   (Scenario.sdk (OnSuccess Scenario.failing_chain_wallet)
                                 None) in
  let empty := Scenario.browser_env FiresLoad
                 (Scenario.sdk NoCallback (Some Scenario.empty_wallet)) in
  let on := On 1 in
  let sent := RequestSent 1 in
  (fst (fst (activate no_script Scenario.world0)),
   snd (activate no_script Scenario.world0))
  = (Normal (Rejected (ScriptFailed 7)),
     [StartActivation; CancelActivation]) /\
  (fst (fst (connectEagerly no_script Scenario.world0)),
   snd (connectEagerly no_script Scenario.world0))
  = (Normal (Rejected (ScriptFailed 7)),
     [StartActivation; CancelActivation]) /\
  (fst (fst (activate leaves Scenario.world0)),
   snd (activate leaves Scenario.world0))
  = (Normal (Rejected (Foreign 9)),
     [StartActivation; Web3Factory;
      CreateEthereumOnboarding Scenario.mainnet; OpenOnboarding;
      CancelActivation]) /\
  (fst (fst (connectEagerly unknown Scenario.world0)),
   snd (connectEagerly unknown Scenario.world0))
  = (Normal (Rejected (ErrorMsg "No existing connection")),
     [StartActivation; Web3Factory; GetCurrentEthereumProvider "0x1";
      CancelActivation]) /\
  (fst (fst (activate rejects Scenario.world0)),
   snd (activate rejects Scenario.world0))
  = (Normal (Rejected (Foreign 4)),
     [StartActivation; Web3Factory;
      CreateEthereumOnboarding Scenario.mainnet; OpenOnboarding;
      on connect; on disconnect; on chainChanged; on accountsChanged;
      sent eth_accounts; sent eth_chainId; CancelActivation]) /\
  (fst (fst (connectEagerly empty Scenario.world0)),
   snd (connectEagerly empty Scenario.world0))
  = (Normal (Rejected (ErrorMsg "No accounts returned")),
     [StartActivation; Web3Factory; GetCurrentEthereumProvider "0x1";
      IsProviderActive 1;
      on connect; on disconnect; on chainChanged; on accountsChanged;
      sent eth_accounts; sent eth_chainId; CancelActivation]).
Proof.
  intros no_script leaves unknown rejects empty on sent.
  pose (w0 := Scenario.world0).
  pose (after := fun env => snd (fst (isomorphicInitialize env w0))).
  split; [|split; [|split; [|split; [|split]]]].
  - destruct (failure_cancels_activation no_script w0 (after no_script) []
                (ScriptFailed 7)) as (_ & _ & _ & _ & Hinit & _).
    destruct Hinit as [Ha _]; [vm_compute; reflexivity|].
    fold w0. rewrite Ha. reflexivity.
  - destruct (failure_cancels_activation no_script w0 (after no_script) []
                (ScriptFailed 7)) as (_ & _ & _ & _ & Hinit & _).
    destruct Hinit as [_ Hc]; [vm_compute; reflexivity|].
    fold w0. rewrite Hc. reflexivity.
  - destruct (failure_cancels_activation leaves w0 (after leaves)
                [Web3Factory] (Foreign 9)) as (_ & _ & _ & _ & _ & Hst & _).
    destruct Hst as (Hon & _); [vm_compute; reflexivity|].
    fold w0.
    rewrite (Hon (Normal (Rejected (Foreign 9))) (after leaves)
               [CreateEthereumOnboarding Scenario.mainnet; OpenOnboarding]).
    + reflexivity.
    + vm_compute. reflexivity.
    + right. reflexivity.
  - destruct (failure_cancels_activation unknown w0 (after unknown)
                [Web3Factory] (ErrorMsg "No existing connection"))
      as (_ & _ & _ & _ & _ & Hst & _).
    destruct Hst as (_ & _ & _ & Hfound); [vm_compute; reflexivity|].
    destruct (Hfound None (after unknown) [GetCurrentEthereumProvider "0x1"])
      as [Hadopt _]; [vm_compute; reflexivity|].
    fold w0.
    rewrite (Hadopt (Throw (ErrorMsg "No existing connection"))
               (after unknown) []).
    + reflexivity.
    + vm_compute. reflexivity.
    + left. reflexivity.
  - destruct (failure_cancels_activation rejects w0 (after rejects)
                [Web3Factory] (Foreign 4))
      as (_ & _ & _ & _ & _ & Hst & Hq).
    destruct Hst as (_ & Hprov & _); [vm_compute; reflexivity|].
    destruct (Hprov Scenario.failing_chain_wallet (after rejects)
                [CreateEthereumOnboarding Scenario.mainnet; OpenOnboarding])
      as [_ Hqueries]; [vm_compute; reflexivity|].
    pose (w3 := wire Scenario.failing_chain_wallet (after rejects)).
    destruct (Hq Scenario.failing_chain_wallet w3) as (_ & Hacc).
    destruct (Hacc 0 (Fulfilled []) eq_refl) as (_ & Hchain).
    destruct (Hchain 1 (Rejected (Foreign 4)) eq_refl) as (Hall & _).
    fold w0.
    rewrite (Hqueries w3 [on connect; on disconnect; on chainChanged;
                          on accountsChanged]
               (fst (fst (requestAccountsAndChainId rejects
                            Scenario.failing_chain_wallet w3)))
               w3 [sent eth_accounts; sent eth_chainId]).
    + reflexivity.
    + vm_compute. reflexivity.
    + vm_compute. reflexivity.
    + apply Hall. reflexivity.
  - destruct (failure_cancels_activation empty w0 (after empty)
                [Web3Factory] (ErrorMsg "No accounts returned"))
      as (_ & _ & _ & _ & _ & Hst & Hq).
    destruct Hst as (_ & _ & _ & Hfound); [vm_compute; reflexivity|].
    destruct (Hfound (Some Scenario.empty_wallet) (after empty)
                [GetCurrentEthereumProvider "0x1"])
      as [_ Hqueries]; [vm_compute; reflexivity|].
    pose (w3 := wire Scenario.empty_wallet (after empty)).
    destruct (Hq Scenario.empty_wallet w3) as (_ & Hacc).
    destruct (Hacc 0 (Fulfilled []) eq_refl) as (_ & Hchain).
    destruct (Hchain 1 (Fulfilled (CString "0x1")) eq_refl) as (_ & Hempty & _).
    fold w0.
    rewrite (Hqueries w3 [IsProviderActive 1; on connect; on disconnect;
                          on chainChanged; on accountsChanged]
               Scenario.empty_wallet
               (fst (fst (requestAccountsAndChainId empty
                            Scenario.empty_wallet w3)))
               w3 [sent eth_accounts; sent eth_chainId]).
    + reflexivity.
    + vm_compute. reflexivity.
    + vm_compute. reflexivity.
    + vm_compute. reflexivity.
    + apply (Hempty (CString "0x1")); reflexivity.
Defined.

End FailureFacts.

(* ===================================================================== *)
(** ** The hook over the loader                                           *)
(* ===================================================================== *)

Section HookMore.

Import Loader Hook.

(** A render's call of [loadScript] and the effect's [load()] together are
    the immediate call. *)
Lemma useScript_effect (props : ScriptProps) (cb : CallbackId)
    (m : option Mounted) (p : Page) :
  let effect := match m with
                | Some h => negb (same_src (h_src h) (p_src props))
                | None => true
                end in
  let r := loadScript {| src := p_src props;
                         checkForExisting := p_checkForExisting props;
                         loadImmediate := effect |} (Some cb) p in
  useScript props cb m p
  = ((match m with
      | Some h => (h_loading h, h_error h)
      | None => (snap_loading (fst (fst r)), snap_error (fst (fst r)))
      end,
      {| h_loading := match m with
                      | Some h => h_loading h
                      | None => snap_loading (fst (fst r))
                      end;
         h_error := match m with
                    | Some h => h_error h
                    | None => snap_error (fst (fst r))
                    end;
         h_src := p_src props |}),
     snd r).
Proof.
  destruct (loadScript_immediate (p_src props) (p_checkForExisting props)
              (Some cb) p) as (snapshot & c & q & E1 & E2).
  unfold useScript. rewrite E1. cbv zeta.
  destruct m as [h|].
  - destruct (same_src (h_src h) (p_src props)); cbn [negb];
      [rewrite E1|rewrite E2]; reflexivity.
  - rewrite E2. reflexivity.
Qed.

Lemma same_src_eq (a b : option string) : same_src a b = true -> a = b.
Proof.
  destruct a, b; simpl; try discriminate; try reflexivity.
  intros H. apply String.eqb_eq in H. congruence.
Qed.



(** X27. A component that comes late.  When the registry already has an
    entry for the URL, loaded or not, the first render of [useScript]
    returns [[true, null]]: it says loading even for a script whose entry
    says loaded.  Its effect creates nothing and changes no entry; it puts
    the component's listeners on the entry's element, after those already
    there, so the component's state changes only when that element fires
    [load] or [error] after the render. *)
Theorem useScript_late_component (u : string) (check : bool) (cb : CallbackId)
    (st : ScriptStatus) (p : Page) :
  isBrowser p = true -> u <> EmptyString ->
  scripts p !! u = Some st -> error st = None ->
  let r := useScript {| p_src := Some u; p_checkForExisting := check |}
                     cb None p in
  fst (fst r) = (true, None) /\
  created (snd r) = created p /\
  scripts (snd r) = scripts p /\
  (forall d,
      snd (dispatchEvent (el_id (scriptEl st)) d (snd r))
      = snd (dispatchEvent (el_id (scriptEl st)) d p)
        ++ [(cb, {| snap_loading := false;
                    snap_error := match d with
                                  | Failed ev => Some ev
                                  | Loaded => None
                                  end |})]).
Proof.
  intros Hb Hu Hst He r. subst r.
  rewrite useScript_effect. cbn [p_src p_checkForExisting snd fst].
  rewrite (later_load_page u check (Some cb) st p Hb Hu Hst He).
  cbn [snd fst snap_loading snap_error].
  repeat split. intros d. apply attach_calls.
Qed.

(** X28. A render with the same [src] is quiet.  A later render of a mounted
    component whose [src] is the one of its previous render returns the
    state React remembers and runs no effect: no element is created, no
    listener is added, the document is left alone, and no registry entry of
    another URL changes. *)
Theorem useScript_same_src_is_quiet (props : ScriptProps) (cb : CallbackId)
    (h : Mounted) (p : Page) :
  same_src (h_src h) (p_src props) = true ->
  let r := useScript props cb (Some h) p in
  fst r = ((h_loading h, h_error h), h) /\
  created (snd r) = created p /\
  document (snd r) = document p /\
  listeners (snd r) = listeners p /\
  forall v, truthy_src (p_src props) <> Some v ->
            scripts (snd r) !! v = scripts p !! v.
Proof.
  intros Hs r. subst r. rewrite useScript_effect.
  rewrite Hs. cbn [negb fst snd].
  destruct (loadScript_deferred
              {| src := p_src props;
                 checkForExisting := p_checkForExisting props;
                 loadImmediate := false |} (Some cb) p eq_refl)
    as (_ & Hc & Hd & Hl & _ & Ho).
  apply same_src_eq in Hs. rewrite <- Hs.
  split; [destruct h; reflexivity|].
  rewrite Hs. repeat split; assumption.
Qed.


(** *** The hook on a page *)


(** A second component, mounted after the script has loaded. *)
Lemma useScript_late_component_witness :
  let a := {| src := Some "a.js"; checkForExisting := false;
              loadImmediate := true |} in
  let p := page (run [CallLoadScript a (Some 7); Fire 0 Loaded]
                     {| page := initial_page true []; triggers := [] |}) in
  let r := useScript {| p_src := Some "a.js"; p_checkForExisting := false |}
                     8 None p in
  scripts p !! "a.js"
  = Some {| loading := false; error := None;
            scriptEl := {| el_id := 0; el_src := "a.js" |} |} /\
  fst (fst r) = (true, None) /\
  created (snd r) = created p /\
  scripts (snd r) = scripts p.
Proof.
  intros a p r.
  assert (scripts p !! "a.js"
          = Some {| loading := false; error := None;
                    scriptEl := {| el_id := 0; el_src := "a.js" |} |}) as H
    by (vm_compute; reflexivity).
  split; [exact H|].
  destruct (useScript_late_component "a.js" false 8 _ p eq_refl
              ltac:(discriminate) H eq_refl) as (H1 & H2 & H3 & _).
  split; [exact H1|]. split; [exact H2|exact H3].
Defined.

(** A second render with the same [src]. *)
Lemma useScript_same_src_is_quiet_witness :
  let props := {| p_src := Some "a.js"; p_checkForExisting := false |} in
  let p := initial_page true [] in
  let first := useScript props 7 None p in
  let r := useScript props 8 (Some (snd (fst first))) (snd first) in
  fst (fst r) = (true, None) /\
  created (snd r) = created (snd first) /\
  listeners (snd r) = listeners (snd first).
Proof.
  intros props p first r.
  destruct (useScript_same_src_is_quiet props 8 (snd (fst first)) (snd first))
    as (H1 & H2 & _ & H4 & _).
  - reflexivity.
  - split; [exact (f_equal fst H1)|]. split; [exact H2|exact H4].
Defined.


End HookMore.
